(** * bitoro.js: position valuation and trade simulation (src/computations.ts)

    A shallow embedding of [computations.ts] and the properties of its
    trade-simulation functions.

    - [BigNumber] values are the values of bignumber.js: finite decimals
      (carried by [Q], arithmetic exact, division rounded to
      [DECIMAL_PLACES] places), the two infinities and [NaN].
    - A [SubAccount] is a JavaScript object: the functions receive a
      reference into a heap of objects and the simulation functions
      mutate the object their working reference points to.
    - [Date.now()] is an external input: every read consumes the next
      reading of a clock oracle.
    - An argument of TypeScript type [number] that the code uses as an
      array index ([tokenId], [profitAssetId]) is a JavaScript number: it
      can be negative, fractional, infinite or [NaN], and the element it
      reads is [undefined] unless it is a non-negative integer below the
      length.
    - A thrown exception is a value of type [Error].
    - The body of a simulation function is cut where the source has its
      comments ("context", "protection", "realize pnl", ...): the function
      is the composition of the pieces, in the order of the source. *)

From Stdlib Require Import ZArith QArith Qabs Qreduction Lqa Lia Bool.
From stdpp Require Import base option list gmap strings.

Local Open Scope Z_scope.

(** ** bignumber.js *)

Module BigNumber.

Inductive t : Type :=
| NaN
| Infinity (negative : bool)
| Finite (q : Q).

(** bignumber.js defaults: [DECIMAL_PLACES = 20],
    [ROUNDING_MODE = ROUND_HALF_UP]. *)
Definition DECIMAL_PLACES : Z := 20.

Inductive RoundingMode := ROUND_DOWN | ROUND_HALF_UP.

Definition ROUNDING_MODE : RoundingMode := ROUND_HALF_UP.

(** [round dp rm q]: [q] rounded to [dp] decimal places.  [ROUND_DOWN]
    rounds towards zero, [ROUND_HALF_UP] to the nearest neighbour and
    away from zero when equidistant. *)
Definition round (dp : Z) (rm : RoundingMode) (q : Q) : Q :=
  let scale := 10 ^ dp in
  let n := Qnum q * scale in
  let d := Zpos (Qden q) in
  let a := Z.abs n in
  let m := match rm with
           | ROUND_DOWN => a / d
           | ROUND_HALF_UP => (2 * a + d) / (2 * d)
           end in
  Qred (Qmake (Z.sgn n * m) (Z.to_pos scale)).

Definition is_zero (q : Q) : bool := Qnum q =? 0.

(** [x.comparedTo(y)]: [None] is JavaScript's [null], the answer when
    either side is [NaN]. *)
Definition comparedTo (x y : t) : option comparison :=
  match x, y with
  | NaN, _ | _, NaN => None
  | Infinity a, Infinity b =>
      Some (if a then (if b then Eq else Lt) else (if b then Gt else Eq))
  | Infinity a, Finite _ => Some (if a then Lt else Gt)
  | Finite _, Infinity b => Some (if b then Gt else Lt)
  | Finite p, Finite q => Some (Qcompare p q)
  end.

Definition eq (x y : t) : bool :=
  match comparedTo x y with Some Eq => true | _ => false end.
Definition lt (x y : t) : bool :=
  match comparedTo x y with Some Lt => true | _ => false end.
Definition gt (x y : t) : bool :=
  match comparedTo x y with Some Gt => true | _ => false end.
Definition lte (x y : t) : bool :=
  match comparedTo x y with Some Lt | Some Eq => true | _ => false end.
Definition gte (x y : t) : bool :=
  match comparedTo x y with Some Gt | Some Eq => true | _ => false end.

Definition negated (x : t) : t :=
  match x with
  | NaN => NaN
  | Infinity a => Infinity (negb a)
  | Finite q => Finite (Qred (- q))
  end.

Definition abs (x : t) : t :=
  match x with
  | NaN => NaN
  | Infinity _ => Infinity false
  | Finite q => Finite (Qred (Qabs q))
  end.

Definition plus (x y : t) : t :=
  match x, y with
  | NaN, _ | _, NaN => NaN
  | Infinity a, Infinity b => if Bool.eqb a b then Infinity a else NaN
  | Infinity a, Finite _ => Infinity a
  | Finite _, Infinity b => Infinity b
  | Finite p, Finite q => Finite (Qred (p + q))
  end.

Definition minus (x y : t) : t :=
  match x, y with
  | NaN, _ | _, NaN => NaN
  | Infinity a, Infinity b => if Bool.eqb a b then NaN else Infinity a
  | Infinity a, Finite _ => Infinity a
  | Finite _, Infinity b => Infinity (negb b)
  | Finite p, Finite q => Finite (Qred (p - q))
  end.

Definition is_negative (q : Q) : bool := Qnum q <? 0.

Definition times (x y : t) : t :=
  match x, y with
  | NaN, _ | _, NaN => NaN
  | Infinity a, Infinity b => Infinity (xorb a b)
  | Infinity a, Finite q =>
      if is_zero q then NaN else Infinity (xorb a (is_negative q))
  | Finite p, Infinity b =>
      if is_zero p then NaN else Infinity (xorb (is_negative p) b)
  | Finite p, Finite q => Finite (Qred (p * q))
  end.

(** Division rounds to [DECIMAL_PLACES] with [ROUNDING_MODE].  The sign
    of a zero is not kept: a non-zero finite value divided by zero is
    the infinity of the dividend's sign. *)
Definition div (x y : t) : t :=
  match x, y with
  | NaN, _ | _, NaN => NaN
  | Infinity _, Infinity _ => NaN
  | Infinity a, Finite q => Infinity (xorb a (is_negative q))
  | Finite _, Infinity _ => Finite 0
  | Finite p, Finite q =>
      if is_zero q then (if is_zero p then NaN else Infinity (is_negative p))
      else Finite (round DECIMAL_PLACES ROUNDING_MODE (p / q))
  end.

(** [x.dp(n, rm)] *)
Definition dp (n : Z) (rm : RoundingMode) (x : t) : t :=
  match x with
  | Finite q => Finite (round n rm q)
  | _ => x
  end.

(** [BigNumber.max(x, y)] and [BigNumber.maximum(x, y)]: [NaN] when
    either argument is, otherwise [y] when [x.lt(y)] and [x] if not. *)
Definition max (x y : t) : t :=
  match x, y with
  | NaN, _ | _, NaN => NaN
  | _, _ => if lt x y then y else x
  end.
Definition maximum := max.

Definition min (x y : t) : t :=
  match x, y with
  | NaN, _ | _, NaN => NaN
  | _, _ => if gt x y then y else x
  end.
Definition minimum := min.

Definition isFinite (x : t) : bool :=
  match x with Finite _ => true | _ => false end.

End BigNumber.

Abbreviation BigNumber := BigNumber.t.
Abbreviation NaN := BigNumber.NaN.
Abbreviation Infinity := BigNumber.Infinity.
Abbreviation Finite := BigNumber.Finite.

(** ** constants.ts *)

Definition _0 : BigNumber := Finite 0.
Definition _1 : BigNumber := Finite 1.

Inductive SpreadType := Ask | Bid.

(** ** JavaScript numbers used as array indices *)

Module JsNumber.

Inductive t : Type :=
| NaN
| Infinity (negative : bool)
| Finite (q : Q).

Definition of_nat (n : nat) : t := Finite (inject_Z (Z.of_nat n)).

(** [i >= n], [n] being the length of an array. *)
Definition gte (i : t) (n : nat) : bool :=
  match i with
  | NaN => false
  | Infinity negative => negb negative
  | Finite q => Qle_bool (inject_Z (Z.of_nat n)) q
  end.

(** The array index that the property key of [i] is, if it is one: a
    non-negative integer. *)
Definition index (i : t) : option nat :=
  match i with
  | Finite q =>
      let n := Qnum q in
      let d := Zpos (Qden q) in
      if (0 <=? n) && (n mod d =? 0) then Some (Z.to_nat (n / d)) else None
  | _ => None
  end.

(** [l[i]]: [None] is [undefined]. *)
Definition item {A : Type} (l : list A) (i : t) : option A :=
  match index i with
  | Some n => l !! n
  | None => None
  end.

End JsNumber.

Abbreviation number := JsNumber.t.
Coercion JsNumber.of_nat : nat >-> JsNumber.t.

(** ** types.ts *)

(** Modelled from the spec: the declarations of types.ts (Asset,
    LiquidityPool, SubAccount, SubAccountComputed, SubAccountDetails, the
    result objects and the error classes) are not among the sources; the
    fields are the ones computations.ts reads and writes. *)

Module Asset.
Record t := {
  symbol : string;
  isStable : bool;
  isTradable : bool;
  isOpenable : bool;
  isShortable : bool;
  isEnabled : bool;
  useStableTokenForProfit : bool;
  initialMarginRate : BigNumber;
  maintenanceMarginRate : BigNumber;
  positionFeeRate : BigNumber;
  minProfitTime : Z;
  minProfitRate : BigNumber;
  halfSpread : BigNumber;
  longCumulativeFundingRate : BigNumber;
  shortCumulativeFunding : BigNumber;
  longFundingBaseRate8H : BigNumber;
  longFundingLimitRate8H : BigNumber;
  spotLiquidity : BigNumber
}.
End Asset.
Abbreviation Asset := Asset.t.

Module LiquidityPool.
Record t := {
  liquidityBaseFeeRate : BigNumber;
  liquidityDynamicFeeRate : BigNumber;
  shortFundingBaseRate8H : BigNumber;
  shortFundingLimitRate8H : BigNumber
}.
End LiquidityPool.
Abbreviation LiquidityPool := LiquidityPool.t.

Module SubAccount.
Record t := {
  collateral : BigNumber;
  size : BigNumber;
  entryPrice : BigNumber;
  entryFunding : BigNumber;
  lastIncreasedTime : Z
}.

Definition with_collateral (v : BigNumber) (a : t) : t :=
  {| collateral := v; size := size a; entryPrice := entryPrice a;
     entryFunding := entryFunding a; lastIncreasedTime := lastIncreasedTime a |}.
Definition with_size (v : BigNumber) (a : t) : t :=
  {| collateral := collateral a; size := v; entryPrice := entryPrice a;
     entryFunding := entryFunding a; lastIncreasedTime := lastIncreasedTime a |}.
Definition with_entryPrice (v : BigNumber) (a : t) : t :=
  {| collateral := collateral a; size := size a; entryPrice := v;
     entryFunding := entryFunding a; lastIncreasedTime := lastIncreasedTime a |}.
Definition with_entryFunding (v : BigNumber) (a : t) : t :=
  {| collateral := collateral a; size := size a; entryPrice := entryPrice a;
     entryFunding := v; lastIncreasedTime := lastIncreasedTime a |}.
Definition with_lastIncreasedTime (v : Z) (a : t) : t :=
  {| collateral := collateral a; size := size a; entryPrice := entryPrice a;
     entryFunding := entryFunding a; lastIncreasedTime := v |}.
End SubAccount.
Abbreviation SubAccount := SubAccount.t.

(** A reference to a [SubAccount] object. *)
Abbreviation ref := nat.

Module SubAccountComputed.
Record t := {
  positionValueUsd : BigNumber;
  fundingFeeUsd : BigNumber;
  pendingPnlUsd : BigNumber;
  pendingPnlAfterFundingUsd : BigNumber;
  pnlUsd : BigNumber;
  marginBalanceUsd : BigNumber;
  isIMSafe : bool;
  isMMSafe : bool;
  isMarginSafe : bool;
  leverage : BigNumber;
  effectiveLeverage : BigNumber;
  pendingRoe : BigNumber;
  liquidationPrice : BigNumber;
  withdrawableCollateral : BigNumber;
  withdrawableProfit : BigNumber
}.
End SubAccountComputed.
Abbreviation SubAccountComputed := SubAccountComputed.t.

Module SubAccountDetails.
Record t := { subAccount : ref; computed : SubAccountComputed }.
End SubAccountDetails.
Abbreviation SubAccountDetails := SubAccountDetails.t.

Module OpenPositionResult.
Record t := {
  afterTrade : SubAccountDetails;
  isTradeSafe : bool;
  fundingFeeUsd : BigNumber;
  feeUsd : BigNumber
}.
End OpenPositionResult.

Module ClosePositionResult.
Record t := {
  afterTrade : SubAccountDetails;
  isTradeSafe : bool;
  feeUsd : BigNumber;
  profitAssetTransferred : BigNumber;
  bitoroTokenTransferred : BigNumber
}.
End ClosePositionResult.

Module WithdrawCollateralResult.
Record t := {
  afterTrade : SubAccountDetails;
  isTradeSafe : bool;
  feeUsd : BigNumber
}.
End WithdrawCollateralResult.

Module WithdrawProfitResult.
Record t := {
  afterTrade : SubAccountDetails;
  isTradeSafe : bool;
  feeUsd : BigNumber;
  profitAssetTransferred : BigNumber;
  bitoroTokenTransferred : BigNumber
}.
End WithdrawProfitResult.

(** [PriceDict]: a JavaScript object from symbol to price.  The map holds
    its own properties; [prices !! symbol = None] says there is no own
    property of that name. *)
Abbreviation PriceDict := (gmap string BigNumber).

(** The names an object inherits from [Object.prototype].  Reading
    [prices[symbol]] for such a symbol that is no own property gives the
    inherited member, not [undefined]: a value that is truthy and no
    BigNumber, on which the call of [lte] is a [TypeError]. *)
Definition Object_prototype : list string :=
  ["constructor"; "__defineGetter__"; "__defineSetter__"; "hasOwnProperty";
   "__lookupGetter__"; "__lookupSetter__"; "isPrototypeOf"; "propertyIsEnumerable";
   "toString"; "valueOf"; "__proto__"; "toLocaleString"].

Definition inherited (symbol : string) : bool :=
  existsb (String.eqb symbol) Object_prototype.

Inductive InsufficientLiquidityType :=
| BitoroRemoveLiquidityExceedsCurrentAsset.

(** The message of an [InvalidArgumentError], with the values the
    template string interpolates. *)
Inductive InvalidArgument :=
| MissingAsset (id : number)
| InvalidPrice (symbol : string)
| InvalidAmount (amount : BigNumber)
| InvalidGasFee (brokerGasFee : BigNumber)
| NotTradable
| ProfitAssetNotStable (id : number)
| EmptyPosition
| UtilizationAbove100.

(** What a call can throw.  [JsError] is a plain [new Error(message)];
    [TypeError] is the engine's own, for a property read on
    [undefined]. *)
Inductive Error :=
| InvalidArgumentError (what : InvalidArgument)
| InsufficientLiquidityError (type : InsufficientLiquidityType)
    (deltaValue currentAssetValue : BigNumber)
| BugError (price : BigNumber)
| JsError (message : string)
| TypeError.

(** ** Effects *)

Definition Result (A : Type) : Type := Error + A.

Definition rbind {A B} (r : Result A) (k : A -> Result B) : Result B :=
  match r with
  | inl e => inl e
  | inr a => k a
  end.

(** The system clock: [readings n] is what the [n]-th call of
    [Date.now()] returns (milliseconds). *)
Record Clock := { readings : nat -> Z; reads : nat }.

(** The objects of the program and the clock. *)
Record World := { heap : list SubAccount; clk : Clock }.

Definition M (S A : Type) : Type := S -> S * Result A.

Definition ret {S A} (a : A) : M S A := fun s => (s, inr a).
Definition throw {S A} (e : Error) : M S A := fun s => (s, inl e).
Definition bind {S A B} (m : M S A) (k : A -> M S B) : M S B :=
  fun s => match m s with
           | (s', inr a) => k a s'
           | (s', inl e) => (s', inl e)
           end.
Definition liftE {S A} (r : Result A) : M S A := fun s => (s, r).
Definition liftC {A} (m : M Clock A) : M World A :=
  fun w => let (c, r) := m (clk w) in ({| heap := heap w; clk := c |}, r).

Declare Scope js_scope.
Delimit Scope js_scope with js.
Notation "'let*' x ':=' m 'in' k" := (bind m (fun x => k))
  (at level 10, x name, m at level 100, k at level 200) : js_scope.
Notation "'let+' x ':=' r 'in' k" := (rbind r (fun x => k))
  (at level 10, x name, r at level 100, k at level 200) : js_scope.
Local Open Scope js_scope.

(** [Date.now()] *)
Definition Date_now : M Clock Z :=
  fun c => ({| readings := readings c; reads := S (reads c) |},
            inr (readings c (reads c))).

(** [Math.ceil(ms / 1000)] *)
Definition ceil_seconds (ms : Z) : Z := - ((- ms) / 1000).

(** [o.f] where [o] may be [undefined] *)
Definition prop {A} (o : option Asset) (f : Asset -> A) : Result A :=
  match o with
  | Some a => inr (f a)
  | None => inl TypeError
  end.

(** [subAccount.f], through the reference *)
Definition deref (subAccount : ref) : M World SubAccount :=
  fun w => match heap w !! subAccount with
           | Some a => (w, inr a)
           | None => (w, inl TypeError)
           end.

(** [subAccount.f = v]: the object behind the reference is updated in
    place. *)
Definition assign (subAccount : ref) (upd : SubAccount -> SubAccount) : M World unit :=
  fun w => match heap w !! subAccount with
           | Some a => ({| heap := <[subAccount := upd a]> (heap w); clk := clk w |}, inr tt)
           | None => (w, inl TypeError)
           end.

(** Modelled from the spec: [cloneSubAccount] of types.ts is not among
    the sources.  "Every simulation function operates on a cloned copy of
    the input SubAccount, leaving the caller's original untouched": the
    clone is a new object with the fields of the old one. *)
Definition cloneSubAccount (subAccount : ref) : M World ref :=
  fun w => match heap w !! subAccount with
           | Some a => ({| heap := heap w ++ [a]; clk := clk w |}, inr (length (heap w)))
           | None => (w, inl TypeError)
           end.

(** ** data.ts *)

Module SubAccountId.
Record t := { collateralId : nat; assetId : nat; isLong : bool }.
End SubAccountId.

(** ** computations.ts *)

Module Pnl.
Record t := { pendingPnlUsd : BigNumber; pnlUsd : BigNumber }.
End Pnl.

Module TradingPrice.
Record t := { assetPrice : BigNumber; collateralPrice : BigNumber }.
End TradingPrice.

Module RealizeProfit.
Record t := {
  deductUsd : BigNumber;
  profitAssetTransferred : BigNumber;
  bitoroTokenTransferred : BigNumber
}.
End RealizeProfit.

Module FundingRate8H.
Record t := { longFundingRate8H : BigNumber; shortFundingRate8H : BigNumber }.
End FundingRate8H.

(** The identifier and the prices a simulation works with once its
    arguments are accepted, and its working copy of the account. *)
Module Context.
Record t := {
  working : ref;
  collateralId : nat;
  assetId : nat;
  isLong : bool;
  collateralPrice : BigNumber;
  assetPrice : BigNumber
}.
End Context.
Abbreviation Context := Context.t.

(** The asset profits are paid in, and its price. *)
Module ProfitAsset.
Record t := { profitAssetId : number; profitAssetPrice : BigNumber }.
End ProfitAsset.
Abbreviation ProfitAsset := ProfitAsset.t.

(** The locals of [computeClosePosition] after "realize pnl". *)
Module Realized.
Record t := {
  totalFeeUsd : BigNumber;
  paidFeeUsd : BigNumber;
  profitAssetTransferred : BigNumber;
  bitoroTokenTransferred : BigNumber
}.
End Realized.
Abbreviation Realized := Realized.t.

Import BigNumber(eq, lt, gt, lte, gte, plus, minus, times, div, abs, negated).

Section Computations.

(** [decodeSubAccountId] of data.ts is not among the sources: any
    decoder, which may reject an identifier. *)
Variable decodeSubAccountId : string -> Result SubAccountId.t.

Definition computePositionPnlUsd (asset : option Asset) (subAccount : SubAccount)
    (isLong : bool) (amount assetPrice : BigNumber) : M Clock Pnl.t :=
  if eq amount _0 then
    ret {| Pnl.pendingPnlUsd := _0; Pnl.pnlUsd := _0 |}
  else
    let priceDelta := if isLong then minus assetPrice (SubAccount.entryPrice subAccount)
                      else minus (SubAccount.entryPrice subAccount) assetPrice in
    let pendingPnlUsd := times priceDelta amount in
    if gt priceDelta _0 then
      let* now := Date_now in
      let* minProfitTime := liftE (prop asset Asset.minProfitTime) in
      if ceil_seconds now <? SubAccount.lastIncreasedTime subAccount + minProfitTime then
        let* minProfitRate := liftE (prop asset Asset.minProfitRate) in
        if lt (abs priceDelta) (times minProfitRate (SubAccount.entryPrice subAccount)) then
          ret {| Pnl.pendingPnlUsd := pendingPnlUsd; Pnl.pnlUsd := _0 |}
        else
          ret {| Pnl.pendingPnlUsd := pendingPnlUsd; Pnl.pnlUsd := pendingPnlUsd |}
      else
        ret {| Pnl.pendingPnlUsd := pendingPnlUsd; Pnl.pnlUsd := pendingPnlUsd |}
    else
      ret {| Pnl.pendingPnlUsd := pendingPnlUsd; Pnl.pnlUsd := pendingPnlUsd |}.

Definition computeFundingFeeUsd (subAccount : SubAccount) (asset : option Asset)
    (isLong : bool) (assetPrice : BigNumber) : Result BigNumber :=
  if eq (SubAccount.size subAccount) _0 then inr _0
  else
    let+ cumulativeFunding :=
      (if isLong then
         let+ rate := prop asset Asset.longCumulativeFundingRate in
         let cumulativeFunding := minus rate (SubAccount.entryFunding subAccount) in
         inr (times cumulativeFunding assetPrice)
       else
         let+ funding := prop asset Asset.shortCumulativeFunding in
         inr (minus funding (SubAccount.entryFunding subAccount))) in
    inr (times cumulativeFunding (SubAccount.size subAccount)).

Definition _computePositionFeeUsd (asset : option Asset) (amount assetPrice : BigNumber)
    : Result BigNumber :=
  if eq amount _0 then inr _0
  else
    let+ positionFeeRate := prop asset Asset.positionFeeRate in
    let feeUsd := times (times assetPrice positionFeeRate) amount in
    inr feeUsd.

Definition _computeFeeUsd (subAccount : SubAccount) (asset : option Asset)
    (isLong : bool) (amount assetPrice : BigNumber) : Result BigNumber :=
  let+ fee := computeFundingFeeUsd subAccount asset isLong assetPrice in
  let+ positionFee := _computePositionFeeUsd asset amount assetPrice in
  let fee := plus fee positionFee in
  inr fee.

(** note: mutable modify *)
Definition _updateEntryFunding (subAccount : ref) (asset : option Asset) (isLong : bool)
    : M World unit :=
  if isLong then
    let* rate := liftE (prop asset Asset.longCumulativeFundingRate) in
    assign subAccount (SubAccount.with_entryFunding rate)
  else
    let* funding := liftE (prop asset Asset.shortCumulativeFunding) in
    assign subAccount (SubAccount.with_entryFunding funding).

Definition _estimateLiquidationPrice (assets : list Asset) (collateralId assetId : nat)
    (isLong : bool) (subAccount : SubAccount) (collateralPrice fundingFeeUsd : BigNumber)
    : Result BigNumber :=
  if eq (SubAccount.size subAccount) _0 then inr _0
  else
    let+ maintenanceMarginRate := prop (assets !! assetId) Asset.maintenanceMarginRate in
    let longFactor := if isLong then _1 else negated _1 in
    let t := times (minus longFactor maintenanceMarginRate) (SubAccount.size subAccount) in
    let p :=
      if (collateralId =? assetId)%nat then
        let p := times (times longFactor (SubAccount.entryPrice subAccount))
                       (SubAccount.size subAccount) in
        let p := div (plus p fundingFeeUsd) (plus t (SubAccount.collateral subAccount)) in
        BigNumber.max _0 p
      else
        let p := times (times longFactor (SubAccount.entryPrice subAccount))
                       (SubAccount.size subAccount) in
        let p := minus (plus p fundingFeeUsd)
                       (times collateralPrice (SubAccount.collateral subAccount)) in
        let p := div p t in
        BigNumber.max _0 p in
    let+ halfSpread := prop (assets !! assetId) Asset.halfSpread in
    if isLong then inr (div p (minus _1 halfSpread))
    else inr (div p (plus _1 halfSpread)).

(** check price and add spread *)
Definition computePriceWithSpread (asset : option Asset) (price : BigNumber)
    (spreadType : SpreadType) : Result BigNumber :=
  let+ assetHalfSpread := prop asset Asset.halfSpread in
  if eq assetHalfSpread _0 then inr price
  else
    let halfSpread := times price assetHalfSpread in
    match spreadType with
    | Bid =>
        if lte price halfSpread then inl (BugError price)
        else inr (minus price halfSpread)
    | Ask => inr (plus price halfSpread)
    end.

(** get price with spread when open/close positions *)
Definition computeTradingPrice (assets : list Asset) (subAccountId : string)
    (prices : PriceDict) (isOpenPosition : bool) : Result TradingPrice.t :=
  let+ sid := decodeSubAccountId subAccountId in
  let collateralId := SubAccountId.collateralId sid in
  let assetId := SubAccountId.assetId sid in
  let isLong := SubAccountId.isLong sid in
  if (length assets <=? collateralId)%nat then
    inl (InvalidArgumentError (MissingAsset collateralId))
  else if (length assets <=? assetId)%nat then
    inl (InvalidArgumentError (MissingAsset assetId))
  else
    let+ collateralSymbol := prop (assets !! collateralId) Asset.symbol in
    let+ assetSymbol := prop (assets !! assetId) Asset.symbol in
    match prices !! collateralSymbol with
    | None =>
        if inherited collateralSymbol then inl TypeError
        else inl (InvalidArgumentError (InvalidPrice collateralSymbol))
    | Some collateralPrice =>
        if lte collateralPrice _0 then
          inl (InvalidArgumentError (InvalidPrice collateralSymbol))
        else
          match prices !! assetSymbol with
          | None =>
              if inherited assetSymbol then inl TypeError
              else inl (InvalidArgumentError (InvalidPrice assetSymbol))
          | Some assetPrice =>
              if lte assetPrice _0 then
                inl (InvalidArgumentError (InvalidPrice assetSymbol))
              else
                let spreadType :=
                  if isOpenPosition then (if isLong then Ask else Bid)
                  else (if isLong then Bid else Ask) in
                let+ assetPrice :=
                  computePriceWithSpread (assets !! assetId) assetPrice spreadType in
                inr {| TradingPrice.assetPrice := assetPrice;
                       TradingPrice.collateralPrice := collateralPrice |}
          end
    end.

(** get price with spread when add/remove liquidity *)
Definition computeLiquidityPrice (assets : list Asset) (prices : PriceDict)
    (tokenId : number) (isAddLiquidity : bool) : Result BigNumber :=
  if JsNumber.gte tokenId (length assets) then
    inl (InvalidArgumentError (MissingAsset tokenId))
  else
    let+ tokenSymbol := prop (JsNumber.item assets tokenId) Asset.symbol in
    match prices !! tokenSymbol with
    | None =>
        if inherited tokenSymbol then inl TypeError
        else inl (InvalidArgumentError (InvalidPrice tokenSymbol))
    | Some collateralPrice =>
        if lte collateralPrice _0 then
          inl (InvalidArgumentError (InvalidPrice tokenSymbol))
        else
          let spreadType := if isAddLiquidity then Bid else Ask in
          computePriceWithSpread (JsNumber.item assets tokenId) collateralPrice spreadType
    end.

Definition computeRealizeProfit (profitUsd feeUsd : BigNumber)
    (profitAsset : option Asset) (profitAssetPrice : BigNumber) : Result RealizeProfit.t :=
  let deductUsd := BigNumber.minimum profitUsd feeUsd in
  let profitUsd := minus profitUsd deductUsd in
  if gt profitUsd _0 then
    let profitCollateral := div profitUsd profitAssetPrice in
    let+ spotLiquidity := prop profitAsset Asset.spotLiquidity in
    let spot := BigNumber.minimum profitCollateral spotLiquidity in
    let profitAssetTransferred := if gt spot _0 then spot else _0 in
    let debtWadAmount := minus profitCollateral spot in
    let bitoroTokenTransferred := if gt debtWadAmount _0 then debtWadAmount else _0 in
    inr {| RealizeProfit.deductUsd := deductUsd;
           RealizeProfit.profitAssetTransferred := profitAssetTransferred;
           RealizeProfit.bitoroTokenTransferred := bitoroTokenTransferred |}
  else
    inr {| RealizeProfit.deductUsd := deductUsd;
           RealizeProfit.profitAssetTransferred := _0;
           RealizeProfit.bitoroTokenTransferred := _0 |}.

Definition computeRealizeLoss (subAccount : ref) (collateralPrice lossUsd : BigNumber)
    (isThrowBankrupt : bool) : M World unit :=
  if eq lossUsd _0 then ret tt
  else
    let lossCollateral := div lossUsd collateralPrice in
    let* account := deref subAccount in
    if isThrowBankrupt then
      if lt (SubAccount.collateral account) lossCollateral then
        throw (JsError "bankrupt")
      else
        assign subAccount
          (SubAccount.with_collateral (minus (SubAccount.collateral account) lossCollateral))
    else
      let lossCollateral := BigNumber.minimum lossCollateral (SubAccount.collateral account) in
      assign subAccount
        (SubAccount.with_collateral (minus (SubAccount.collateral account) lossCollateral)).

Definition computeSubAccount (assets : list Asset) (subAccountId : string)
    (subAccount : ref) (collateralPrice assetPrice : BigNumber) : M World SubAccountDetails :=
  let* sid := liftE (decodeSubAccountId subAccountId) in
  let collateralId := SubAccountId.collateralId sid in
  let assetId := SubAccountId.assetId sid in
  let isLong := SubAccountId.isLong sid in
  let* account := deref subAccount in
  let positionValueUsd := times assetPrice (SubAccount.size account) in
  let* fundingFeeUsd :=
    liftE (computeFundingFeeUsd account (assets !! assetId) isLong assetPrice) in
  let* pnl :=
    liftC (computePositionPnlUsd (assets !! assetId) account isLong
             (SubAccount.size account) assetPrice) in
  let pendingPnlUsd := Pnl.pendingPnlUsd pnl in
  let pnlUsd := Pnl.pnlUsd pnl in
  let pendingPnlAfterFundingUsd := minus pendingPnlUsd fundingFeeUsd in
  let pnlAfterFundingUsd := minus pnlUsd fundingFeeUsd in
  let collateralValue := times (SubAccount.collateral account) collateralPrice in
  let marginBalanceUsd := plus collateralValue pendingPnlAfterFundingUsd in
  let* initialMarginRate := liftE (prop (assets !! assetId) Asset.initialMarginRate) in
  let isIMSafe := gte marginBalanceUsd (times positionValueUsd initialMarginRate) in
  let* maintenanceMarginRate :=
    liftE (prop (assets !! assetId) Asset.maintenanceMarginRate) in
  let isMMSafe := gte marginBalanceUsd (times positionValueUsd maintenanceMarginRate) in
  let isMarginSafe := gte marginBalanceUsd _0 in
  let leverage :=
    if gt collateralValue _0 then
      div (times (SubAccount.entryPrice account) (SubAccount.size account)) collateralValue
    else _0 in
  let effectiveLeverage :=
    if gt marginBalanceUsd _0 then div positionValueUsd marginBalanceUsd else _0 in
  let pendingRoe :=
    if gt collateralValue _0 then div pendingPnlAfterFundingUsd collateralValue else _0 in
  let* liquidationPrice :=
    liftE (_estimateLiquidationPrice assets collateralId assetId isLong account
             collateralPrice fundingFeeUsd) in
  (* withdraw collateral *)
  let safeImr := BigNumber.maximum initialMarginRate (Finite (1 # 100)) in
  let withdrawableCollateral :=
    BigNumber.min
      (minus (plus collateralValue pnlAfterFundingUsd) (times positionValueUsd safeImr))
      (minus (minus collateralValue fundingFeeUsd)
             (times (times (SubAccount.entryPrice account) (SubAccount.size account))
                    safeImr)) in
  let withdrawableCollateral := BigNumber.max _0 withdrawableCollateral in
  let withdrawableCollateral := div withdrawableCollateral collateralPrice in
  (* withdraw profit *)
  let withdrawableProfit :=
    BigNumber.min
      (minus (plus collateralValue pnlAfterFundingUsd) (times positionValueUsd safeImr))
      pnlAfterFundingUsd in
  let withdrawableProfit := BigNumber.max _0 withdrawableProfit in
  let withdrawableProfit :=
    if isLong then div withdrawableProfit assetPrice else withdrawableProfit in
  let computed :=
    {| SubAccountComputed.positionValueUsd := positionValueUsd;
       SubAccountComputed.fundingFeeUsd := fundingFeeUsd;
       SubAccountComputed.pendingPnlUsd := pendingPnlUsd;
       SubAccountComputed.pendingPnlAfterFundingUsd := pendingPnlAfterFundingUsd;
       SubAccountComputed.pnlUsd := pnlUsd;
       SubAccountComputed.marginBalanceUsd := marginBalanceUsd;
       SubAccountComputed.isIMSafe := isIMSafe;
       SubAccountComputed.isMMSafe := isMMSafe;
       SubAccountComputed.isMarginSafe := isMarginSafe;
       SubAccountComputed.leverage := leverage;
       SubAccountComputed.effectiveLeverage := effectiveLeverage;
       SubAccountComputed.pendingRoe := pendingRoe;
       SubAccountComputed.liquidationPrice := liquidationPrice;
       SubAccountComputed.withdrawableCollateral := withdrawableCollateral;
       SubAccountComputed.withdrawableProfit := withdrawableProfit |} in
  ret {| SubAccountDetails.subAccount := subAccount;
         SubAccountDetails.computed := computed |}.

(** [assets[assetId].isStable || !assets[assetId].isTradable || ...]:
    the protection test of open, with [isOpenable], and of close and
    withdraw-profit, without. *)
Definition notTradable (asset collateralAsset : Asset) (isLong checkOpenable : bool) : bool :=
  Asset.isStable asset
  || negb (Asset.isTradable asset)
  || (checkOpenable && negb (Asset.isOpenable asset))
  || negb (Asset.isEnabled asset)
  || negb (Asset.isEnabled collateralAsset)
  || (negb isLong && negb (Asset.isShortable asset)).

(** [computeOpenPosition], "context" and "protection": lines 266-285. *)
Definition computeOpenPosition_context (assets : list Asset) (subAccountId : string)
    (subAccount : ref) (prices : PriceDict) (amount brokerGasFee : BigNumber)
    : M World Context :=
  let* subAccount := cloneSubAccount subAccount in
  let* sid := liftE (decodeSubAccountId subAccountId) in
  let* price := liftE (computeTradingPrice assets subAccountId prices true) in
  if lte amount _0 then throw (InvalidArgumentError (InvalidAmount amount))
  else if lt brokerGasFee _0 then throw (InvalidArgumentError (InvalidGasFee brokerGasFee))
  else
    let* asset := liftE (prop (assets !! SubAccountId.assetId sid) id) in
    let* collateralAsset := liftE (prop (assets !! SubAccountId.collateralId sid) id) in
    if notTradable asset collateralAsset (SubAccountId.isLong sid) true then
      throw (InvalidArgumentError NotTradable)
    else
      ret {| Context.working := subAccount;
             Context.collateralId := SubAccountId.collateralId sid;
             Context.assetId := SubAccountId.assetId sid;
             Context.isLong := SubAccountId.isLong sid;
             Context.collateralPrice := TradingPrice.collateralPrice price;
             Context.assetPrice := TradingPrice.assetPrice price |}.

Definition computeOpenPosition (assets : list Asset) (subAccountId : string)
    (subAccount : ref) (prices : PriceDict) (amount brokerGasFee : BigNumber)
    : M World OpenPositionResult.t :=
  let* c :=
    computeOpenPosition_context assets subAccountId subAccount prices amount brokerGasFee in
  let subAccount := Context.working c in
  (* fee & funding *)
  let* account := deref subAccount in
  let* fundingFeeUsd :=
    liftE (computeFundingFeeUsd account (assets !! Context.assetId c) (Context.isLong c)
             (Context.assetPrice c)) in
  let* feeUsd :=
    liftE (_computeFeeUsd account (assets !! Context.assetId c) (Context.isLong c) amount
             (Context.assetPrice c)) in
  let* _ := _updateEntryFunding subAccount (assets !! Context.assetId c) (Context.isLong c) in
  let feeCollateral := div feeUsd (Context.collateralPrice c) in
  let feeCollateral := plus feeCollateral brokerGasFee in
  (* if (subAccount.collateral.lt(feeCollateral)) {}: "InsufficientCollateralForFee.
     we continue in bitoro.js" *)
  let* account := deref subAccount in
  let* _ := assign subAccount
              (SubAccount.with_collateral
                 (minus (SubAccount.collateral account) feeCollateral)) in
  (* position *)
  let* account := deref subAccount in
  let* pnlUsd :=
    liftC (computePositionPnlUsd (assets !! Context.assetId c) account (Context.isLong c) amount
             (Context.assetPrice c)) in
  let newSize := plus (SubAccount.size account) amount in
  let* _ :=
    (if eq (Pnl.pnlUsd pnlUsd) _0 then
       assign subAccount (SubAccount.with_entryPrice (Context.assetPrice c))
     else
       assign subAccount
         (SubAccount.with_entryPrice
            (div (plus (times (SubAccount.entryPrice account) (SubAccount.size account))
                       (times (Context.assetPrice c) amount))
                 newSize))) in
  let* _ := assign subAccount (SubAccount.with_size newSize) in
  let* now := liftC Date_now in
  let* _ := assign subAccount (SubAccount.with_lastIncreasedTime (ceil_seconds now)) in
  (* post check *)
  let* afterTrade :=
    computeSubAccount assets subAccountId subAccount (Context.collateralPrice c)
      (Context.assetPrice c) in
  ret {| OpenPositionResult.afterTrade := afterTrade;
         OpenPositionResult.isTradeSafe :=
           SubAccountComputed.isIMSafe (SubAccountDetails.computed afterTrade);
         OpenPositionResult.fundingFeeUsd := fundingFeeUsd;
         OpenPositionResult.feeUsd := feeUsd |}.

(** The profit asset of close and withdraw-profit: lines 333-348 and
    461-476. *)
Definition resolveProfitAsset (assets : list Asset) (prices : PriceDict)
    (assetId : nat) (isLong : bool) (assetPrice : BigNumber) (profitAssetId : number)
    : Result ProfitAsset :=
  let+ useStable := (if isLong then prop (assets !! assetId) Asset.useStableTokenForProfit
                     else inr true) in
  if isLong && negb useStable then
    inr {| ProfitAsset.profitAssetId := assetId; ProfitAsset.profitAssetPrice := assetPrice |}
  else if JsNumber.gte profitAssetId (length assets) then
    inl (InvalidArgumentError (MissingAsset profitAssetId))
  else
    let+ stable := prop (JsNumber.item assets profitAssetId) Asset.isStable in
    if negb stable then inl (InvalidArgumentError (ProfitAssetNotStable profitAssetId))
    else
      let+ profitSymbol := prop (JsNumber.item assets profitAssetId) Asset.symbol in
      match prices !! profitSymbol with
      | None =>
          if inherited profitSymbol then inl TypeError
          else inl (InvalidArgumentError (InvalidPrice profitSymbol))
      | Some profitAssetPrice =>
          if lte profitAssetPrice _0 then
            inl (InvalidArgumentError (InvalidPrice profitSymbol))
          else
            inr {| ProfitAsset.profitAssetId := profitAssetId;
                   ProfitAsset.profitAssetPrice := profitAssetPrice |}
      end.

(** [computeClosePosition], "context" and "protection": lines 330-364. *)
Definition computeClosePosition_context (assets : list Asset) (subAccountId : string)
    (subAccount : ref) (profitAssetId : number) (prices : PriceDict)
    (amount brokerGasFee : BigNumber) : M World (Context * ProfitAsset) :=
  let* subAccount := cloneSubAccount subAccount in
  let* sid := liftE (decodeSubAccountId subAccountId) in
  let* price := liftE (computeTradingPrice assets subAccountId prices false) in
  let* profit :=
    liftE (resolveProfitAsset assets prices (SubAccountId.assetId sid)
             (SubAccountId.isLong sid) (TradingPrice.assetPrice price) profitAssetId) in
  let* account := deref subAccount in
  if lte amount _0 || gt amount (SubAccount.size account) then
    throw (InvalidArgumentError (InvalidAmount amount))
  else if lt brokerGasFee _0 then throw (InvalidArgumentError (InvalidGasFee brokerGasFee))
  else
    let* asset := liftE (prop (assets !! SubAccountId.assetId sid) id) in
    let* collateralAsset := liftE (prop (assets !! SubAccountId.collateralId sid) id) in
    if notTradable asset collateralAsset (SubAccountId.isLong sid) false then
      throw (InvalidArgumentError NotTradable)
    else
      ret ({| Context.working := subAccount;
              Context.collateralId := SubAccountId.collateralId sid;
              Context.assetId := SubAccountId.assetId sid;
              Context.isLong := SubAccountId.isLong sid;
              Context.collateralPrice := TradingPrice.collateralPrice price;
              Context.assetPrice := TradingPrice.assetPrice price |}, profit).

(** [computeClosePosition], "fee & funding" and "realize pnl": lines
    366-386. *)
Definition computeClosePosition_realize (assets : list Asset) (c : Context)
    (profit : ProfitAsset) (amount : BigNumber) : M World Realized :=
  let subAccount := Context.working c in
  (* fee & funding *)
  let* account := deref subAccount in
  let* totalFeeUsd :=
    liftE (_computeFeeUsd account (assets !! Context.assetId c) (Context.isLong c) amount
             (Context.assetPrice c)) in
  let* _ := _updateEntryFunding subAccount (assets !! Context.assetId c) (Context.isLong c) in
  (* realize pnl *)
  let* account := deref subAccount in
  let* pnl :=
    liftC (computePositionPnlUsd (assets !! Context.assetId c) account (Context.isLong c) amount
             (Context.assetPrice c)) in
  let pnlUsd := Pnl.pnlUsd pnl in
  let* realized :=
    (if gt pnlUsd _0 then
       let* result :=
         liftE (computeRealizeProfit pnlUsd totalFeeUsd
                  (JsNumber.item assets (ProfitAsset.profitAssetId profit))
                  (ProfitAsset.profitAssetPrice profit)) in
       ret {| Realized.totalFeeUsd := totalFeeUsd;
              Realized.paidFeeUsd := RealizeProfit.deductUsd result;
              Realized.profitAssetTransferred := RealizeProfit.profitAssetTransferred result;
              Realized.bitoroTokenTransferred := RealizeProfit.bitoroTokenTransferred result |}
     else if lt pnlUsd _0 then
       let* _ :=
         computeRealizeLoss subAccount (Context.collateralPrice c) (negated pnlUsd) true in
       ret {| Realized.totalFeeUsd := totalFeeUsd; Realized.paidFeeUsd := _0;
              Realized.profitAssetTransferred := _0;
              Realized.bitoroTokenTransferred := _0 |}
     else
       ret {| Realized.totalFeeUsd := totalFeeUsd; Realized.paidFeeUsd := _0;
              Realized.profitAssetTransferred := _0;
              Realized.bitoroTokenTransferred := _0 |}) in
  let* account := deref subAccount in
  let* _ := assign subAccount (SubAccount.with_size (minus (SubAccount.size account) amount)) in
  let* account := deref subAccount in
  let* _ :=
    (if eq (SubAccount.size account) _0 then
       let* _ := assign subAccount (SubAccount.with_entryPrice _0) in
       let* _ := assign subAccount (SubAccount.with_entryFunding _0) in
       assign subAccount (SubAccount.with_lastIncreasedTime 0)
     else ret tt) in
  ret realized.

(** [computeClosePosition], "ignore fees if can not afford": lines
    387-401.  Returns the new [paidFeeUsd]. *)
Definition computeClosePosition_fees (subAccount : ref)
    (collateralPrice brokerGasFee totalFeeUsd paidFeeUsd : BigNumber) : M World BigNumber :=
  if gt brokerGasFee _0 || gt totalFeeUsd paidFeeUsd then
    let feeCollateral := div (minus totalFeeUsd paidFeeUsd) collateralPrice in
    let feeAndGasCollateral := plus feeCollateral brokerGasFee in
    let* account := deref subAccount in
    let clamped := lt (SubAccount.collateral account) feeAndGasCollateral in
    let feeAndGasCollateral' :=
      if clamped then SubAccount.collateral account else feeAndGasCollateral in
    let feeCollateral' :=
      if clamped then
        (if lt (SubAccount.collateral account) brokerGasFee then _0
         else minus (SubAccount.collateral account) brokerGasFee)
      else feeCollateral in
    let* _ := assign subAccount
                (SubAccount.with_collateral
                   (minus (SubAccount.collateral account) feeAndGasCollateral')) in
    ret (plus paidFeeUsd (times feeCollateral' collateralPrice))
  else ret paidFeeUsd.

Definition computeClosePosition (assets : list Asset) (subAccountId : string)
    (subAccount : ref) (profitAssetId : number) (prices : PriceDict)
    (amount brokerGasFee : BigNumber) : M World ClosePositionResult.t :=
  let* cp :=
    computeClosePosition_context assets subAccountId subAccount profitAssetId prices
      amount brokerGasFee in
  let c := fst cp in
  let* realized := computeClosePosition_realize assets c (snd cp) amount in
  let* paidFeeUsd :=
    computeClosePosition_fees (Context.working c) (Context.collateralPrice c) brokerGasFee
      (Realized.totalFeeUsd realized) (Realized.paidFeeUsd realized) in
  (* post check *)
  let* afterTrade :=
    computeSubAccount assets subAccountId (Context.working c) (Context.collateralPrice c)
      (Context.assetPrice c) in
  ret {| ClosePositionResult.afterTrade := afterTrade;
         ClosePositionResult.isTradeSafe :=
           SubAccountComputed.isMarginSafe (SubAccountDetails.computed afterTrade);
         ClosePositionResult.feeUsd := paidFeeUsd;
         ClosePositionResult.profitAssetTransferred := Realized.profitAssetTransferred realized;
         ClosePositionResult.bitoroTokenTransferred :=
           Realized.bitoroTokenTransferred realized |}.

(** [computeWithdrawCollateral], "context" and "protection": lines
    421-430. *)
Definition computeWithdrawCollateral_context (assets : list Asset) (subAccountId : string)
    (subAccount : ref) (prices : PriceDict) (amount : BigNumber) : M World Context :=
  let* subAccount := cloneSubAccount subAccount in
  let* sid := liftE (decodeSubAccountId subAccountId) in
  let* price := liftE (computeTradingPrice assets subAccountId prices false) in
  if lte amount _0 then throw (InvalidArgumentError (InvalidAmount amount))
  else
    let* asset := liftE (prop (assets !! SubAccountId.assetId sid) id) in
    let* collateralAsset := liftE (prop (assets !! SubAccountId.collateralId sid) id) in
    if negb (Asset.isEnabled asset) || negb (Asset.isEnabled collateralAsset) then
      throw (InvalidArgumentError NotTradable)
    else
      ret {| Context.working := subAccount;
             Context.collateralId := SubAccountId.collateralId sid;
             Context.assetId := SubAccountId.assetId sid;
             Context.isLong := SubAccountId.isLong sid;
             Context.collateralPrice := TradingPrice.collateralPrice price;
             Context.assetPrice := TradingPrice.assetPrice price |}.

Definition computeWithdrawCollateral (assets : list Asset) (subAccountId : string)
    (subAccount : ref) (prices : PriceDict) (amount : BigNumber)
    : M World WithdrawCollateralResult.t :=
  let* c := computeWithdrawCollateral_context assets subAccountId subAccount prices amount in
  let subAccount := Context.working c in
  (* fee & funding *)
  let* account := deref subAccount in
  let* totalFeeUsd :=
    liftE (computeFundingFeeUsd account (assets !! Context.assetId c) (Context.isLong c)
             (Context.assetPrice c)) in
  let* _ :=
    (if gt (SubAccount.size account) _0 then
       _updateEntryFunding subAccount (assets !! Context.assetId c) (Context.isLong c)
     else ret tt) in
  let feeCollateral := div totalFeeUsd (Context.collateralPrice c) in
  let* account := deref subAccount in
  let* _ := assign subAccount
              (SubAccount.with_collateral
                 (minus (SubAccount.collateral account) feeCollateral)) in
  (* withdraw *)
  let* account := deref subAccount in
  let* _ := assign subAccount
              (SubAccount.with_collateral (minus (SubAccount.collateral account) amount)) in
  (* post check *)
  let* afterTrade :=
    computeSubAccount assets subAccountId subAccount (Context.collateralPrice c)
      (Context.assetPrice c) in
  ret {| WithdrawCollateralResult.afterTrade := afterTrade;
         WithdrawCollateralResult.isTradeSafe :=
           SubAccountComputed.isIMSafe (SubAccountDetails.computed afterTrade);
         WithdrawCollateralResult.feeUsd := totalFeeUsd |}.

(** [computeWithdrawProfit], "context" and "protection": lines
    458-492. *)
Definition computeWithdrawProfit_context (assets : list Asset) (subAccountId : string)
    (subAccount : ref) (profitAssetId : number) (prices : PriceDict) (amount : BigNumber)
    : M World (Context * ProfitAsset) :=
  let* subAccount := cloneSubAccount subAccount in
  let* sid := liftE (decodeSubAccountId subAccountId) in
  let* price := liftE (computeTradingPrice assets subAccountId prices false) in
  let* profit :=
    liftE (resolveProfitAsset assets prices (SubAccountId.assetId sid)
             (SubAccountId.isLong sid) (TradingPrice.assetPrice price) profitAssetId) in
  if lte amount _0 then throw (InvalidArgumentError (InvalidAmount amount))
  else
    let* asset := liftE (prop (assets !! SubAccountId.assetId sid) id) in
    let* collateralAsset := liftE (prop (assets !! SubAccountId.collateralId sid) id) in
    if notTradable asset collateralAsset (SubAccountId.isLong sid) false then
      throw (InvalidArgumentError NotTradable)
    else
      let* account := deref subAccount in
      if eq (SubAccount.size account) _0 then throw (InvalidArgumentError EmptyPosition)
      else
        ret ({| Context.working := subAccount;
                Context.collateralId := SubAccountId.collateralId sid;
                Context.assetId := SubAccountId.assetId sid;
                Context.isLong := SubAccountId.isLong sid;
                Context.collateralPrice := TradingPrice.collateralPrice price;
                Context.assetPrice := TradingPrice.assetPrice price |}, profit).

Definition computeWithdrawProfit (assets : list Asset) (subAccountId : string)
    (subAccount : ref) (profitAssetId : number) (prices : PriceDict) (amount : BigNumber)
    : M World WithdrawProfitResult.t :=
  let* cp :=
    computeWithdrawProfit_context assets subAccountId subAccount profitAssetId prices amount in
  let c := fst cp in
  let profit := snd cp in
  let subAccount := Context.working c in
  (* fee & funding *)
  let* account := deref subAccount in
  let* totalFeeUsd :=
    liftE (computeFundingFeeUsd account (assets !! Context.assetId c) (Context.isLong c)
             (Context.assetPrice c)) in
  let* _ := _updateEntryFunding subAccount (assets !! Context.assetId c) (Context.isLong c) in
  (* withdraw *)
  let deltaUsd := plus (times amount (ProfitAsset.profitAssetPrice profit)) totalFeeUsd in
  (* profit *)
  let* account := deref subAccount in
  let* pnl :=
    liftC (computePositionPnlUsd (assets !! Context.assetId c) account (Context.isLong c)
             (SubAccount.size account) (Context.assetPrice c)) in
  let pnlUsd := Pnl.pnlUsd pnl in
  if lt pnlUsd deltaUsd then throw (JsError "insufficient pnl")
  else
    let* realized :=
      liftE (computeRealizeProfit pnlUsd totalFeeUsd
               (JsNumber.item assets (ProfitAsset.profitAssetId profit))
               (ProfitAsset.profitAssetPrice profit)) in
    (* new entry price *)
    let* account := deref subAccount in
    let* _ :=
      (if Context.isLong c then
         assign subAccount
           (SubAccount.with_entryPrice
              (plus (SubAccount.entryPrice account) (div deltaUsd (SubAccount.size account))))
       else
         assign subAccount
           (SubAccount.with_entryPrice
              (minus (SubAccount.entryPrice account)
                     (div deltaUsd (SubAccount.size account))))) in
    (* post check *)
    let* afterTrade :=
      computeSubAccount assets subAccountId subAccount (Context.collateralPrice c)
      (Context.assetPrice c) in
    ret {| WithdrawProfitResult.afterTrade := afterTrade;
           WithdrawProfitResult.isTradeSafe :=
             SubAccountComputed.isIMSafe (SubAccountDetails.computed afterTrade);
           WithdrawProfitResult.feeUsd := totalFeeUsd;
           WithdrawProfitResult.profitAssetTransferred :=
             RealizeProfit.profitAssetTransferred realized;
           WithdrawProfitResult.bitoroTokenTransferred :=
             RealizeProfit.bitoroTokenTransferred realized |}.

Definition computeLiquidityFeeRate (poolConfig : LiquidityPool)
    (currentAssetValue targetAssetValue : BigNumber) (isAdd : bool) (deltaValue : BigNumber)
    : Result BigNumber :=
  let baseFeeRate := LiquidityPool.liquidityBaseFeeRate poolConfig in
  let dynamicFeeRate := LiquidityPool.liquidityDynamicFeeRate poolConfig in
  let+ newAssetValue :=
    (if isAdd then inr (plus currentAssetValue deltaValue)
     else if lt currentAssetValue deltaValue then
       inl (InsufficientLiquidityError BitoroRemoveLiquidityExceedsCurrentAsset
              deltaValue currentAssetValue)
     else inr (minus currentAssetValue deltaValue)) in
  (* | x - target | *)
  let oldDiff := abs (minus currentAssetValue targetAssetValue) in
  let newDiff := abs (minus newAssetValue targetAssetValue) in
  if eq targetAssetValue _0 then
    (* avoid division by 0 *)
    inr baseFeeRate
  else if lt newDiff oldDiff then
    (* improves *)
    let rebate :=
      BigNumber.dp 5 BigNumber.ROUND_DOWN
        (div (times dynamicFeeRate oldDiff) targetAssetValue) in
    inr (BigNumber.maximum _0 (minus baseFeeRate rebate))
  else
    (* worsen *)
    let avgDiff := div (plus oldDiff newDiff) (Finite 2) in
    let avgDiff := BigNumber.minimum avgDiff targetAssetValue in
    let dynamic :=
      BigNumber.dp 5 BigNumber.ROUND_DOWN
        (div (times dynamicFeeRate avgDiff) targetAssetValue) in
    inr (plus baseFeeRate dynamic).

Definition computeSingleFundingRate8H (baseRate8H limitRate8H utilization : BigNumber)
    : Result BigNumber :=
  if gt utilization _1 then inl (InvalidArgumentError UtilizationAbove100)
  else
    let fundingRate8H := times utilization limitRate8H in
    let fundingRate8H := BigNumber.maximum fundingRate8H baseRate8H in
    inr fundingRate8H.

Definition computeFundingRate8H (pool : LiquidityPool) (asset : Asset)
    (stableUtilization unstableUtilization : BigNumber) : Result FundingRate8H.t :=
  let+ shortFundingRate8H :=
    computeSingleFundingRate8H (LiquidityPool.shortFundingBaseRate8H pool)
      (LiquidityPool.shortFundingLimitRate8H pool) stableUtilization in
  let+ longFundingRate8H :=
    computeSingleFundingRate8H (Asset.longFundingBaseRate8H asset)
      (Asset.longFundingLimitRate8H asset) unstableUtilization in
  inr {| FundingRate8H.longFundingRate8H := longFundingRate8H;
         FundingRate8H.shortFundingRate8H := shortFundingRate8H |}.

End Computations.

(** ** A market to run the functions on *)

(** A decoder for the identifiers of the examples. *)
Definition exampleDecode (subAccountId : string) : Result SubAccountId.t :=
  if String.eqb subAccountId "USDC-ETH-long" then
    inr {| SubAccountId.collateralId := 0; SubAccountId.assetId := 1;
           SubAccountId.isLong := true |}
  else if String.eqb subAccountId "USDC-ETH-short" then
    inr {| SubAccountId.collateralId := 0; SubAccountId.assetId := 1;
           SubAccountId.isLong := false |}
  else inl (JsError "invalid subAccountId").

Definition USDC : Asset :=
  {| Asset.symbol := "USDC"; Asset.isStable := true; Asset.isTradable := false;
     Asset.isOpenable := false; Asset.isShortable := false; Asset.isEnabled := true;
     Asset.useStableTokenForProfit := false;
     Asset.initialMarginRate := _0; Asset.maintenanceMarginRate := _0;
     Asset.positionFeeRate := _0; Asset.minProfitTime := 0; Asset.minProfitRate := _0;
     Asset.halfSpread := _0; Asset.longCumulativeFundingRate := _0;
     Asset.shortCumulativeFunding := _0; Asset.longFundingBaseRate8H := _0;
     Asset.longFundingLimitRate8H := _0; Asset.spotLiquidity := Finite 1000 |}.

Definition ETH : Asset :=
  {| Asset.symbol := "ETH"; Asset.isStable := false; Asset.isTradable := true;
     Asset.isOpenable := true; Asset.isShortable := true; Asset.isEnabled := true;
     Asset.useStableTokenForProfit := false;
     Asset.initialMarginRate := Finite (1 # 10);
     Asset.maintenanceMarginRate := Finite (5 # 100);
     Asset.positionFeeRate := Finite (1 # 1000);
     Asset.minProfitTime := 60; Asset.minProfitRate := Finite (1 # 100);
     Asset.halfSpread := _0; Asset.longCumulativeFundingRate := _0;
     Asset.shortCumulativeFunding := _0; Asset.longFundingBaseRate8H := _0;
     Asset.longFundingLimitRate8H := _0; Asset.spotLiquidity := Finite 1000 |}.

Definition exampleAssets : list Asset := [USDC; ETH].

(** USDC at 1 and ETH at [ethPrice]. *)
Definition examplePrices (ethPrice : Q) : PriceDict :=
  <["USDC" := Finite 1]> (<["ETH" := Finite ethPrice]> ∅).

(** 10 ETH entered at 100 on 100 USDC of collateral, at second 1000. *)
Definition exampleAccount : SubAccount :=
  {| SubAccount.collateral := Finite 100; SubAccount.size := Finite 10;
     SubAccount.entryPrice := Finite 100; SubAccount.entryFunding := _0;
     SubAccount.lastIncreasedTime := 1000 |}.

(** One object, and a clock that stands at [now] milliseconds. *)
Definition exampleWorld (now : Z) : World :=
  {| heap := [exampleAccount]; clk := {| readings := fun _ => now; reads := 0 |} |}.

(** A pool with a base fee rate of 0.0002 and a dynamic one of 0.01. *)
Definition examplePool : LiquidityPool :=
  {| LiquidityPool.liquidityBaseFeeRate := Finite (2 # 10000);
     LiquidityPool.liquidityDynamicFeeRate := Finite (1 # 100);
     LiquidityPool.shortFundingBaseRate8H := _0;
     LiquidityPool.shortFundingLimitRate8H := _0 |}.

(** A clock that shows second 1010 at its first reading and second 5000
    from then on. *)
Definition tickingWorld : World :=
  {| heap := [exampleAccount];
     clk := {| readings := fun n => match n with O => 1010000 | _ => 5000000 end;
               reads := 0 |} |}.

(** The context of a close or a withdrawal on the long example position
    with ETH at [ethPrice]. *)
Definition exampleContext (ethPrice : Q) : Context :=
  {| Context.working := 1; Context.collateralId := 0; Context.assetId := 1;
     Context.isLong := true; Context.collateralPrice := Finite 1;
     Context.assetPrice := Finite ethPrice |}.

Definition exampleProfit (ethPrice : Q) : ProfitAsset :=
  {| ProfitAsset.profitAssetId := 1%nat; ProfitAsset.profitAssetPrice := Finite ethPrice |}.

Definition clonedWorld (now : Z) : World :=
  {| heap := [exampleAccount; exampleAccount]; clk := clk (exampleWorld now) |}.

(** ETH quoted with a half spread of 1%. *)
Definition quotedETH : Asset :=
  {| Asset.symbol := "ETH"; Asset.isStable := false; Asset.isTradable := true;
     Asset.isOpenable := true; Asset.isShortable := true; Asset.isEnabled := true;
     Asset.useStableTokenForProfit := false;
     Asset.initialMarginRate := Finite (1 # 10);
     Asset.maintenanceMarginRate := Finite (5 # 100);
     Asset.positionFeeRate := Finite (1 # 1000);
     Asset.minProfitTime := 60; Asset.minProfitRate := Finite (1 # 100);
     Asset.halfSpread := Finite (1 # 100); Asset.longCumulativeFundingRate := _0;
     Asset.shortCumulativeFunding := _0; Asset.longFundingBaseRate8H := _0;
     Asset.longFundingLimitRate8H := _0; Asset.spotLiquidity := Finite 1000 |}.

Definition quotedAssets : list Asset := [USDC; quotedETH].

(** ** Vocabulary of the properties *)

(** [frame l m]: running [m] changes no object but the one behind [l],
    whether [m] returns or throws. *)
Definition frame {A} (l : ref) (m : M World A) : Prop :=
  forall (w : World) (l' : ref), l' <> l -> heap (fst (m w)) !! l' = heap w !! l'.

(** [yields P m]: what [m] returns, when it returns, satisfies [P]. *)
Definition yields {S A} (P : A -> Prop) (m : M S A) : Prop :=
  forall (s : S) (a : A), snd (m s) = inr a -> P a.

(** [fresh_working wk m]: [m] leaves the objects of the caller as they
    are, and the reference it hands on, [wk c], is to a new object. *)
Definition fresh_working {A} (wk : A -> ref) (m : M World A) : Prop :=
  forall w : World,
    (forall l, (l < length (heap w))%nat -> heap (fst (m w)) !! l = heap w !! l) /\
    (forall c, snd (m w) = inr c -> (length (heap w) <= wk c)%nat).

(** The context a simulation builds from a decoded identifier and the
    trading prices. *)
Definition contextOf (working : ref) (sid : SubAccountId.t) (price : TradingPrice.t)
    : Context :=
  {| Context.working := working;
     Context.collateralId := SubAccountId.collateralId sid;
     Context.assetId := SubAccountId.assetId sid;
     Context.isLong := SubAccountId.isLong sid;
     Context.collateralPrice := TradingPrice.collateralPrice price;
     Context.assetPrice := TradingPrice.assetPrice price |}.

(** The account after lines 381-386 of [computeClosePosition]: the size
    reduced by [amount], and the entry data reset when nothing is left. *)
Definition reduceSize (amount : BigNumber) (account : SubAccount) : SubAccount :=
  let account := SubAccount.with_size (minus (SubAccount.size account) amount) account in
  if eq (SubAccount.size account) _0 then
    SubAccount.with_lastIncreasedTime 0
      (SubAccount.with_entryFunding _0 (SubAccount.with_entryPrice _0 account))
  else account.

(** "when [size == 0], [entryPrice == 0], [entryFunding] reset,
    [lastIncreasedTime == 0]" *)
Definition flat_invariant (account : SubAccount) : Prop :=
  eq (SubAccount.size account) _0 = true ->
  eq (SubAccount.entryPrice account) _0 = true
  /\ eq (SubAccount.entryFunding account) _0 = true
  /\ SubAccount.lastIncreasedTime account = 0.

(** The spread side [computeTradingPrice] picks. *)
Definition tradingSpreadType (isOpenPosition isLong : bool) : SpreadType :=
  if isOpenPosition then (if isLong then Ask else Bid)
  else (if isLong then Bid else Ask).

(** * Properties *)

(** ** JavaScript numbers: the indices that are natural numbers *)

Module JsNumberFacts.

Lemma index_of_nat (n : nat) : JsNumber.index (JsNumber.of_nat n) = Some n.
Proof.
  unfold JsNumber.index, JsNumber.of_nat, inject_Z. simpl Qnum. simpl Qden.
  replace (0 <=? Z.of_nat n) with true by (symmetry; apply Z.leb_le; lia).
  rewrite Z.mod_1_r, Z.div_1_r, Nat2Z.id. reflexivity.
Qed.

Lemma item_of_nat {A : Type} (l : list A) (n : nat) :
  JsNumber.item l (JsNumber.of_nat n) = l !! n.
Proof. unfold JsNumber.item. rewrite index_of_nat. reflexivity. Qed.

Lemma gte_of_nat (n m : nat) : JsNumber.gte (JsNumber.of_nat n) m = (m <=? n)%nat.
Proof.
  unfold JsNumber.gte, JsNumber.of_nat, Qle_bool, inject_Z. simpl.
  rewrite !Z.mul_1_r.
  destruct (m <=? n)%nat eqn:H.
  - apply Nat.leb_le in H. apply Z.leb_le. lia.
  - apply Nat.leb_gt in H. apply Z.leb_gt. lia.
Qed.







End JsNumberFacts.

(** ** The monad *)

Lemma bind_ret {S A B} (a : A) (k : A -> M S B) (s : S) : bind (ret a) k s = k a s.
Proof. reflexivity. Qed.

Lemma bind_liftE {S A B} (r : Result A) (k : A -> M S B) (s : S) :
  bind (liftE r) k s = match r with inr a => k a s | inl e => (s, inl e) end.
Proof. unfold bind, liftE. destruct r; reflexivity. Qed.

Lemma bind_assoc {S A B C} (m : M S A) (k : A -> M S B) (k' : B -> M S C) (s : S) :
  bind (bind m k) k' s = bind m (fun a => bind (k a) k') s.
Proof. unfold bind. destruct (m s) as [s1 [e|a]]; reflexivity. Qed.

(** A computation that succeeds was built from computations that
    succeed. *)
Lemma bind_inr {S A B} (m : M S A) (k : A -> M S B) (s s' : S) (b : B) :
  bind m k s = (s', inr b) ->
  exists s1 a, m s = (s1, inr a) /\ k a s1 = (s', inr b).
Proof.
  unfold bind. destruct (m s) as [s1 [e|a]]; intros H.
  - discriminate.
  - exists s1, a. split; [reflexivity | exact H].
Qed.

(** ** Frame: what a simulation writes *)

Create HintDb frame.

Lemma frame_ret {A} l (a : A) : frame l (ret a).
Proof. intros w l' _. reflexivity. Qed.

Lemma frame_throw {A} l e : frame l (@throw World A e).
Proof. intros w l' _. reflexivity. Qed.

Lemma frame_liftE {A} l (r : Result A) : frame l (liftE r).
Proof. intros w l' _. reflexivity. Qed.

Lemma frame_liftC {A} l (m : M Clock A) : frame l (liftC m).
Proof. intros w l' _. unfold liftC. destruct (m (clk w)). reflexivity. Qed.

Lemma frame_deref l l0 : frame l (deref l0).
Proof. intros w l' _. unfold deref. destruct (heap w !! l0); reflexivity. Qed.

Lemma frame_assign l upd : frame l (assign l upd).
Proof.
  intros w l' Hne. unfold assign. destruct (heap w !! l) as [a|]; simpl.
  - apply list_lookup_insert_ne. congruence.
  - reflexivity.
Qed.

Lemma frame_bind {A B} l (m : M World A) (k : A -> M World B) :
  frame l m -> (forall a, frame l (k a)) -> frame l (bind m k).
Proof.
  intros Hm Hk w l' Hne. unfold bind.
  specialize (Hm w l' Hne). destruct (m w) as [w1 [e|a]]; simpl in *.
  - exact Hm.
  - rewrite <- Hm. apply Hk. exact Hne.
Qed.

Lemma frame_if {A} l (b : bool) (m1 m2 : M World A) :
  frame l m1 -> frame l m2 -> frame l (if b then m1 else m2).
Proof. destruct b; auto. Qed.

#[local] Hint Resolve frame_ret frame_throw frame_liftE frame_liftC frame_deref
  frame_assign frame_if : frame.

Ltac frame_step :=
  lazymatch goal with
  | |- frame _ (bind _ _) => apply frame_bind; [ | intros ? ]
  | |- frame _ (if _ then _ else _) => apply frame_if
  | |- frame _ (let _ := _ in _) => cbv zeta
  | |- frame _ _ => solve [ auto with frame ]
  end.

Ltac frame_auto := repeat frame_step.

Section Frame.

Variable decodeSubAccountId : string -> Result SubAccountId.t.

Lemma frame_updateEntryFunding l asset isLong :
  frame l (_updateEntryFunding l asset isLong).
Proof. unfold _updateEntryFunding. frame_auto. Qed.

Lemma frame_computeRealizeLoss l collateralPrice lossUsd isThrowBankrupt :
  frame l (computeRealizeLoss l collateralPrice lossUsd isThrowBankrupt).
Proof. unfold computeRealizeLoss. frame_auto. Qed.

Lemma frame_computeSubAccount l assets subAccountId l0 collateralPrice assetPrice :
  frame l (computeSubAccount decodeSubAccountId assets subAccountId l0
             collateralPrice assetPrice).
Proof. unfold computeSubAccount. frame_auto. Qed.

Lemma frame_computeClosePosition_realize assets c profit amount :
  frame (Context.working c) (computeClosePosition_realize assets c profit amount).
Proof.
  unfold computeClosePosition_realize.
  pose proof frame_updateEntryFunding. pose proof frame_computeRealizeLoss.
  frame_auto.
Qed.

Lemma frame_computeClosePosition_fees l collateralPrice brokerGasFee totalFeeUsd paidFeeUsd :
  frame l (computeClosePosition_fees l collateralPrice brokerGasFee totalFeeUsd paidFeeUsd).
Proof. unfold computeClosePosition_fees. frame_auto. Qed.

End Frame.

#[local] Hint Resolve frame_updateEntryFunding frame_computeRealizeLoss
  frame_computeSubAccount frame_computeClosePosition_realize
  frame_computeClosePosition_fees : frame.

Lemma yields_ret {S A} (P : A -> Prop) (a : A) : P a -> yields P (@ret S A a).
Proof. intros HP s a' H. simpl in H. congruence. Qed.

Lemma yields_throw {S A} (P : A -> Prop) e : yields P (@throw S A e).
Proof. intros s a H. discriminate H. Qed.

Lemma yields_bind {S A B} (P : B -> Prop) (m : M S A) (k : A -> M S B) :
  (forall a, yields P (k a)) -> yields P (bind m k).
Proof.
  intros Hk s b. unfold bind. destruct (m s) as [s1 [e|a]]; simpl.
  - discriminate.
  - apply Hk.
Qed.

Lemma yields_if {S A} (P : A -> Prop) (b : bool) (m1 m2 : M S A) :
  yields P m1 -> yields P m2 -> yields P (if b then m1 else m2).
Proof. destruct b; auto. Qed.

Ltac yields_auto :=
  repeat lazymatch goal with
         | |- yields _ (bind _ _) => apply yields_bind; intros ?
         | |- yields _ (if _ then _ else _) => apply yields_if
         | |- yields _ (throw _) => apply yields_throw
         | |- yields _ (ret _) => apply yields_ret; reflexivity
         end.

Lemma fresh_working_clone {A} (wk : A -> ref) (l : ref) (k : ref -> M World A) :
  (forall l', frame l' (k l')) ->
  (forall l', yields (fun c => wk c = l') (k l')) ->
  fresh_working wk (bind (cloneSubAccount l) k).
Proof.
  intros Hframe Hyields w. unfold bind, cloneSubAccount.
  destruct (heap w !! l) as [a|] eqn:Hl.
  - set (w1 := {| heap := heap w ++ [a]; clk := clk w |}).
    split.
    + intros l0 Hlt. etransitivity; [apply Hframe; lia |].
      simpl. apply lookup_app_l. exact Hlt.
    + intros c Hc. apply Hyields in Hc. lia.
  - simpl. split; [reflexivity | discriminate].
Qed.

(** A simulation is its context followed by a body that writes to the
    working copy alone: the caller's objects are out of its reach. *)
Lemma simulation_frame {A B} (wk : A -> ref) (ctx : M World A) (body : A -> M World B) :
  fresh_working wk ctx ->
  (forall c, frame (wk c) (body c)) ->
  forall (w : World) (l : ref) (a : SubAccount),
    heap w !! l = Some a -> heap (fst (bind ctx body w)) !! l = Some a.
Proof.
  intros Hctx Hbody w l a Hl.
  assert (Hlt : (l < length (heap w))%nat) by (eapply lookup_lt_Some; exact Hl).
  destruct (Hctx w) as [Hold Hnew]. unfold bind.
  destruct (ctx w) as [w1 [e|c]] eqn:Hrun; simpl in *.
  - rewrite Hold by exact Hlt. exact Hl.
  - etransitivity; [apply Hbody; specialize (Hnew c eq_refl); lia |].
    rewrite Hold by exact Hlt. exact Hl.
Qed.

Section CloneIsolation.

Variable decodeSubAccountId : string -> Result SubAccountId.t.

Lemma fresh_computeOpenPosition_context assets subAccountId subAccount prices amount gas :
  fresh_working Context.working
    (computeOpenPosition_context decodeSubAccountId assets subAccountId subAccount
       prices amount gas).
Proof.
  unfold computeOpenPosition_context. apply fresh_working_clone; intros l'.
  - frame_auto.
  - yields_auto.
Qed.

Lemma fresh_computeClosePosition_context assets subAccountId subAccount profitAssetId
    prices amount gas :
  fresh_working (fun cp => Context.working (fst cp))
    (computeClosePosition_context decodeSubAccountId assets subAccountId subAccount
       profitAssetId prices amount gas).
Proof.
  unfold computeClosePosition_context. apply fresh_working_clone; intros l'.
  - frame_auto.
  - yields_auto.
Qed.

Lemma fresh_computeWithdrawCollateral_context assets subAccountId subAccount prices amount :
  fresh_working Context.working
    (computeWithdrawCollateral_context decodeSubAccountId assets subAccountId subAccount
       prices amount).
Proof.
  unfold computeWithdrawCollateral_context. apply fresh_working_clone; intros l'.
  - frame_auto.
  - yields_auto.
Qed.

Lemma fresh_computeWithdrawProfit_context assets subAccountId subAccount profitAssetId
    prices amount :
  fresh_working (fun cp => Context.working (fst cp))
    (computeWithdrawProfit_context decodeSubAccountId assets subAccountId subAccount
       profitAssetId prices amount).
Proof.
  unfold computeWithdrawProfit_context. apply fresh_working_clone; intros l'.
  - frame_auto.
  - yields_auto.
Qed.

(** C2. The four simulation functions leave the caller's SubAccount
    object as it was: whatever the arguments, and whether the call
    returns or throws, the object behind the reference passed in has
    the same fields after the call as before. *)
Theorem simulations_never_mutate_input :
  forall (assets : list Asset) (subAccountId : string) (subAccount : ref)
         (profitAssetId : number) (prices : PriceDict) (amount brokerGasFee : BigNumber)
         (w : World) (original : SubAccount),
    heap w !! subAccount = Some original ->
    heap (fst (computeOpenPosition decodeSubAccountId assets subAccountId subAccount
                 prices amount brokerGasFee w)) !! subAccount = Some original
    /\ heap (fst (computeClosePosition decodeSubAccountId assets subAccountId subAccount
                    profitAssetId prices amount brokerGasFee w)) !! subAccount
       = Some original
    /\ heap (fst (computeWithdrawCollateral decodeSubAccountId assets subAccountId
                    subAccount prices amount w)) !! subAccount = Some original
    /\ heap (fst (computeWithdrawProfit decodeSubAccountId assets subAccountId subAccount
                    profitAssetId prices amount w)) !! subAccount = Some original.
Proof.
  intros assets subAccountId subAccount profitAssetId prices amount gas w original Hl.
  repeat split.
  - unfold computeOpenPosition.
    eapply (simulation_frame Context.working);
      [apply fresh_computeOpenPosition_context | | exact Hl].
    intros c. frame_auto.
  - unfold computeClosePosition.
    eapply (simulation_frame (fun cp => Context.working (fst cp)));
      [apply fresh_computeClosePosition_context | | exact Hl].
    intros c. frame_auto.
  - unfold computeWithdrawCollateral.
    eapply (simulation_frame Context.working);
      [apply fresh_computeWithdrawCollateral_context | | exact Hl].
    intros c. frame_auto.
  - unfold computeWithdrawProfit.
    eapply (simulation_frame (fun cp => Context.working (fst cp)));
      [apply fresh_computeWithdrawProfit_context | | exact Hl].
    intros c. frame_auto.
Qed.

End CloneIsolation.

(** ** bignumber.js: comparisons of finite values *)

Module BigNumberFacts.

Import BigNumber.

Lemma lt_Finite p q : lt (Finite p) (Finite q) = true <-> (p < q)%Q.
Proof.
  unfold lt, comparedTo. rewrite Qlt_alt.
  destruct (p ?= q)%Q; split; intros H; congruence.
Qed.

Lemma lt_Finite_false p q : lt (Finite p) (Finite q) = false <-> (q <= p)%Q.
Proof.
  unfold lt, comparedTo.
  destruct (Qcompare_spec p q) as [H|H|H]; split; intros H'; try congruence;
    try lra.
Qed.

Lemma gt_Finite p q : gt (Finite p) (Finite q) = true <-> (q < p)%Q.
Proof.
  unfold gt, comparedTo.
  destruct (Qcompare_spec p q) as [H|H|H]; split; intros H'; try congruence;
    try lra.
Qed.

Lemma gte_Finite p q : gte (Finite p) (Finite q) = true <-> (q <= p)%Q.
Proof.
  unfold gte, comparedTo.
  destruct (Qcompare_spec p q) as [H|H|H]; split; intros H'; try congruence;
    try lra.
Qed.

Lemma lte_Finite p q : lte (Finite p) (Finite q) = true <-> (p <= q)%Q.
Proof.
  unfold lte, comparedTo.
  destruct (Qcompare_spec p q) as [H|H|H]; split; intros H'; try congruence;
    try lra.
Qed.

Lemma lte_Finite_false p q : lte (Finite p) (Finite q) = false <-> (q < p)%Q.
Proof.
  unfold lte, comparedTo.
  destruct (Qcompare_spec p q) as [H|H|H]; split; intros H'; try congruence;
    try lra.
Qed.

Lemma eq_Finite p q : eq (Finite p) (Finite q) = true <-> (p == q)%Q.
Proof.
  unfold eq, comparedTo.
  destruct (Qcompare_spec p q) as [H|H|H]; split; intros H'; try congruence;
    try lra.
Qed.

Lemma eq_Finite_false p q : eq (Finite p) (Finite q) = false <-> ~ (p == q)%Q.
Proof.
  unfold eq, comparedTo.
  destruct (Qcompare_spec p q) as [H|H|H]; split; intros H'; try congruence;
    try lra; try (exfalso; lra).
Qed.

(** A finite value minus itself is the constant [_0]. *)
Lemma minus_diag q : minus (Finite q) (Finite q) = _0.
Proof.
  unfold minus, _0. f_equal.
  change 0%Q with (Qred 0). apply Qred_complete. lra.
Qed.

(** [ROUND_DOWN] on a value that is not negative: the result is the
    multiple of [10 ^ - places] just below it. *)
Lemma round_down_bounds (places : Z) (q : Q) :
  0 <= places -> (0 <= q)%Q ->
  (round places ROUND_DOWN q <= q)%Q
  /\ (q < round places ROUND_DOWN q + (1 # Z.to_pos (10 ^ places)))%Q.
Proof.
  intros Hplaces Hq. unfold round. rewrite Qred_correct.
  destruct q as [n d]. unfold Qle in Hq. simpl in Hq. simpl Qnum. simpl Qden.
  assert (Hn : 0 <= n) by lia.
  assert (Hscale : 0 < 10 ^ places) by (apply Z.pow_pos_nonneg; lia).
  set (N := n * 10 ^ places).
  assert (HN : 0 <= N) by (subst N; nia).
  rewrite (Z.abs_eq N) by exact HN.
  pose proof (Z.div_mod N (Zpos d) ltac:(lia)) as Hdiv.
  pose proof (Z.mod_pos_bound N (Zpos d) ltac:(lia)) as Hmod.
  assert (Hquot : 0 <= N / Zpos d) by (apply Z.div_pos; lia).
  assert (Hsgn : Z.sgn N * (N / Zpos d) = N / Zpos d).
  { destruct (Z.eq_dec N 0) as [Hzero | Hne].
    - rewrite Hzero. reflexivity.
    - rewrite Z.sgn_pos by lia. lia. }
  rewrite Hsgn.
  unfold Qle, Qlt, Qplus. simpl Qnum. simpl Qden.
  rewrite ?Pos2Z.inj_mul, ?Z2Pos.id by lia.
  fold N. split; nia.
Qed.

End BigNumberFacts.

(** ** Running a computation on a known object *)

Lemma bind_deref {B} (l : ref) (k : SubAccount -> M World B) (w : World) (a : SubAccount) :
  heap w !! l = Some a -> bind (deref l) k w = k a w.
Proof. intros H. unfold bind, deref. rewrite H. reflexivity. Qed.

Lemma bind_assign {B} (l : ref) (upd : SubAccount -> SubAccount) (k : unit -> M World B)
    (w : World) (a : SubAccount) :
  heap w !! l = Some a ->
  bind (assign l upd) k w = k tt {| heap := <[l := upd a]> (heap w); clk := clk w |}.
Proof. intros H. unfold bind, assign. rewrite H. reflexivity. Qed.

Lemma with_collateral_same (a : SubAccount) :
  SubAccount.with_collateral (SubAccount.collateral a) a = a.
Proof. destruct a. reflexivity. Qed.

Lemma world_eta (w : World) : {| heap := heap w; clk := clk w |} = w.
Proof. destruct w. reflexivity. Qed.

Section FeeShortfall.

Import BigNumberFacts.

(** The block "ignore fees if can not afford" on an account whose
    collateral is not negative: what it leaves as collateral and what it
    adds to the paid fee. *)
Lemma computeClosePosition_fees_settles :
  forall (subAccount : ref)
         (collateralPrice brokerGasFee totalFeeUsd paidFeeUsd : BigNumber)
         (w : World) (account : SubAccount),
    heap w !! subAccount = Some account ->
    gte (SubAccount.collateral account) _0 = true ->
    let collateral := SubAccount.collateral account in
    let feeCollateral := div (minus totalFeeUsd paidFeeUsd) collateralPrice in
    let feeAndGasCollateral := plus feeCollateral brokerGasFee in
    exists collateral' paidFeeUsd' : BigNumber,
      computeClosePosition_fees subAccount collateralPrice brokerGasFee
        totalFeeUsd paidFeeUsd w
      = ({| heap := <[subAccount := SubAccount.with_collateral collateral' account]> (heap w);
            clk := clk w |}, inr paidFeeUsd')
      /\ lt collateral' _0 = false
      /\ (BigNumber.isFinite feeAndGasCollateral = true -> gte collateral' _0 = true)
      /\ (gt brokerGasFee _0 || gt totalFeeUsd paidFeeUsd = true ->
          (lt collateral feeAndGasCollateral = false ->
             collateral' = minus collateral feeAndGasCollateral
             /\ paidFeeUsd' = plus paidFeeUsd (times feeCollateral collateralPrice))
          /\ (lt collateral feeAndGasCollateral = true ->
                collateral' = _0
                /\ paidFeeUsd'
                   = plus paidFeeUsd
                       (times (if lt collateral brokerGasFee then _0
                               else minus collateral brokerGasFee) collateralPrice)))
      /\ (gt brokerGasFee _0 || gt totalFeeUsd paidFeeUsd = false ->
          collateral' = collateral /\ paidFeeUsd' = paidFeeUsd).
Proof.
  intros l cp gas total paid w account Hl Hnonneg collateral feeCollateral feeAndGas.
  unfold computeClosePosition_fees.
  destruct (gt gas _0 || gt total paid) eqn:Henter.
  - fold feeCollateral. fold feeAndGas.
    rewrite (bind_deref _ _ _ _ Hl). cbv beta zeta.
    rewrite (bind_assign _ _ _ _ _ Hl). unfold ret.
    fold collateral.
    destruct (lt collateral feeAndGas) eqn:Hclamp.
    + (* the collateral does not cover fee and gas *)
      assert (Hzero : minus collateral collateral = _0).
      { subst collateral. destruct (SubAccount.collateral account) as [|[]|q];
          try discriminate Hnonneg.
        - destruct feeAndGas as [|[]|]; discriminate Hclamp.
        - apply minus_diag. }
      exists _0.
      exists (plus paid (times (if lt collateral gas then _0 else minus collateral gas) cp)).
      rewrite Hzero. repeat split; try reflexivity; try discriminate.
    + exists (minus collateral feeAndGas), (plus paid (times feeCollateral cp)).
      assert (Hsign : lt (minus collateral feeAndGas) _0 = false
                      /\ (BigNumber.isFinite feeAndGas = true ->
                          gte (minus collateral feeAndGas) _0 = true)).
      { subst collateral. revert Hclamp.
        destruct (SubAccount.collateral account) as [|[]|p];
          try discriminate Hnonneg;
          destruct feeAndGas as [|[]|q]; intros Hclamp; try discriminate Hclamp;
          (split; [ try reflexivity | try discriminate; try reflexivity ]).
        - unfold minus. apply lt_Finite_false. rewrite Qred_correct.
          apply lt_Finite_false in Hclamp. lra.
        - intros _. unfold minus. apply gte_Finite. rewrite Qred_correct.
          apply lt_Finite_false in Hclamp. lra. }
      destruct Hsign as [Hlt Hgte].
      repeat split; try reflexivity; try discriminate; try assumption.
  - exists collateral, paid. unfold ret, collateral.
    rewrite with_collateral_same, list_insert_id by exact Hl.
    rewrite world_eta.
    assert (Hlt : lt (SubAccount.collateral account) _0 = false).
    { destruct (SubAccount.collateral account) as [|[]|p];
        try discriminate Hnonneg; try reflexivity.
      apply lt_Finite_false. apply gte_Finite in Hnonneg. exact Hnonneg. }
    repeat split; try reflexivity; try discriminate; try assumption.
    intros _. exact Hnonneg.
Qed.

End FeeShortfall.

(** ** The working copy *)

(** After [cloneSubAccount] the working copy is the last object of the
    heap; the lemmas below run reads and writes of it. *)

Lemma lookup_last {A} (h : list A) (a : A) : (h ++ [a]) !! length h = Some a.
Proof. induction h as [|x h IH]; [reflexivity | exact IH]. Qed.

Lemma insert_last {A} (h : list A) (a x : A) : <[length h := x]> (h ++ [a]) = h ++ [x].
Proof. induction h as [|y h IH]; [reflexivity | simpl; f_equal; exact IH]. Qed.

Lemma bind_deref_last {B} (h : list SubAccount) (a : SubAccount) (c : Clock)
    (k : SubAccount -> M World B) :
  bind (deref (length h)) k {| heap := h ++ [a]; clk := c |}
  = k a {| heap := h ++ [a]; clk := c |}.
Proof. apply bind_deref. apply lookup_last. Qed.

Lemma bind_assign_last {B} (h : list SubAccount) (a : SubAccount) (c : Clock)
    (upd : SubAccount -> SubAccount) (k : unit -> M World B) :
  bind (assign (length h) upd) k {| heap := h ++ [a]; clk := c |}
  = k tt {| heap := h ++ [upd a]; clk := c |}.
Proof.
  rewrite (bind_assign _ _ _ _ a) by apply lookup_last.
  simpl. rewrite insert_last. reflexivity.
Qed.

Lemma bind_liftC {A B} (m : M Clock A) (k : A -> M World B) (h : list SubAccount)
    (c : Clock) :
  bind (liftC m) k {| heap := h; clk := c |}
  = match m c with
    | (c', inr a) => k a {| heap := h; clk := c' |}
    | (c', inl e) => ({| heap := h; clk := c' |}, inl e)
    end.
Proof. unfold bind, liftC. simpl. destruct (m c) as [c' [e|a]]; reflexivity. Qed.

Lemma bind_updateEntryFunding_last {B} (h : list SubAccount) (a : SubAccount) (c : Clock)
    (asset : Asset) (isLong : bool) (k : unit -> M World B) :
  bind (_updateEntryFunding (length h) (Some asset) isLong) k
    {| heap := h ++ [a]; clk := c |}
  = k tt {| heap := h ++ [SubAccount.with_entryFunding
                            (if isLong then Asset.longCumulativeFundingRate asset
                             else Asset.shortCumulativeFunding asset) a];
            clk := c |}.
Proof.
  unfold _updateEntryFunding. destruct isLong;
    rewrite bind_assoc, bind_liftE; simpl; apply bind_assign_last.
Qed.

(** ** The read-only helpers return when the asset exists *)

Lemma computeFundingFeeUsd_defined account asset isLong assetPrice :
  exists fee, computeFundingFeeUsd account (Some asset) isLong assetPrice = inr fee.
Proof.
  unfold computeFundingFeeUsd.
  destruct (eq (SubAccount.size account) _0); [eauto |].
  destruct isLong; simpl; eauto.
Qed.

Lemma _computeFeeUsd_defined account asset isLong amount assetPrice :
  exists fee, _computeFeeUsd account (Some asset) isLong amount assetPrice = inr fee.
Proof.
  unfold _computeFeeUsd, _computePositionFeeUsd.
  destruct (computeFundingFeeUsd_defined account asset isLong assetPrice) as [fee ->].
  simpl. destruct (eq amount _0); simpl; eauto.
Qed.

Lemma computePositionPnlUsd_defined asset account isLong amount assetPrice (c : Clock) :
  exists c' pnl,
    computePositionPnlUsd (Some asset) account isLong amount assetPrice c = (c', inr pnl).
Proof.
  unfold computePositionPnlUsd.
  destruct (eq amount _0); [unfold ret; eauto |].
  match goal with |- context [if gt ?d _0 then _ else _] => destruct (gt d _0) end;
    [| unfold ret; eauto].
  unfold bind, Date_now, liftE, ret; simpl.
  destruct (_ <? _); [| eauto].
  destruct (lt _ _); eauto.
Qed.

Lemma computeRealizeProfit_defined profitUsd feeUsd asset profitAssetPrice :
  exists r, computeRealizeProfit profitUsd feeUsd (Some asset) profitAssetPrice = inr r.
Proof.
  unfold computeRealizeProfit. destruct (gt _ _0); simpl; eauto.
Qed.

Lemma _estimateLiquidationPrice_defined assets collateralId assetId isLong account
    collateralPrice fundingFeeUsd asset :
  assets !! assetId = Some asset ->
  exists p, _estimateLiquidationPrice assets collateralId assetId isLong account
              collateralPrice fundingFeeUsd = inr p.
Proof.
  intros Ha. unfold _estimateLiquidationPrice. rewrite Ha.
  destruct (eq _ _0); [eauto |]. simpl. destruct isLong; eauto.
Qed.

Section SubAccountSnapshot.

Variable decodeSubAccountId : string -> Result SubAccountId.t.

(** [computeSubAccount] writes nothing, and the snapshot it returns
    carries the reference it was given. *)
Lemma computeSubAccount_reads assets subAccountId l collateralPrice assetPrice w :
  exists c' r,
    computeSubAccount decodeSubAccountId assets subAccountId l collateralPrice assetPrice w
    = ({| heap := heap w; clk := c' |}, r)
    /\ (forall d, r = inr d -> SubAccountDetails.subAccount d = l).
Proof.
  unfold computeSubAccount.
  rewrite bind_liftE.
  destruct (decodeSubAccountId subAccountId) as [e|sid].
  { exists (clk w), (inl e). rewrite world_eta. split; [reflexivity | discriminate]. }
  unfold bind at 1. unfold deref at 1.
  destruct (heap w !! l) as [a|].
  2:{ exists (clk w), (inl TypeError). rewrite world_eta.
      split; [reflexivity | discriminate]. }
  rewrite bind_liftE.
  destruct (computeFundingFeeUsd _ _ _ _) as [e|fee].
  { exists (clk w), (inl e). rewrite world_eta. split; [reflexivity | discriminate]. }
  destruct w as [h c]. rewrite bind_liftC. simpl heap. simpl clk.
  destruct (computePositionPnlUsd _ _ _ _ _ c) as [c' [e|pnl]].
  { exists c', (inl e). split; [reflexivity | discriminate]. }
  rewrite bind_liftE.
  destruct (prop _ Asset.initialMarginRate) as [e|imr].
  { exists c', (inl e). split; [reflexivity | discriminate]. }
  rewrite bind_liftE.
  destruct (prop _ Asset.maintenanceMarginRate) as [e|mmr].
  { exists c', (inl e). split; [reflexivity | discriminate]. }
  rewrite bind_liftE.
  destruct (_estimateLiquidationPrice _ _ _ _ _ _ _) as [e|p].
  { exists c', (inl e). split; [reflexivity | discriminate]. }
  unfold ret. eexists c', _. split; [reflexivity |].
  intros d Hd. inversion Hd. reflexivity.
Qed.

(** With a decodable identifier, an existing asset and a live
    reference, [computeSubAccount] returns. *)
Lemma computeSubAccount_defined assets subAccountId l collateralPrice assetPrice w
    sid asset a :
  decodeSubAccountId subAccountId = inr sid ->
  assets !! SubAccountId.assetId sid = Some asset ->
  heap w !! l = Some a ->
  exists c' d,
    computeSubAccount decodeSubAccountId assets subAccountId l collateralPrice assetPrice w
    = ({| heap := heap w; clk := c' |}, inr d)
    /\ SubAccountDetails.subAccount d = l.
Proof.
  intros Hid Hasset Hl. unfold computeSubAccount.
  rewrite bind_liftE, Hid. rewrite (bind_deref _ _ _ _ Hl).
  rewrite Hasset.
  destruct (computeFundingFeeUsd_defined a asset (SubAccountId.isLong sid) assetPrice)
    as [fee Hfee].
  rewrite bind_liftE, Hfee.
  destruct w as [h c]. rewrite bind_liftC.
  destruct (computePositionPnlUsd_defined asset a (SubAccountId.isLong sid)
              (SubAccount.size a) assetPrice c) as (c' & pnl & Hpnl).
  rewrite Hpnl.
  rewrite bind_liftE. simpl prop. cbv iota.
  rewrite bind_liftE. simpl prop. cbv iota.
  destruct (_estimateLiquidationPrice_defined assets (SubAccountId.collateralId sid)
              (SubAccountId.assetId sid) (SubAccountId.isLong sid) a collateralPrice fee
              asset Hasset) as [p Hp].
  rewrite bind_liftE, Hp. unfold ret.
  eexists c', _. split; reflexivity.
Qed.

End SubAccountSnapshot.

(** ** What an accepted call has checked *)

Lemma prop_id_inr (o : option Asset) (a : Asset) : prop o id = inr a -> o = Some a.
Proof. destruct o; simpl; intros H; inversion H; reflexivity. Qed.

Ltac destruct_run H :=
  repeat (match type of H with
          | context [match ?x with _ => _ end] => destruct x eqn:?
          end; try discriminate H).

Section Contexts.

Variable decodeSubAccountId : string -> Result SubAccountId.t.

Lemma computeOpenPosition_context_inr assets subAccountId l prices amount gas w w1 c :
  computeOpenPosition_context decodeSubAccountId assets subAccountId l prices amount gas w
  = (w1, inr c) ->
  exists a sid price asset collateralAsset,
    heap w !! l = Some a
    /\ w1 = {| heap := heap w ++ [a]; clk := clk w |}
    /\ decodeSubAccountId subAccountId = inr sid
    /\ computeTradingPrice decodeSubAccountId assets subAccountId prices true = inr price
    /\ c = contextOf (length (heap w)) sid price
    /\ lte amount _0 = false
    /\ lt gas _0 = false
    /\ assets !! SubAccountId.assetId sid = Some asset
    /\ assets !! SubAccountId.collateralId sid = Some collateralAsset
    /\ notTradable asset collateralAsset (SubAccountId.isLong sid) true = false.
Proof.
  intros H. unfold computeOpenPosition_context in H.
  unfold bind, cloneSubAccount, liftE, throw, ret in H.
  destruct (heap w !! l) as [a|] eqn:Hl; [| discriminate H].
  destruct_run H. inversion H; subst.
  repeat match goal with
         | E : prop _ id = inr _ |- _ => apply prop_id_inr in E
         end.
  eexists _, _, _, _, _. repeat split; try reflexivity; try eassumption.
Qed.

Lemma computeWithdrawCollateral_context_inr assets subAccountId l prices amount w w1 c :
  computeWithdrawCollateral_context decodeSubAccountId assets subAccountId l prices amount w
  = (w1, inr c) ->
  exists a sid price asset collateralAsset,
    heap w !! l = Some a
    /\ w1 = {| heap := heap w ++ [a]; clk := clk w |}
    /\ decodeSubAccountId subAccountId = inr sid
    /\ computeTradingPrice decodeSubAccountId assets subAccountId prices false = inr price
    /\ c = contextOf (length (heap w)) sid price
    /\ lte amount _0 = false
    /\ assets !! SubAccountId.assetId sid = Some asset
    /\ assets !! SubAccountId.collateralId sid = Some collateralAsset
    /\ Asset.isEnabled asset = true
    /\ Asset.isEnabled collateralAsset = true.
Proof.
  intros H. unfold computeWithdrawCollateral_context in H.
  unfold bind, cloneSubAccount, liftE, throw, ret in H.
  destruct (heap w !! l) as [a|] eqn:Hl; [| discriminate H].
  destruct_run H. inversion H; subst.
  repeat match goal with
         | E : prop _ id = inr _ |- _ => apply prop_id_inr in E
         | E : negb _ || negb _ = false |- _ =>
             apply orb_false_iff in E; destruct E as [?%negb_false_iff ?%negb_false_iff]
         end.
  eexists _, _, _, _, _. repeat split; try reflexivity; try eassumption.
Qed.

Lemma computeClosePosition_context_inr assets subAccountId l profitAssetId prices
    amount gas w w1 cp :
  computeClosePosition_context decodeSubAccountId assets subAccountId l profitAssetId
    prices amount gas w = (w1, inr cp) ->
  exists a sid price asset collateralAsset,
    heap w !! l = Some a
    /\ w1 = {| heap := heap w ++ [a]; clk := clk w |}
    /\ decodeSubAccountId subAccountId = inr sid
    /\ computeTradingPrice decodeSubAccountId assets subAccountId prices false = inr price
    /\ resolveProfitAsset assets prices (SubAccountId.assetId sid)
         (SubAccountId.isLong sid) (TradingPrice.assetPrice price) profitAssetId
       = inr (snd cp)
    /\ fst cp = contextOf (length (heap w)) sid price
    /\ lte amount _0 = false
    /\ gt amount (SubAccount.size a) = false
    /\ lt gas _0 = false
    /\ assets !! SubAccountId.assetId sid = Some asset
    /\ assets !! SubAccountId.collateralId sid = Some collateralAsset
    /\ notTradable asset collateralAsset (SubAccountId.isLong sid) false = false.
Proof.
  intros H. unfold computeClosePosition_context in H.
  unfold bind, cloneSubAccount, liftE, deref, throw, ret in H.
  destruct (heap w !! l) as [a|] eqn:Hl; [| discriminate H].
  cbv beta iota in H.
  destruct_run H. inversion H; subst. simpl heap in *.
  repeat match goal with
         | E : context [(_ ++ [_]) !! length _] |- _ =>
             rewrite lookup_last in E; inversion E; subst; clear E
         | E : prop _ id = inr _ |- _ => apply prop_id_inr in E
         | E : _ || _ = false |- _ => apply orb_false_iff in E; destruct E
         end.
  eexists _, _, _, _, _. repeat split; try reflexivity; try eassumption.
Qed.

Lemma computeWithdrawProfit_context_inr assets subAccountId l profitAssetId prices
    amount w w1 cp :
  computeWithdrawProfit_context decodeSubAccountId assets subAccountId l profitAssetId
    prices amount w = (w1, inr cp) ->
  exists a sid price asset collateralAsset,
    heap w !! l = Some a
    /\ w1 = {| heap := heap w ++ [a]; clk := clk w |}
    /\ decodeSubAccountId subAccountId = inr sid
    /\ computeTradingPrice decodeSubAccountId assets subAccountId prices false = inr price
    /\ resolveProfitAsset assets prices (SubAccountId.assetId sid)
         (SubAccountId.isLong sid) (TradingPrice.assetPrice price) profitAssetId
       = inr (snd cp)
    /\ fst cp = contextOf (length (heap w)) sid price
    /\ lte amount _0 = false
    /\ assets !! SubAccountId.assetId sid = Some asset
    /\ assets !! SubAccountId.collateralId sid = Some collateralAsset
    /\ notTradable asset collateralAsset (SubAccountId.isLong sid) false = false
    /\ eq (SubAccount.size a) _0 = false.
Proof.
  intros H. unfold computeWithdrawProfit_context in H.
  unfold bind, cloneSubAccount, liftE, deref, throw, ret in H.
  destruct (heap w !! l) as [a|] eqn:Hl; [| discriminate H].
  cbv beta iota in H.
  destruct_run H. inversion H; subst. simpl heap in *.
  repeat match goal with
         | E : context [(_ ++ [_]) !! length _] |- _ =>
             rewrite lookup_last in E; inversion E; subst; clear E
         | E : prop _ id = inr _ |- _ => apply prop_id_inr in E
         end.
  eexists _, _, _, _, _. repeat split; try reflexivity; try eassumption.
Qed.

End Contexts.

Lemma resolveProfitAsset_defined assets prices assetId isLong assetPrice profitAssetId
    profit asset :
  resolveProfitAsset assets prices assetId isLong assetPrice profitAssetId = inr profit ->
  assets !! assetId = Some asset ->
  exists profitAsset,
    JsNumber.item assets (ProfitAsset.profitAssetId profit) = Some profitAsset.
Proof.
  intros H Ha. unfold resolveProfitAsset in H. rewrite Ha in H.
  unfold rbind in H. destruct_run H; inversion H; subst; simpl.
  all: try (rewrite JsNumberFacts.item_of_nat; eauto; fail).
  all: match goal with
       | E : prop (JsNumber.item ?l ?i) _ = inr _ |- exists _, JsNumber.item ?l ?i = _ =>
           destruct (JsNumber.item l i); [eauto | discriminate E]
       end.
Qed.

(** ** Withdrawing profit *)

Section WithdrawProfit.

Variable decodeSubAccountId : string -> Result SubAccountId.t.

(** What [computeWithdrawProfit] does once its arguments are accepted:
    it throws when the realized pnl is below [deltaUsd] and otherwise
    returns, having moved the entry price of the working copy. *)
Lemma computeWithdrawProfit_run assets subAccountId l profitAssetId prices amount
    w w1 c profit :
  computeWithdrawProfit_context decodeSubAccountId assets subAccountId l profitAssetId
    prices amount w = (w1, inr (c, profit)) ->
  exists a asset fee c' pnl,
    heap w !! l = Some a
    /\ assets !! Context.assetId c = Some asset
    /\ eq (SubAccount.size a) _0 = false
    /\ computeFundingFeeUsd a (Some asset) (Context.isLong c) (Context.assetPrice c)
       = inr fee
    /\ computePositionPnlUsd (Some asset) a (Context.isLong c) (SubAccount.size a)
         (Context.assetPrice c) (clk w) = (c', inr pnl)
    /\ let deltaUsd := plus (times amount (ProfitAsset.profitAssetPrice profit)) fee in
       let funded :=
         SubAccount.with_entryFunding
           (if Context.isLong c then Asset.longCumulativeFundingRate asset
            else Asset.shortCumulativeFunding asset) a in
       if lt (Pnl.pnlUsd pnl) deltaUsd then
         computeWithdrawProfit decodeSubAccountId assets subAccountId l profitAssetId
           prices amount w
         = ({| heap := heap w ++ [funded]; clk := c' |}, inl (JsError "insufficient pnl"))
       else
         exists c'' r,
           computeWithdrawProfit decodeSubAccountId assets subAccountId l profitAssetId
             prices amount w
           = ({| heap := heap w ++
                   [SubAccount.with_entryPrice
                      (if Context.isLong c then
                         plus (SubAccount.entryPrice a) (div deltaUsd (SubAccount.size a))
                       else
                         minus (SubAccount.entryPrice a) (div deltaUsd (SubAccount.size a)))
                      funded];
                 clk := c'' |}, inr r)
           /\ SubAccountDetails.subAccount (WithdrawProfitResult.afterTrade r)
              = length (heap w)
           /\ WithdrawProfitResult.feeUsd r = fee
           /\ WithdrawProfitResult.isTradeSafe r
              = SubAccountComputed.isIMSafe
                  (SubAccountDetails.computed (WithdrawProfitResult.afterTrade r)).
Proof.
  intros Hctx.
  destruct (computeWithdrawProfit_context_inr _ _ _ _ _ _ _ _ _ _ Hctx)
    as (a & sid & price & asset & collateralAsset & Hl & -> & Hid & Hprice & Hprofit
        & Hc & Hamount & Hasset & Hcollateral & Htradable & Hsize).
  simpl in Hprofit, Hc. subst c.
  destruct (resolveProfitAsset_defined _ _ _ _ _ _ _ _ Hprofit Hasset)
    as [profitAsset HprofitAsset].
  destruct (computeFundingFeeUsd_defined a asset (SubAccountId.isLong sid)
              (TradingPrice.assetPrice price)) as [fee Hfee].
  destruct (computePositionPnlUsd_defined asset a (SubAccountId.isLong sid)
              (SubAccount.size a) (TradingPrice.assetPrice price) (clk w))
    as (c' & pnl & Hpnl).
  exists a, asset, fee, c', pnl. simpl.
  repeat (split; [assumption |]).
  set (deltaUsd := plus (times amount (ProfitAsset.profitAssetPrice profit)) fee).
  set (funded := SubAccount.with_entryFunding _ a).
  set (after := SubAccount.with_entryPrice _ funded).
  eassert (Heval :
    computeWithdrawProfit decodeSubAccountId assets subAccountId l profitAssetId
      prices amount w = _).
  { unfold computeWithdrawProfit. unfold bind at 1. rewrite Hctx. simpl.
    rewrite Hasset, HprofitAsset.
    rewrite bind_deref_last, bind_liftE, Hfee.
    rewrite bind_updateEntryFunding_last, bind_deref_last, bind_liftC.
    change (computePositionPnlUsd (Some asset) (SubAccount.with_entryFunding ?x a))
      with (computePositionPnlUsd (Some asset) a).
    simpl SubAccount.size. rewrite Hpnl. fold deltaUsd. fold funded. reflexivity. }
  rewrite Heval. clear Heval.
  destruct (lt (Pnl.pnlUsd pnl) deltaUsd) eqn:Hlt; [reflexivity |].
  destruct (computeRealizeProfit_defined (Pnl.pnlUsd pnl) fee profitAsset
              (ProfitAsset.profitAssetPrice profit)) as [realized Hrealized].
  destruct (computeSubAccount_defined decodeSubAccountId assets subAccountId
              (length (heap w)) (TradingPrice.collateralPrice price)
              (TradingPrice.assetPrice price)
              {| heap := heap w ++ [after]; clk := c' |} sid asset after Hid Hasset
              (lookup_last _ _)) as (c'' & details & Hrun & Hsub).
  exists c''. eexists. split.
  - rewrite bind_liftE, Hrealized.
    rewrite bind_deref_last.
    match goal with
    | |- context [bind (if ?b then assign ?r ?u1 else assign ?r ?u2) ?k] =>
        replace (bind (if b then assign r u1 else assign r u2) k)
          with (bind (assign r (if b then u1 else u2)) k) by (destruct b; reflexivity)
    end.
    rewrite bind_assign_last.
    replace ((if SubAccountId.isLong sid then _ else _) funded) with after
      by (subst after; simpl; destruct (SubAccountId.isLong sid); reflexivity).
    unfold bind at 1. rewrite Hrun. unfold ret. reflexivity.
  - repeat split; try reflexivity. exact Hsub.
Qed.

(** A call of [computeWithdrawProfit] that returns, in full. *)
Lemma computeWithdrawProfit_inr assets subAccountId l profitAssetId prices amount
    w w' r original :
  heap w !! l = Some original ->
  computeWithdrawProfit decodeSubAccountId assets subAccountId l profitAssetId
    prices amount w = (w', inr r) ->
  exists sid price profit asset after,
    decodeSubAccountId subAccountId = inr sid
    /\ computeTradingPrice decodeSubAccountId assets subAccountId prices false = inr price
    /\ resolveProfitAsset assets prices (SubAccountId.assetId sid)
         (SubAccountId.isLong sid) (TradingPrice.assetPrice price) profitAssetId
       = inr profit
    /\ assets !! SubAccountId.assetId sid = Some asset
    /\ eq (SubAccount.size original) _0 = false
    /\ computeFundingFeeUsd original (Some asset) (SubAccountId.isLong sid)
         (TradingPrice.assetPrice price) = inr (WithdrawProfitResult.feeUsd r)
    /\ heap w' = heap w ++ [after]
    /\ SubAccountDetails.subAccount (WithdrawProfitResult.afterTrade r) = length (heap w)
    /\ after
       = (let deltaUsd := plus (times amount (ProfitAsset.profitAssetPrice profit))
                            (WithdrawProfitResult.feeUsd r) in
          SubAccount.with_entryPrice
            (if SubAccountId.isLong sid then
               plus (SubAccount.entryPrice original)
                    (div deltaUsd (SubAccount.size original))
             else
               minus (SubAccount.entryPrice original)
                     (div deltaUsd (SubAccount.size original)))
            (SubAccount.with_entryFunding
               (if SubAccountId.isLong sid then Asset.longCumulativeFundingRate asset
                else Asset.shortCumulativeFunding asset) original)).
Proof.
  intros Hl H.
  assert (Hctx : exists w1 cp,
             computeWithdrawProfit_context decodeSubAccountId assets subAccountId l
               profitAssetId prices amount w = (w1, inr cp)).
  { unfold computeWithdrawProfit in H. apply bind_inr in H.
    destruct H as (w1 & cp & Hctx & _). eauto. }
  destruct Hctx as (w1 & [c profit] & Hctx).
  destruct (computeWithdrawProfit_context_inr _ _ _ _ _ _ _ _ _ _ Hctx)
    as (a & sid & price & asset & collateralAsset & Hl' & _ & Hid & Hprice & Hprofit
        & Hc & _ & Hasset & _ & _ & _).
  simpl in Hprofit, Hc.
  destruct (computeWithdrawProfit_run _ _ _ _ _ _ _ _ _ _ Hctx)
    as (a' & asset' & fee & c' & pnl & Hl'' & Hasset' & Hsize & Hfee & Hpnl & Hrun).
  assert (a = original) by congruence. assert (a' = original) by congruence.
  subst a a' c. simpl in *.
  assert (asset' = asset) by congruence. subst asset'.
  destruct (lt (Pnl.pnlUsd pnl) _).
  - rewrite H in Hrun. discriminate Hrun.
  - destruct Hrun as (c'' & r' & Hrun & Hsub & Hfee' & _).
    rewrite H in Hrun. inversion Hrun; subst w' r'. clear Hrun.
    exists sid, price, profit, asset. eexists.
    repeat (split; [first [eassumption | reflexivity | congruence] |]).
    simpl. rewrite Hfee'. reflexivity.
Qed.

(** C6. A call of [computeWithdrawProfit] that returns has moved the
    entry price by [deltaUsd / size], up for a long position and down
    for a short one, where [deltaUsd] is the amount at the price of the
    profit asset plus the funding fee. *)
Theorem computeWithdrawProfit_shifts_entry_price :
  forall (assets : list Asset) (subAccountId : string) (subAccount : ref)
         (profitAssetId : number) (prices : PriceDict) (amount : BigNumber)
         (w w' : World) (r : WithdrawProfitResult.t) (original : SubAccount),
    heap w !! subAccount = Some original ->
    computeWithdrawProfit decodeSubAccountId assets subAccountId subAccount
      profitAssetId prices amount w = (w', inr r) ->
    exists sid price profit fundingFeeUsd after,
      decodeSubAccountId subAccountId = inr sid
      /\ computeTradingPrice decodeSubAccountId assets subAccountId prices false
         = inr price
      /\ resolveProfitAsset assets prices (SubAccountId.assetId sid)
           (SubAccountId.isLong sid) (TradingPrice.assetPrice price) profitAssetId
         = inr profit
      /\ computeFundingFeeUsd original (assets !! SubAccountId.assetId sid)
           (SubAccountId.isLong sid) (TradingPrice.assetPrice price) = inr fundingFeeUsd
      /\ heap w' !! SubAccountDetails.subAccount (WithdrawProfitResult.afterTrade r)
         = Some after
      /\ let deltaUsd :=
           plus (times amount (ProfitAsset.profitAssetPrice profit)) fundingFeeUsd in
         let s := SubAccount.size original in
         SubAccount.entryPrice after
         = if SubAccountId.isLong sid
           then plus (SubAccount.entryPrice original) (div deltaUsd s)
           else minus (SubAccount.entryPrice original) (div deltaUsd s).
Proof.
  intros assets subAccountId l profitAssetId prices amount w w' r original Hl H.
  destruct (computeWithdrawProfit_inr _ _ _ _ _ _ _ _ _ _ Hl H)
    as (sid & price & profit & asset & after & Hid & Hprice & Hprofit & Hasset & _
        & Hfee & Hheap & Hsub & Hafter).
  exists sid, price, profit, (WithdrawProfitResult.feeUsd r), after.
  rewrite Hasset, Hheap, Hsub, lookup_last.
  repeat (split; [first [assumption | reflexivity] |]).
  subst after. simpl. destruct (SubAccountId.isLong sid); reflexivity.
Qed.

(** C9. A call of [computeWithdrawProfit] that returns leaves the
    collateral and the size of the account as they were. *)
Theorem computeWithdrawProfit_keeps_collateral_and_size :
  forall (assets : list Asset) (subAccountId : string) (subAccount : ref)
         (profitAssetId : number) (prices : PriceDict) (amount : BigNumber)
         (w w' : World) (r : WithdrawProfitResult.t) (original : SubAccount),
    heap w !! subAccount = Some original ->
    computeWithdrawProfit decodeSubAccountId assets subAccountId subAccount
      profitAssetId prices amount w = (w', inr r) ->
    exists after,
      heap w' !! SubAccountDetails.subAccount (WithdrawProfitResult.afterTrade r)
      = Some after
      /\ SubAccount.collateral after = SubAccount.collateral original
      /\ SubAccount.size after = SubAccount.size original.
Proof.
  intros assets subAccountId l profitAssetId prices amount w w' r original Hl H.
  destruct (computeWithdrawProfit_inr _ _ _ _ _ _ _ _ _ _ Hl H)
    as (sid & price & profit & asset & after & _ & _ & _ & _ & _ & _ & Hheap & Hsub
        & Hafter).
  exists after. rewrite Hheap, Hsub, lookup_last.
  subst after. repeat split.
Qed.

(** C5. With its arguments accepted, [computeWithdrawProfit] throws
    "insufficient pnl" exactly when the realized pnl of the whole
    position at the spread-adjusted asset price is below
    [deltaUsd = amount * profitAssetPrice + fundingFeeUsd]; it then
    returns nothing and the caller's account is as it was; otherwise it
    returns. *)
Theorem computeWithdrawProfit_insufficient_pnl_iff :
  forall (assets : list Asset) (subAccountId : string) (subAccount : ref)
         (profitAssetId : number) (prices : PriceDict) (amount : BigNumber)
         (w w1 : World) (c : Context) (profit : ProfitAsset) (original : SubAccount),
    heap w !! subAccount = Some original ->
    computeWithdrawProfit_context decodeSubAccountId assets subAccountId subAccount
      profitAssetId prices amount w = (w1, inr (c, profit)) ->
    exists fundingFeeUsd clock' pnl,
      computeFundingFeeUsd original (assets !! Context.assetId c) (Context.isLong c)
        (Context.assetPrice c) = inr fundingFeeUsd
      /\ computePositionPnlUsd (assets !! Context.assetId c) original (Context.isLong c)
           (SubAccount.size original) (Context.assetPrice c) (clk w)
         = (clock', inr pnl)
      /\ let deltaUsd :=
           plus (times amount (ProfitAsset.profitAssetPrice profit)) fundingFeeUsd in
         let outcome :=
           computeWithdrawProfit decodeSubAccountId assets subAccountId subAccount
             profitAssetId prices amount w in
         (snd outcome = inl (JsError "insufficient pnl")
          <-> lt (Pnl.pnlUsd pnl) deltaUsd = true)
         /\ (lt (Pnl.pnlUsd pnl) deltaUsd = true ->
             heap (fst outcome) !! subAccount = Some original)
         /\ (lt (Pnl.pnlUsd pnl) deltaUsd = false -> exists r, snd outcome = inr r).
Proof.
  intros assets subAccountId l profitAssetId prices amount w w1 c profit original Hl Hctx.
  destruct (computeWithdrawProfit_run _ _ _ _ _ _ _ _ _ _ Hctx)
    as (a & asset & fee & c' & pnl & Hl' & Hasset & Hsize & Hfee & Hpnl & Hrun).
  assert (a = original) by congruence. subst a.
  exists fee, c', pnl. rewrite Hasset.
  split; [exact Hfee |]. split; [exact Hpnl |].
  cbv zeta in *.
  destruct (lt (Pnl.pnlUsd pnl) _) eqn:Hlt.
  - rewrite Hrun. simpl. repeat split; try reflexivity; try discriminate.
    intros _. rewrite lookup_app_l by (eapply lookup_lt_Some; exact Hl). exact Hl.
  - destruct Hrun as (c'' & r & Hrun & _). rewrite Hrun. simpl.
    repeat split; try discriminate. intros _. eauto.
Qed.

End WithdrawProfit.

(** ** Withdrawing collateral *)

Section WithdrawCollateral.

Variable decodeSubAccountId : string -> Result SubAccountId.t.

(** What [computeWithdrawCollateral] does once its arguments are
    accepted: it returns, with the fee and the amount taken off the
    collateral of the working copy. *)
Lemma computeWithdrawCollateral_run assets subAccountId l prices amount w w1 c :
  computeWithdrawCollateral_context decodeSubAccountId assets subAccountId l prices
    amount w = (w1, inr c) ->
  exists a asset fee c' r,
    heap w !! l = Some a
    /\ assets !! Context.assetId c = Some asset
    /\ computeFundingFeeUsd a (Some asset) (Context.isLong c) (Context.assetPrice c)
       = inr fee
    /\ computeWithdrawCollateral decodeSubAccountId assets subAccountId l prices amount w
       = ({| heap := heap w ++
               [SubAccount.with_collateral
                  (minus (minus (SubAccount.collateral a)
                                (div fee (Context.collateralPrice c))) amount)
                  (if gt (SubAccount.size a) _0 then
                     SubAccount.with_entryFunding
                       (if Context.isLong c then Asset.longCumulativeFundingRate asset
                        else Asset.shortCumulativeFunding asset) a
                   else a)];
             clk := c' |}, inr r)
    /\ SubAccountDetails.subAccount (WithdrawCollateralResult.afterTrade r)
       = length (heap w)
    /\ WithdrawCollateralResult.feeUsd r = fee
    /\ WithdrawCollateralResult.isTradeSafe r
       = SubAccountComputed.isIMSafe
           (SubAccountDetails.computed (WithdrawCollateralResult.afterTrade r))
    /\ computeSubAccount decodeSubAccountId assets subAccountId (length (heap w))
         (Context.collateralPrice c) (Context.assetPrice c)
         {| heap := heap w ++
              [SubAccount.with_collateral
                 (minus (minus (SubAccount.collateral a)
                               (div fee (Context.collateralPrice c))) amount)
                 (if gt (SubAccount.size a) _0 then
                    SubAccount.with_entryFunding
                      (if Context.isLong c then Asset.longCumulativeFundingRate asset
                       else Asset.shortCumulativeFunding asset) a
                  else a)];
            clk := clk w |}
       = ({| heap := heap w ++
               [SubAccount.with_collateral
                  (minus (minus (SubAccount.collateral a)
                                (div fee (Context.collateralPrice c))) amount)
                  (if gt (SubAccount.size a) _0 then
                     SubAccount.with_entryFunding
                       (if Context.isLong c then Asset.longCumulativeFundingRate asset
                        else Asset.shortCumulativeFunding asset) a
                   else a)];
             clk := c' |}, inr (WithdrawCollateralResult.afterTrade r)).
Proof.
  intros Hctx.
  destruct (computeWithdrawCollateral_context_inr _ _ _ _ _ _ _ _ _ Hctx)
    as (a & sid & price & asset & collateralAsset & Hl & -> & Hid & Hprice
        & -> & Hamount & Hasset & Hcollateral & _).
  destruct (computeFundingFeeUsd_defined a asset (SubAccountId.isLong sid)
              (TradingPrice.assetPrice price)) as [fee Hfee].
  pose (funded :=
          if gt (SubAccount.size a) _0 then
            SubAccount.with_entryFunding
              (if SubAccountId.isLong sid then Asset.longCumulativeFundingRate asset
               else Asset.shortCumulativeFunding asset) a
          else a).
  pose (after :=
          SubAccount.with_collateral
            (minus (minus (SubAccount.collateral a)
                          (div fee (TradingPrice.collateralPrice price))) amount)
            funded).
  destruct (computeSubAccount_defined decodeSubAccountId assets subAccountId
              (length (heap w)) (TradingPrice.collateralPrice price)
              (TradingPrice.assetPrice price)
              {| heap := heap w ++ [after]; clk := clk w |} sid asset after Hid Hasset
              (lookup_last _ _)) as (c' & details & Hrun & Hsub).
  exists a, asset, fee, c'. eexists. simpl.
  repeat (split; [first [assumption | reflexivity] |]).
  fold funded. fold after.
  split.
  - unfold computeWithdrawCollateral. unfold bind at 1. rewrite Hctx. simpl.
    rewrite Hasset.
    rewrite bind_deref_last, bind_liftE, Hfee.
    assert (Hfund :
      forall B (k : unit -> M World B),
        bind (if gt (SubAccount.size a) _0
              then _updateEntryFunding (length (heap w)) (Some asset)
                     (SubAccountId.isLong sid)
              else ret tt) k {| heap := heap w ++ [a]; clk := clk w |}
        = k tt {| heap := heap w ++ [funded]; clk := clk w |}).
    { intros B k. subst funded. destruct (gt (SubAccount.size a) _0).
      - apply bind_updateEntryFunding_last.
      - reflexivity. }
    rewrite Hfund.
    rewrite bind_deref_last, bind_assign_last, bind_deref_last, bind_assign_last.
    replace (SubAccount.with_collateral _ (SubAccount.with_collateral _ funded))
      with after
      by (subst after funded; destruct (gt (SubAccount.size a) _0); reflexivity).
    unfold bind at 1. rewrite Hrun. reflexivity.
  - repeat split; try reflexivity; [exact Hsub | exact Hrun].
Qed.

Import BigNumberFacts.

(** C10. [computeWithdrawCollateral] has no error for insufficient
    collateral: once its arguments are accepted it returns, the funding
    fee (in collateral units) and then the whole amount are deducted
    from the collateral without clamping, so that the collateral
    returned is negative when they exceed it, and the only signal is
    [isTradeSafe], the [isIMSafe] of the snapshot after the trade: the
    [afterTrade] returned is what [computeSubAccount] computes, at the
    trading prices, once the account holds the collateral left after
    both deductions. *)
Theorem computeWithdrawCollateral_never_clamps :
  forall (assets : list Asset) (subAccountId : string) (subAccount : ref)
         (prices : PriceDict) (amount : BigNumber) (w w1 : World) (c : Context)
         (original : SubAccount),
    heap w !! subAccount = Some original ->
    computeWithdrawCollateral_context decodeSubAccountId assets subAccountId subAccount
      prices amount w = (w1, inr c) ->
    exists fundingFeeUsd w' r after,
      computeFundingFeeUsd original (assets !! Context.assetId c) (Context.isLong c)
        (Context.assetPrice c) = inr fundingFeeUsd
      /\ computeWithdrawCollateral decodeSubAccountId assets subAccountId subAccount
           prices amount w = (w', inr r)
      /\ heap w' !! SubAccountDetails.subAccount (WithdrawCollateralResult.afterTrade r)
         = Some after
      /\ SubAccount.collateral after
         = minus (minus (SubAccount.collateral original)
                        (div fundingFeeUsd (Context.collateralPrice c))) amount
      /\ WithdrawCollateralResult.feeUsd r = fundingFeeUsd
      /\ WithdrawCollateralResult.isTradeSafe r
         = SubAccountComputed.isIMSafe
             (SubAccountDetails.computed (WithdrawCollateralResult.afterTrade r))
      /\ computeSubAccount decodeSubAccountId assets subAccountId
           (SubAccountDetails.subAccount (WithdrawCollateralResult.afterTrade r))
           (Context.collateralPrice c) (Context.assetPrice c)
           {| heap := heap w'; clk := clk w |}
         = (w', inr (WithdrawCollateralResult.afterTrade r))
      /\ (forall collateral fee requested : Q,
            SubAccount.collateral original = Finite collateral ->
            div fundingFeeUsd (Context.collateralPrice c) = Finite fee ->
            amount = Finite requested ->
            (collateral - fee < requested)%Q ->
            lt (SubAccount.collateral after) _0 = true).
Proof.
  intros assets subAccountId l prices amount w w1 c original Hl Hctx.
  destruct (computeWithdrawCollateral_run _ _ _ _ _ _ _ _ Hctx)
    as (a & asset & fee & c' & r & Hl' & Hasset & Hfee & Hrun & Hsub & Hfee' & Hsafe
        & Hsnapshot).
  assert (a = original) by congruence. subst a.
  eexists fee, _, r, _. rewrite Hasset.
  split; [exact Hfee |]. split; [exact Hrun |].
  rewrite Hsub. simpl heap. rewrite lookup_last.
  split; [reflexivity |]. simpl SubAccount.collateral.
  repeat (split; [first [assumption | reflexivity] |]).
  intros qc qf qa -> -> -> Hless.
  unfold minus. apply lt_Finite. rewrite !Qred_correct. lra.
Qed.

End WithdrawCollateral.

(** ** Closing *)

Lemma bind_reduceSize_last {B} (h : list SubAccount) (a : SubAccount) (c : Clock)
    (amount : BigNumber) (k : unit -> M World B) :
  (let* account := deref (length h) in
   let* _ := assign (length h)
               (SubAccount.with_size (minus (SubAccount.size account) amount)) in
   let* account := deref (length h) in
   let* _ :=
     (if eq (SubAccount.size account) _0 then
        let* _ := assign (length h) (SubAccount.with_entryPrice _0) in
        let* _ := assign (length h) (SubAccount.with_entryFunding _0) in
        assign (length h) (SubAccount.with_lastIncreasedTime 0)
      else ret tt) in
   k tt) {| heap := h ++ [a]; clk := c |}
  = k tt {| heap := h ++ [reduceSize amount a]; clk := c |}.
Proof.
  rewrite bind_deref_last, bind_assign_last, bind_deref_last.
  unfold reduceSize. cbv zeta.
  destruct (eq (SubAccount.size (SubAccount.with_size _ a)) _0).
  - repeat first [rewrite bind_assoc | rewrite bind_assign_last]. reflexivity.
  - reflexivity.
Qed.

Lemma lt_zero_negated (x : BigNumber) :
  lt x _0 = true -> eq (negated x) _0 = false /\ gt x _0 = false.
Proof.
  destruct x as [|[]|q]; try discriminate; intros H; split; try reflexivity.
  - apply BigNumberFacts.eq_Finite_false. apply BigNumberFacts.lt_Finite in H.
    rewrite Qred_correct. lra.
  - apply BigNumberFacts.lt_Finite in H. unfold gt, BigNumber.comparedTo, _0.
    destruct (Qcompare_spec q 0); try reflexivity. lra.
Qed.

Section ClosePosition.

Variable decodeSubAccountId : string -> Result SubAccountId.t.

(** "fee & funding" and "realize pnl" on the working copy. *)
Lemma computeClosePosition_realize_run assets (h : list SubAccount) (a : SubAccount)
    (k : Clock) (sid : SubAccountId.t) (price : TradingPrice.t) (profit : ProfitAsset)
    (amount : BigNumber) (asset profitAsset : Asset) :
  assets !! SubAccountId.assetId sid = Some asset ->
  JsNumber.item assets (ProfitAsset.profitAssetId profit) = Some profitAsset ->
  exists totalFeeUsd k' pnl,
    _computeFeeUsd a (Some asset) (SubAccountId.isLong sid) amount
      (TradingPrice.assetPrice price) = inr totalFeeUsd
    /\ computePositionPnlUsd (Some asset) a (SubAccountId.isLong sid) amount
         (TradingPrice.assetPrice price) k = (k', inr pnl)
    /\ let funded :=
         SubAccount.with_entryFunding
           (if SubAccountId.isLong sid then Asset.longCumulativeFundingRate asset
            else Asset.shortCumulativeFunding asset) a in
       let lossCollateral :=
         div (negated (Pnl.pnlUsd pnl)) (TradingPrice.collateralPrice price) in
       let nothing :=
         {| Realized.totalFeeUsd := totalFeeUsd; Realized.paidFeeUsd := _0;
            Realized.profitAssetTransferred := _0;
            Realized.bitoroTokenTransferred := _0 |} in
       computeClosePosition_realize assets (contextOf (length h) sid price) profit amount
         {| heap := h ++ [a]; clk := k |}
       = if gt (Pnl.pnlUsd pnl) _0 then
           match computeRealizeProfit (Pnl.pnlUsd pnl) totalFeeUsd (Some profitAsset)
                   (ProfitAsset.profitAssetPrice profit) with
           | inr result =>
               ({| heap := h ++ [reduceSize amount funded]; clk := k' |},
                inr {| Realized.totalFeeUsd := totalFeeUsd;
                       Realized.paidFeeUsd := RealizeProfit.deductUsd result;
                       Realized.profitAssetTransferred :=
                         RealizeProfit.profitAssetTransferred result;
                       Realized.bitoroTokenTransferred :=
                         RealizeProfit.bitoroTokenTransferred result |})
           | inl e => ({| heap := h ++ [funded]; clk := k' |}, inl e)
           end
         else if lt (Pnl.pnlUsd pnl) _0 then
           if lt (SubAccount.collateral a) lossCollateral then
             ({| heap := h ++ [funded]; clk := k' |}, inl (JsError "bankrupt"))
           else
             ({| heap := h ++
                   [reduceSize amount
                      (SubAccount.with_collateral
                         (minus (SubAccount.collateral a) lossCollateral) funded)];
                 clk := k' |}, inr nothing)
         else
           ({| heap := h ++ [reduceSize amount funded]; clk := k' |}, inr nothing).
Proof.
  intros Hasset HprofitAsset.
  destruct (_computeFeeUsd_defined a asset (SubAccountId.isLong sid) amount
              (TradingPrice.assetPrice price)) as [totalFeeUsd Hfee].
  destruct (computePositionPnlUsd_defined asset a (SubAccountId.isLong sid) amount
              (TradingPrice.assetPrice price) k) as (k' & pnl & Hpnl).
  exists totalFeeUsd, k', pnl. split; [exact Hfee |]. split; [exact Hpnl |].
  cbv zeta. unfold computeClosePosition_realize. simpl.
  rewrite Hasset, HprofitAsset.
  rewrite bind_deref_last, bind_liftE, Hfee.
  rewrite bind_updateEntryFunding_last, bind_deref_last, bind_liftC.
  change (computePositionPnlUsd (Some asset) (SubAccount.with_entryFunding ?x a))
    with (computePositionPnlUsd (Some asset) a).
  rewrite Hpnl.
  destruct (gt (Pnl.pnlUsd pnl) _0) eqn:Hgt.
  - rewrite !bind_assoc, bind_liftE.
    destruct (computeRealizeProfit _ _ _ _) as [e|result]; [reflexivity |].
    rewrite bind_ret. exact (bind_reduceSize_last h _ k' amount (fun _ => ret _)).
  - destruct (lt (Pnl.pnlUsd pnl) _0) eqn:Hlt.
    + destruct (lt_zero_negated _ Hlt) as [Hne _].
      rewrite !bind_assoc. unfold computeRealizeLoss. rewrite Hne.
      rewrite !bind_assoc, bind_deref_last.
      simpl SubAccount.collateral.
      destruct (lt (SubAccount.collateral a) _) eqn:Hbankrupt.
      * reflexivity.
      * rewrite bind_assign_last, bind_ret.
        exact (bind_reduceSize_last h _ k' amount (fun _ => ret _)).
    + rewrite bind_ret. exact (bind_reduceSize_last h _ k' amount (fun _ => ret _)).
Qed.

(** "ignore fees if can not afford" on the working copy: only the
    collateral changes. *)
Lemma computeClosePosition_fees_last (h : list SubAccount) (a : SubAccount) (k : Clock)
    (collateralPrice gas totalFeeUsd paidFeeUsd : BigNumber) :
  exists collateral' paidFeeUsd',
    computeClosePosition_fees (length h) collateralPrice gas totalFeeUsd paidFeeUsd
      {| heap := h ++ [a]; clk := k |}
    = ({| heap := h ++ [SubAccount.with_collateral collateral' a]; clk := k |},
       inr paidFeeUsd').
Proof.
  unfold computeClosePosition_fees.
  destruct (gt gas _0 || gt totalFeeUsd paidFeeUsd).
  - rewrite bind_deref_last, bind_assign_last. unfold ret. eauto.
  - exists (SubAccount.collateral a), paidFeeUsd.
    rewrite with_collateral_same. reflexivity.
Qed.

(** A call of [computeClosePosition] that returns: the account
    returned is the original with its size reduced and, but for its
    collateral and funding snapshot, nothing else changed. *)
Lemma computeClosePosition_inr assets subAccountId l profitAssetId prices amount gas
    w w' r original :
  heap w !! l = Some original ->
  computeClosePosition decodeSubAccountId assets subAccountId l profitAssetId prices
    amount gas w = (w', inr r) ->
  exists collateral' before,
    heap w' = heap w ++ [SubAccount.with_collateral collateral' (reduceSize amount before)]
    /\ SubAccountDetails.subAccount (ClosePositionResult.afterTrade r) = length (heap w)
    /\ SubAccount.size before = SubAccount.size original
    /\ lte amount _0 = false
    /\ gt amount (SubAccount.size original) = false.
Proof.
  intros Hl H.
  assert (Hctx : exists w1 cp,
             computeClosePosition_context decodeSubAccountId assets subAccountId l
               profitAssetId prices amount gas w = (w1, inr cp)).
  { unfold computeClosePosition in H. apply bind_inr in H.
    destruct H as (w1 & cp & Hctx & _). eauto. }
  destruct Hctx as (w1 & [c profit] & Hctx).
  destruct (computeClosePosition_context_inr _ _ _ _ _ _ _ _ _ _ _ Hctx)
    as (a & sid & price & asset & collateralAsset & Hl' & -> & Hid & Hprice & Hprofit
        & Hc & Hamount & Hsize & _ & Hasset & _ & _).
  simpl in Hprofit, Hc. subst c.
  assert (a = original) by congruence. subst a.
  destruct (resolveProfitAsset_defined _ _ _ _ _ _ _ _ Hprofit Hasset)
    as [profitAsset HprofitAsset].
  destruct (computeClosePosition_realize_run assets (heap w) original (clk w) sid price
              profit amount asset profitAsset Hasset HprofitAsset)
    as (totalFeeUsd & k' & pnl & _ & _ & Hrealize).
  cbv zeta in Hrealize.
  unfold computeClosePosition in H. unfold bind at 1 in H. rewrite Hctx in H.
  simpl fst in H. simpl snd in H. unfold bind at 1 in H.
  assert (Hdone : exists before realized,
             computeClosePosition_realize assets (contextOf (length (heap w)) sid price)
               profit amount {| heap := heap w ++ [original]; clk := clk w |}
             = ({| heap := heap w ++ [reduceSize amount before]; clk := k' |},
                inr realized)
             /\ SubAccount.size before = SubAccount.size original).
  { rewrite Hrealize in *.
    destruct (gt (Pnl.pnlUsd pnl) _0).
    - destruct (computeRealizeProfit _ _ _ _); [discriminate H |].
      eexists _, _. split; reflexivity.
    - destruct (lt (Pnl.pnlUsd pnl) _0).
      + destruct (lt (SubAccount.collateral original) _); [discriminate H |].
        eexists _, _. split; reflexivity.
      + eexists _, _. split; reflexivity. }
  destruct Hdone as (before & realized & Hdone & Hbefore).
  rewrite Hdone in H. simpl Context.working in H. simpl Context.collateralPrice in H.
  destruct (computeClosePosition_fees_last (heap w) (reduceSize amount before) k'
              (TradingPrice.collateralPrice price) gas
              (Realized.totalFeeUsd realized) (Realized.paidFeeUsd realized))
    as (collateral' & paid' & Hfees).
  unfold bind at 1 in H. rewrite Hfees in H.
  match type of H with
  | context [bind (computeSubAccount ?d ?as_ ?i ?rf ?cp ?ap) ?k ?w0] =>
      destruct (computeSubAccount_reads d as_ i rf cp ap w0) as (k'' & rs & Hrun & Hsub)
  end.
  unfold bind in H. rewrite Hrun in H. destruct rs as [e|details]; [discriminate H |].
  unfold ret in H. inversion H; subst w' r. simpl.
  exists collateral', before. repeat split; try assumption.
  apply Hsub. reflexivity.
Qed.

Import BigNumberFacts.


(** C3. The fee-shortfall settlement of [computeClosePosition].  Once the
    arguments are accepted and the pnl is realized on an account whose
    collateral is then not negative, [computeClosePosition] returns, and
    the account it returns differs from the one after realization in its
    collateral only, which is not negative.  When the collateral covers
    the uncovered fee plus gas, exactly that is deducted and the whole
    uncovered fee is added to [feeUsd]; when it does not, the whole
    collateral is taken, gas is paid first and only what remains after
    gas is added to [feeUsd], nothing when the collateral is below the
    gas.  [afterTrade] is the snapshot of the account so settled. *)
Theorem close_fee_shortfall_never_negative :
  forall (assets : list Asset) (subAccountId : string) (subAccount : ref)
         (profitAssetId : number) (prices : PriceDict) (amount brokerGasFee : BigNumber)
         (w w1 w2 : World) (c : Context) (profit : ProfitAsset) (realized : Realized)
         (account : SubAccount),
    computeClosePosition_context decodeSubAccountId assets subAccountId subAccount
      profitAssetId prices amount brokerGasFee w = (w1, inr (c, profit)) ->
    computeClosePosition_realize assets c profit amount w1 = (w2, inr realized) ->
    heap w2 !! Context.working c = Some account ->
    gte (SubAccount.collateral account) _0 = true ->
    let collateral := SubAccount.collateral account in
    let collateralPrice := Context.collateralPrice c in
    let totalFeeUsd := Realized.totalFeeUsd realized in
    let paidFeeUsd := Realized.paidFeeUsd realized in
    let feeCollateral := div (minus totalFeeUsd paidFeeUsd) collateralPrice in
    let feeAndGasCollateral := plus feeCollateral brokerGasFee in
    exists (collateral' : BigNumber) (w' : World) (r : ClosePositionResult.t),
      computeClosePosition decodeSubAccountId assets subAccountId subAccount profitAssetId
        prices amount brokerGasFee w = (w', inr r)
      /\ heap w'
         = <[Context.working c := SubAccount.with_collateral collateral' account]> (heap w2)
      /\ heap w' !! SubAccountDetails.subAccount (ClosePositionResult.afterTrade r)
         = Some (SubAccount.with_collateral collateral' account)
      /\ computeSubAccount decodeSubAccountId assets subAccountId (Context.working c)
           collateralPrice (Context.assetPrice c) {| heap := heap w'; clk := clk w2 |}
         = (w', inr (ClosePositionResult.afterTrade r))
      /\ ClosePositionResult.isTradeSafe r
         = SubAccountComputed.isMarginSafe
             (SubAccountDetails.computed (ClosePositionResult.afterTrade r))
      /\ ClosePositionResult.profitAssetTransferred r
         = Realized.profitAssetTransferred realized
      /\ ClosePositionResult.bitoroTokenTransferred r
         = Realized.bitoroTokenTransferred realized
      /\ lt collateral' _0 = false
      /\ (BigNumber.isFinite feeAndGasCollateral = true -> gte collateral' _0 = true)
      /\ (gt brokerGasFee _0 || gt totalFeeUsd paidFeeUsd = true ->
          (lt collateral feeAndGasCollateral = false ->
             collateral' = minus collateral feeAndGasCollateral
             /\ ClosePositionResult.feeUsd r
                = plus paidFeeUsd (times feeCollateral collateralPrice))
          /\ (lt collateral feeAndGasCollateral = true ->
                collateral' = _0
                /\ ClosePositionResult.feeUsd r
                   = plus paidFeeUsd
                       (times (if lt collateral brokerGasFee then _0
                               else minus collateral brokerGasFee) collateralPrice)))
      /\ (gt brokerGasFee _0 || gt totalFeeUsd paidFeeUsd = false ->
          collateral' = collateral /\ ClosePositionResult.feeUsd r = paidFeeUsd).
Proof.
  intros assets subAccountId l profitAssetId prices amount gas w w1 w2 c profit realized
         account Hctx Hrealize Hlookup Hnonneg.
  cbv zeta.
  destruct (computeClosePosition_context_inr _ _ _ _ _ _ _ _ _ _ _ Hctx)
    as (a & sid & price & asset & collateralAsset & Hl & -> & Hid & Hprice & Hprofit
        & Hc & Hamount & Hsize & _ & Hasset & _ & _).
  simpl in Hprofit, Hc. subst c.
  simpl Context.working in *. simpl Context.collateralPrice. simpl Context.assetPrice.
  assert (Hrange : (length (heap w) < length (heap w2))%nat)
    by (eapply lookup_lt_Some; exact Hlookup).
  destruct (computeClosePosition_fees_settles (length (heap w))
              (TradingPrice.collateralPrice price) gas (Realized.totalFeeUsd realized)
              (Realized.paidFeeUsd realized) w2 account Hlookup Hnonneg)
    as (collateral' & paid' & Hfees & Hlt & Hfinite & Hentered & Hskipped).
  destruct (computeSubAccount_defined decodeSubAccountId assets subAccountId
              (length (heap w)) (TradingPrice.collateralPrice price)
              (TradingPrice.assetPrice price)
              {| heap := <[length (heap w) :=
                             SubAccount.with_collateral collateral' account]> (heap w2);
                 clk := clk w2 |}
              sid asset (SubAccount.with_collateral collateral' account) Hid Hasset
              (list_lookup_insert_eq _ _ _ Hrange))
    as (k'' & details & Hsnapshot & Hsub).
  exists collateral'. eexists. eexists. split.
  { unfold computeClosePosition. unfold bind at 1. rewrite Hctx.
    simpl fst. simpl snd. unfold bind at 1. rewrite Hrealize.
    simpl Context.working. simpl Context.collateralPrice. simpl Context.assetPrice.
    unfold bind at 1. rewrite Hfees.
    unfold bind at 1. rewrite Hsnapshot. reflexivity. }
  simpl. rewrite Hsub.
  split; [reflexivity |].
  split; [apply list_lookup_insert_eq; exact Hrange |].
  split; [exact Hsnapshot |].
  repeat (split; [first [assumption | reflexivity] |]).
  exact Hskipped.
Qed.

End ClosePosition.

(** ** Opening *)

Section OpenPosition.

Variable decodeSubAccountId : string -> Result SubAccountId.t.

(** A call of [computeOpenPosition] that returns has added [amount] to
    the size of the working copy. *)
Lemma computeOpenPosition_inr assets subAccountId l prices amount gas w w' r original :
  heap w !! l = Some original ->
  computeOpenPosition decodeSubAccountId assets subAccountId l prices amount gas w
  = (w', inr r) ->
  exists after,
    heap w' = heap w ++ [after]
    /\ SubAccountDetails.subAccount (OpenPositionResult.afterTrade r) = length (heap w)
    /\ SubAccount.size after = plus (SubAccount.size original) amount
    /\ lte amount _0 = false.
Proof.
  intros Hl H.
  assert (Hctx : exists w1 c,
             computeOpenPosition_context decodeSubAccountId assets subAccountId l
               prices amount gas w = (w1, inr c)).
  { unfold computeOpenPosition in H. apply bind_inr in H.
    destruct H as (w1 & c & Hctx & _). eauto. }
  destruct Hctx as (w1 & c & Hctx).
  destruct (computeOpenPosition_context_inr _ _ _ _ _ _ _ _ _ _ Hctx)
    as (a & sid & price & asset & collateralAsset & Hl' & -> & Hid & Hprice & ->
        & Hamount & _ & Hasset & _ & _).
  assert (a = original) by congruence. subst a.
  destruct (computeFundingFeeUsd_defined original asset (SubAccountId.isLong sid)
              (TradingPrice.assetPrice price)) as [fundingFeeUsd Hfunding].
  destruct (_computeFeeUsd_defined original asset (SubAccountId.isLong sid) amount
              (TradingPrice.assetPrice price)) as [feeUsd Hfee].
  set (funded := SubAccount.with_entryFunding
                   (if SubAccountId.isLong sid then Asset.longCumulativeFundingRate asset
                    else Asset.shortCumulativeFunding asset) original).
  set (charged := SubAccount.with_collateral
                    (minus (SubAccount.collateral funded)
                       (plus (div feeUsd (TradingPrice.collateralPrice price)) gas))
                    funded).
  destruct (computePositionPnlUsd_defined asset charged (SubAccountId.isLong sid) amount
              (TradingPrice.assetPrice price) (clk w)) as (k' & pnl & Hpnl).
  eassert (Heval :
    computeOpenPosition decodeSubAccountId assets subAccountId l prices amount gas w = _).
  { unfold computeOpenPosition. unfold bind at 1. rewrite Hctx. simpl.
    rewrite Hasset.
    rewrite bind_deref_last, bind_liftE, Hfunding, bind_liftE, Hfee.
    rewrite bind_updateEntryFunding_last, bind_deref_last, bind_assign_last.
    fold funded. fold charged.
    rewrite bind_deref_last, bind_liftC, Hpnl.
    match goal with
    | |- context [bind (if ?b then assign ?rf ?u1 else assign ?rf ?u2) ?k] =>
        replace (bind (if b then assign rf u1 else assign rf u2) k)
          with (bind (assign rf (if b then u1 else u2)) k) by (destruct b; reflexivity)
    end.
    rewrite bind_assign_last, bind_assign_last, bind_liftC.
    unfold Date_now. cbv beta iota. rewrite bind_assign_last.
    reflexivity. }
  rewrite Heval in H. clear Heval.
  match type of H with
  | context [bind (computeSubAccount ?d ?as_ ?i ?rf ?cp ?ap) ?k ?w0] =>
      destruct (computeSubAccount_reads d as_ i rf cp ap w0) as (k'' & rs & Hrun & Hsub)
  end.
  unfold bind in H. rewrite Hrun in H. destruct rs as [e|details]; [discriminate H |].
  unfold ret in H. inversion H; subst w' r. simpl.
  eexists. split; [reflexivity |]. split; [apply Hsub; reflexivity |].
  split; [| exact Hamount].
  destruct (eq (Pnl.pnlUsd pnl) _0); reflexivity.
Qed.

End OpenPosition.

(** ** The flat-position invariant *)

Lemma reduceSize_flat amount account : flat_invariant (reduceSize amount account).
Proof.
  unfold flat_invariant, reduceSize. cbv zeta.
  destruct (eq (SubAccount.size (SubAccount.with_size _ account)) _0) eqn:Hzero.
  - intros _. repeat split.
  - intros H. congruence.
Qed.

Lemma reduceSize_whole amount account :
  eq (minus (SubAccount.size account) amount) _0 = true ->
  SubAccount.entryPrice (reduceSize amount account) = _0
  /\ SubAccount.entryFunding (reduceSize amount account) = _0
  /\ SubAccount.lastIncreasedTime (reduceSize amount account) = 0.
Proof.
  intros H. unfold reduceSize. cbv zeta. simpl SubAccount.size. rewrite H.
  repeat split.
Qed.

(** Closing the whole of a finite position leaves size zero. *)
Lemma minus_whole (size amount : BigNumber) :
  BigNumber.isFinite amount = true ->
  eq amount size = true ->
  eq (minus size amount) _0 = true.
Proof.
  destruct amount as [| |p]; try discriminate. intros _.
  destruct size as [|[]|q]; try discriminate. intros H.
  apply BigNumberFacts.eq_Finite in H. apply BigNumberFacts.eq_Finite.
  rewrite Qred_correct. lra.
Qed.

(** A position that is not short grows when something positive is
    added: it is not flat afterwards. *)
Lemma plus_positive_not_zero (size amount : BigNumber) :
  gte size _0 = true -> lte amount _0 = false -> eq (plus size amount) _0 = false.
Proof.
  destruct size as [|[]|q]; try discriminate; intros Hsize;
    destruct amount as [|[]|p]; try discriminate; intros Hamount; try reflexivity.
  apply BigNumberFacts.gte_Finite in Hsize. apply BigNumberFacts.lte_Finite_false in Hamount.
  apply BigNumberFacts.eq_Finite_false. rewrite Qred_correct. lra.
Qed.

Lemma eq_zero_not_gt (x : BigNumber) : eq x _0 = true -> gt x _0 = false.
Proof.
  unfold eq, gt. destruct (BigNumber.comparedTo x _0) as [[]|]; congruence.
Qed.

Section FlatInvariant.

Variable decodeSubAccountId : string -> Result SubAccountId.t.

(** C4. On the account a simulation returns, a zero size comes with a
    zero entry price, a zero funding snapshot and a zero
    [lastIncreasedTime], when this held of the account passed in (for
    [computeOpenPosition]: of an account whose size is not negative, as
    the data model has it).  And [computeClosePosition] with the whole
    size as amount returns an account with all three reset to zero. *)
Theorem simulations_preserve_flat_invariant :
  forall (assets : list Asset) (subAccountId : string) (subAccount : ref)
         (profitAssetId : number) (prices : PriceDict) (amount brokerGasFee : BigNumber)
         (w : World) (original : SubAccount),
    heap w !! subAccount = Some original ->
    (forall w' r,
        computeOpenPosition decodeSubAccountId assets subAccountId subAccount prices
          amount brokerGasFee w = (w', inr r) ->
        gte (SubAccount.size original) _0 = true ->
        flat_invariant original ->
        exists after,
          heap w' !! SubAccountDetails.subAccount (OpenPositionResult.afterTrade r)
          = Some after
          /\ flat_invariant after)
    /\ (forall w' r,
           computeClosePosition decodeSubAccountId assets subAccountId subAccount
             profitAssetId prices amount brokerGasFee w = (w', inr r) ->
           exists after,
             heap w' !! SubAccountDetails.subAccount (ClosePositionResult.afterTrade r)
             = Some after
             /\ (flat_invariant original -> flat_invariant after)
             /\ (BigNumber.isFinite amount = true ->
                 eq amount (SubAccount.size original) = true ->
                 SubAccount.entryPrice after = _0
                 /\ SubAccount.entryFunding after = _0
                 /\ SubAccount.lastIncreasedTime after = 0))
    /\ (forall w' r,
           computeWithdrawCollateral decodeSubAccountId assets subAccountId subAccount
             prices amount w = (w', inr r) ->
           flat_invariant original ->
           exists after,
             heap w' !! SubAccountDetails.subAccount
                          (WithdrawCollateralResult.afterTrade r) = Some after
             /\ flat_invariant after)
    /\ (forall w' r,
           computeWithdrawProfit decodeSubAccountId assets subAccountId subAccount
             profitAssetId prices amount w = (w', inr r) ->
           flat_invariant original ->
           exists after,
             heap w' !! SubAccountDetails.subAccount (WithdrawProfitResult.afterTrade r)
             = Some after
             /\ flat_invariant after).
Proof.
  intros assets subAccountId l profitAssetId prices amount gas w original Hl.
  split; [| split; [| split]].
  - (* open: the size grows *)
    intros w' r H Hsize _.
    destruct (computeOpenPosition_inr decodeSubAccountId _ _ _ _ _ _ _ _ _ _ Hl H)
      as (after & Hheap & Hsub & Hafter & Hamount).
    exists after. rewrite Hheap, Hsub, lookup_last. split; [reflexivity |].
    intros Hzero. rewrite Hafter in Hzero.
    rewrite (plus_positive_not_zero _ _ Hsize Hamount) in Hzero. discriminate Hzero.
  - (* close: the reset of lines 382-386 *)
    intros w' r H.
    destruct (computeClosePosition_inr decodeSubAccountId _ _ _ _ _ _ _ _ _ _ _ Hl H)
      as (collateral' & before & Hheap & Hsub & Hbefore & _ & _).
    eexists. rewrite Hheap, Hsub, lookup_last. split; [reflexivity |]. split.
    + intros _. exact (reduceSize_flat amount before).
    + intros Hfinite Hwhole. apply (reduceSize_whole amount before).
      rewrite Hbefore. apply minus_whole; assumption.
  - (* withdraw collateral: the entry data of a flat account is not touched *)
    intros w' r H Hflat.
    assert (Hctx : exists w1 c,
               computeWithdrawCollateral_context decodeSubAccountId assets subAccountId l
                 prices amount w = (w1, inr c)).
    { unfold computeWithdrawCollateral in H. apply bind_inr in H.
      destruct H as (w1 & c & Hctx & _). eauto. }
    destruct Hctx as (w1 & c & Hctx).
    destruct (computeWithdrawCollateral_run decodeSubAccountId _ _ _ _ _ _ _ _ Hctx)
      as (a & asset & fee & c' & r' & Hl' & _ & _ & Hrun & Hsub & _).
    assert (a = original) by congruence. subst a.
    rewrite H in Hrun. inversion Hrun; subst w' r'. clear Hrun.
    eexists. rewrite Hsub. simpl heap. rewrite lookup_last. split; [reflexivity |].
    intros Hzero.
    assert (Hzero' : eq (SubAccount.size original) _0 = true).
    { revert Hzero. simpl. destruct (gt (SubAccount.size original) _0); exact id. }
    rewrite (eq_zero_not_gt _ Hzero'). simpl. exact (Hflat Hzero').
  - (* withdraw profit: the position is not flat *)
    intros w' r H _.
    destruct (computeWithdrawProfit_inr decodeSubAccountId _ _ _ _ _ _ _ _ _ _ Hl H)
      as (sid & price & profit & asset & after & _ & _ & _ & _ & Hsize & _ & Hheap & Hsub
          & Hafter).
    exists after. rewrite Hheap, Hsub, lookup_last. split; [reflexivity |].
    intros Hzero. subst after. simpl in Hzero. congruence.
Qed.

End FlatInvariant.

(** ** The liquidity fee curve *)



(** ** The snapshot and the clock *)

(** What [computePositionPnlUsd] returns depends on the clock through
    the second of its next reading alone. *)
Lemma computePositionPnlUsd_clock asset account isLong amount assetPrice (c1 c2 : Clock) :
  ceil_seconds (readings c1 (reads c1)) = ceil_seconds (readings c2 (reads c2)) ->
  snd (computePositionPnlUsd asset account isLong amount assetPrice c1)
  = snd (computePositionPnlUsd asset account isLong amount assetPrice c2).
Proof.
  intros Hsecond. unfold computePositionPnlUsd.
  destruct (eq amount _0); [reflexivity |].
  match goal with |- context [if gt ?d _0 then _ else _] => destruct (gt d _0) end;
    [| reflexivity].
  unfold bind, Date_now, liftE, ret. simpl. rewrite Hsecond.
  destruct (prop asset Asset.minProfitTime); [reflexivity |].
  destruct (_ <? _); [| reflexivity].
  destruct (prop asset Asset.minProfitRate); [reflexivity |].
  destruct (lt _ _); reflexivity.
Qed.

Section Determinism.

Variable decodeSubAccountId : string -> Result SubAccountId.t.

(** C8, as the code has it.  [computeSubAccount] reads the clock, for
    the minimum-profit lock-up: its result is a function of its
    arguments, of the fields of the account behind the reference and of
    the second the clock shows.  Two calls with identical arguments, on
    accounts with equal fields and within the same second, return the
    same [SubAccountDetails]; and the call changes no object. *)
Theorem computeSubAccount_deterministic_within_a_second :
  forall (assets : list Asset) (subAccountId : string) (subAccount : ref)
         (collateralPrice assetPrice : BigNumber) (w1 w2 : World),
    heap w1 !! subAccount = heap w2 !! subAccount ->
    ceil_seconds (readings (clk w1) (reads (clk w1)))
    = ceil_seconds (readings (clk w2) (reads (clk w2))) ->
    snd (computeSubAccount decodeSubAccountId assets subAccountId subAccount
           collateralPrice assetPrice w1)
    = snd (computeSubAccount decodeSubAccountId assets subAccountId subAccount
             collateralPrice assetPrice w2)
    /\ heap (fst (computeSubAccount decodeSubAccountId assets subAccountId subAccount
                    collateralPrice assetPrice w1)) = heap w1.
Proof.
  intros assets subAccountId l collateralPrice assetPrice w1 w2 Hheap Hsecond.
  split.
  - unfold computeSubAccount. rewrite !bind_liftE.
    destruct (decodeSubAccountId subAccountId) as [e|sid]; [reflexivity |].
    unfold bind at 1 7. unfold deref. rewrite Hheap.
    destruct (heap w2 !! l) as [a|]; [| reflexivity].
    rewrite !bind_liftE.
    destruct (computeFundingFeeUsd _ _ _ _) as [e|fee]; [reflexivity |].
    destruct w1 as [h1 c1], w2 as [h2 c2]. rewrite !bind_liftC. simpl in Hsecond.
    pose proof (computePositionPnlUsd_clock (assets !! SubAccountId.assetId sid) a
                  (SubAccountId.isLong sid) (SubAccount.size a) assetPrice c1 c2 Hsecond)
      as Hpnl.
    destruct (computePositionPnlUsd _ _ _ _ _ c1) as [c1' r1].
    destruct (computePositionPnlUsd _ _ _ _ _ c2) as [c2' r2].
    simpl in Hpnl. subst r2. destruct r1 as [e|pnl]; [reflexivity |].
    rewrite !bind_liftE.
    destruct (prop _ Asset.initialMarginRate) as [e|imr]; [reflexivity |].
    rewrite !bind_liftE.
    destruct (prop _ Asset.maintenanceMarginRate) as [e|mmr]; [reflexivity |].
    rewrite !bind_liftE.
    destruct (_estimateLiquidationPrice _ _ _ _ _ _ _) as [e|p]; reflexivity.
  - destruct (computeSubAccount_reads decodeSubAccountId assets subAccountId l
                collateralPrice assetPrice w1) as (c' & r & Hrun & _).
    rewrite Hrun. reflexivity.
Qed.

End Determinism.

(** * The properties on the example market *)



(** C2, witness. *)
Lemma simulations_never_mutate_input_witness :
  heap (fst (computeOpenPosition exampleDecode exampleAssets "USDC-ETH-long" 0%nat
               (examplePrices 110) (Finite 2) (Finite 1) (exampleWorld 5000000))) !! 0%nat
  = Some exampleAccount
  /\ heap (fst (computeClosePosition exampleDecode exampleAssets "USDC-ETH-long" 0%nat
                  0%nat (examplePrices 110) (Finite 2) (Finite 1) (exampleWorld 5000000)))
       !! 0%nat = Some exampleAccount
  /\ heap (fst (computeWithdrawCollateral exampleDecode exampleAssets "USDC-ETH-long"
                  0%nat (examplePrices 110) (Finite 2) (exampleWorld 5000000))) !! 0%nat
     = Some exampleAccount
  /\ heap (fst (computeWithdrawProfit exampleDecode exampleAssets "USDC-ETH-long" 0%nat
                  0%nat (examplePrices 110) (Finite 2) (exampleWorld 5000000))) !! 0%nat
     = Some exampleAccount.
Proof.
  exact (simulations_never_mutate_input exampleDecode exampleAssets "USDC-ETH-long"
           0%nat 0%nat (examplePrices 110) (Finite 2) (Finite 1) (exampleWorld 5000000)
           exampleAccount eq_refl).
Defined.

(** C3, witness: 100 of collateral against a fee of 200 and a gas of 1. *)
Lemma close_fee_shortfall_never_negative_witness :
  exists w' r after,
    computeClosePosition exampleDecode exampleAssets "USDC-ETH-long" 0%nat 0%nat
      (examplePrices 95) (Finite 10) (Finite (99 # 2)) (exampleWorld 5000000) = (w', inr r)
    /\ heap w' !! SubAccountDetails.subAccount (ClosePositionResult.afterTrade r)
       = Some after
    /\ SubAccount.collateral after = _0
    /\ ClosePositionResult.feeUsd r = Finite (1 # 2).
Proof.
  assert (Hctx : computeClosePosition_context exampleDecode exampleAssets "USDC-ETH-long"
                   0%nat 0%nat (examplePrices 95) (Finite 10) (Finite (99 # 2))
                   (exampleWorld 5000000)
                 = (clonedWorld 5000000, inr (exampleContext 95, exampleProfit 95)))
    by (vm_compute; reflexivity).
  destruct (computeClosePosition_realize exampleAssets (exampleContext 95)
              (exampleProfit 95) (Finite 10) (clonedWorld 5000000))
    as [w2 [e | realized]] eqn:Hrealize; [vm_compute in Hrealize; discriminate Hrealize |].
  pose proof Hrealize as Hvalue. vm_compute in Hvalue.
  inversion Hvalue; subst w2 realized. clear Hvalue.
  destruct (close_fee_shortfall_never_negative exampleDecode exampleAssets
              "USDC-ETH-long" 0%nat 0%nat (examplePrices 95) (Finite 10)
              (Finite (99 # 2)) (exampleWorld 5000000) _ _ _ _ _ _ Hctx Hrealize
              eq_refl eq_refl)
    as (collateral' & w' & r & Hrun & _ & Hlookup & _ & _ & _ & _ & _ & _ & Hentered & _).
  destruct (Hentered eq_refl) as [_ Hclamped].
  destruct (Hclamped eq_refl) as [Hcollateral Hpaid].
  exists w', r. eexists. split; [exact Hrun |]. split; [exact Hlookup |].
  split; [exact Hcollateral |].
  rewrite Hpaid. vm_compute. reflexivity.
Defined.

(** C4, witness: closing the 10 ETH at 95. *)
Lemma simulations_preserve_flat_invariant_witness :
  exists w' r after,
    computeClosePosition exampleDecode exampleAssets "USDC-ETH-long" 0%nat 0%nat
      (examplePrices 95) (Finite 10) (Finite 1) (exampleWorld 5000000) = (w', inr r)
    /\ heap w' !! SubAccountDetails.subAccount (ClosePositionResult.afterTrade r)
       = Some after
    /\ SubAccount.entryPrice after = _0
    /\ SubAccount.entryFunding after = _0
    /\ SubAccount.lastIncreasedTime after = 0.
Proof.
  destruct (computeClosePosition exampleDecode exampleAssets "USDC-ETH-long" 0%nat 0%nat
              (examplePrices 95) (Finite 10) (Finite 1) (exampleWorld 5000000))
    as [w' [e|r]] eqn:Hrun.
  - vm_compute in Hrun. discriminate Hrun.
  - destruct (proj1 (proj2 (simulations_preserve_flat_invariant exampleDecode
                              exampleAssets "USDC-ETH-long" 0%nat 0%nat (examplePrices 95)
                              (Finite 10) (Finite 1) (exampleWorld 5000000)
                              exampleAccount eq_refl)) w' r Hrun)
      as (after & Hlookup & _ & Hreset).
    exists w', r, after. split; [reflexivity |]. split; [exact Hlookup |].
    apply Hreset; reflexivity.
Defined.

(** C5, witness: with ETH at 110 the realized pnl is 100; withdrawing 2
    ETH asks for 220. *)
Lemma computeWithdrawProfit_insufficient_pnl_iff_witness :
  snd (computeWithdrawProfit exampleDecode exampleAssets "USDC-ETH-long" 0%nat 0%nat
         (examplePrices 110) (Finite 2) (exampleWorld 5000000))
  = inl (JsError "insufficient pnl").
Proof.
  destruct (computeWithdrawProfit_insufficient_pnl_iff exampleDecode exampleAssets
              "USDC-ETH-long" 0%nat 0%nat (examplePrices 110) (Finite 2)
              (exampleWorld 5000000) (clonedWorld 5000000) (exampleContext 110)
              (exampleProfit 110) exampleAccount eq_refl eq_refl)
    as (fee & clock' & pnl & Hfee & Hpnl & Hiff & _).
  vm_compute in Hfee, Hpnl. inversion Hfee; subst fee. inversion Hpnl; subst pnl.
  apply Hiff. reflexivity.
Defined.

(** C6, witness: withdrawing half an ETH of profit at 110 moves the
    entry price of the 10 ETH from 100 to 105.5. *)
Lemma computeWithdrawProfit_shifts_entry_price_witness :
  exists w' r after,
    computeWithdrawProfit exampleDecode exampleAssets "USDC-ETH-long" 0%nat 0%nat
      (examplePrices 110) (Finite (1 # 2)) (exampleWorld 5000000) = (w', inr r)
    /\ heap w' !! SubAccountDetails.subAccount (WithdrawProfitResult.afterTrade r)
       = Some after
    /\ SubAccount.entryPrice after = Finite (211 # 2).
Proof.
  destruct (computeWithdrawProfit exampleDecode exampleAssets "USDC-ETH-long" 0%nat 0%nat
              (examplePrices 110) (Finite (1 # 2)) (exampleWorld 5000000))
    as [w' [e|r]] eqn:Hrun.
  - vm_compute in Hrun. discriminate Hrun.
  - destruct (computeWithdrawProfit_shifts_entry_price exampleDecode exampleAssets
                "USDC-ETH-long" 0%nat 0%nat (examplePrices 110) (Finite (1 # 2))
                (exampleWorld 5000000) w' r exampleAccount eq_refl Hrun)
      as (sid & price & profit & fee & after & Hid & Hprice & Hprofit & Hfee & Hlookup
          & Hentry).
    exists w', r, after. split; [reflexivity |]. split; [exact Hlookup |].
    vm_compute in Hid. inversion Hid; subst sid.
    vm_compute in Hprice. inversion Hprice; subst price.
    vm_compute in Hprofit. inversion Hprofit; subst profit.
    vm_compute in Hfee. inversion Hfee; subst fee.
    rewrite Hentry. vm_compute. reflexivity.
Defined.

(** C9, witness. *)
Lemma computeWithdrawProfit_keeps_collateral_and_size_witness :
  exists w' r after,
    computeWithdrawProfit exampleDecode exampleAssets "USDC-ETH-long" 0%nat 0%nat
      (examplePrices 110) (Finite (1 # 2)) (exampleWorld 5000000) = (w', inr r)
    /\ heap w' !! SubAccountDetails.subAccount (WithdrawProfitResult.afterTrade r)
       = Some after
    /\ SubAccount.collateral after = Finite 100
    /\ SubAccount.size after = Finite 10.
Proof.
  destruct (computeWithdrawProfit exampleDecode exampleAssets "USDC-ETH-long" 0%nat 0%nat
              (examplePrices 110) (Finite (1 # 2)) (exampleWorld 5000000))
    as [w' [e|r]] eqn:Hrun.
  - vm_compute in Hrun. discriminate Hrun.
  - destruct (computeWithdrawProfit_keeps_collateral_and_size exampleDecode exampleAssets
                "USDC-ETH-long" 0%nat 0%nat (examplePrices 110) (Finite (1 # 2))
                (exampleWorld 5000000) w' r exampleAccount eq_refl Hrun)
      as (after & Hlookup & Hcollateral & Hsize).
    exists w', r, after. repeat split; assumption.
Defined.


(** C8, counterexample.  Two calls of [computeSubAccount] in a row, with
    the same arguments and the account untouched in between: the first,
    at second 1010, is within 60 seconds of the last increase and below
    the minimum profit rate, and reports a realized pnl of 0; the second,
    at second 5000, reports 5. *)
Lemma computeSubAccount_depends_on_the_clock :
  exists first second : SubAccountDetails,
    snd (computeSubAccount exampleDecode exampleAssets "USDC-ETH-long" 0%nat (Finite 1)
           (Finite (201 # 2)) tickingWorld) = inr first
    /\ snd (computeSubAccount exampleDecode exampleAssets "USDC-ETH-long" 0%nat (Finite 1)
              (Finite (201 # 2))
              (fst (computeSubAccount exampleDecode exampleAssets "USDC-ETH-long" 0%nat
                      (Finite 1) (Finite (201 # 2)) tickingWorld))) = inr second
    /\ heap (fst (computeSubAccount exampleDecode exampleAssets "USDC-ETH-long" 0%nat
                    (Finite 1) (Finite (201 # 2)) tickingWorld)) = heap tickingWorld
    /\ SubAccountComputed.pnlUsd (SubAccountDetails.computed first) = Finite 0
    /\ SubAccountComputed.pnlUsd (SubAccountDetails.computed second) = Finite 5
    /\ first <> second.
Proof.
  eexists _, _.
  split; [vm_compute; reflexivity |].
  split; [vm_compute; reflexivity |].
  split; [reflexivity |].
  split; [reflexivity |].
  split; [reflexivity |].
  intros H. discriminate H.
Qed.

(** C8, witness: two worlds whose clocks differ within second 5000. *)
Lemma computeSubAccount_deterministic_within_a_second_witness :
  snd (computeSubAccount exampleDecode exampleAssets "USDC-ETH-long" 0%nat (Finite 1)
         (Finite (201 # 2)) (exampleWorld 4999001))
  = snd (computeSubAccount exampleDecode exampleAssets "USDC-ETH-long" 0%nat (Finite 1)
           (Finite (201 # 2)) (clonedWorld 5000000)).
Proof.
  exact (proj1 (computeSubAccount_deterministic_within_a_second exampleDecode
                  exampleAssets "USDC-ETH-long" 0%nat (Finite 1) (Finite (201 # 2))
                  (exampleWorld 4999001) (clonedWorld 5000000) eq_refl eq_refl)).
Defined.

(** C10, witness: withdrawing 150 USDC from 100 of collateral returns,
    with -50 of collateral and [isTradeSafe] false. *)
Lemma computeWithdrawCollateral_never_clamps_witness :
  exists w' r after,
    computeWithdrawCollateral exampleDecode exampleAssets "USDC-ETH-long" 0%nat
      (examplePrices 100) (Finite 150) (exampleWorld 5000000) = (w', inr r)
    /\ heap w' !! SubAccountDetails.subAccount (WithdrawCollateralResult.afterTrade r)
       = Some after
    /\ SubAccount.collateral after = Finite (-50)
    /\ lt (SubAccount.collateral after) _0 = true
    /\ WithdrawCollateralResult.isTradeSafe r = false.
Proof.
  destruct (computeWithdrawCollateral_never_clamps exampleDecode exampleAssets
              "USDC-ETH-long" 0%nat (examplePrices 100) (Finite 150)
              (exampleWorld 5000000) (clonedWorld 5000000) (exampleContext 100)
              exampleAccount eq_refl eq_refl)
    as (fee & w' & r & after & Hfee & Hrun & Hlookup & Hcollateral & _ & Hsafe & _
        & Hnegative).
  vm_compute in Hfee. inversion Hfee; subst fee.
  exists w', r, after. split; [exact Hrun |]. split; [exact Hlookup |].
  split; [rewrite Hcollateral; vm_compute; reflexivity |].
  split.
  - apply (Hnegative 100%Q 0%Q 150%Q); [reflexivity | vm_compute; reflexivity
                                       | reflexivity | reflexivity].
  - vm_compute in Hrun. inversion Hrun; subst r. reflexivity.
Defined.

(** * Further properties of computations.ts *)

(** ** Prices with spread *)

Lemma is_zero_false (q : Q) : ~ (q == 0)%Q -> BigNumber.is_zero q = false.
Proof.
  intros H. unfold BigNumber.is_zero. apply Z.eqb_neq. intros Hnum. apply H.
  unfold Qeq. simpl. rewrite Hnum. reflexivity.
Qed.

(** The bid of a positive finite price under a half spread below one. *)
Lemma computePriceWithSpread_bid (asset : Asset) (price spread : Q) :
  Asset.halfSpread asset = Finite spread ->
  (0 < price)%Q -> (0 <= spread)%Q -> (spread < 1)%Q ->
  exists bid : Q,
    computePriceWithSpread (Some asset) (Finite price) Bid = inr (Finite bid)
    /\ (bid == price * (1 - spread))%Q.
Proof.
  intros Hspread Hprice Hlow Hhigh. unfold computePriceWithSpread, prop, rbind. rewrite Hspread.
  destruct (eq (Finite spread) _0) eqn:Hzero.
  - exists price. split; [reflexivity |].
    apply BigNumberFacts.eq_Finite in Hzero. rewrite Hzero. ring.
  - assert (Hlte : lte (Finite price) (times (Finite price) (Finite spread)) = false).
    { apply BigNumberFacts.lte_Finite_false. rewrite Qred_correct. nra. }
    rewrite Hlte. eexists. split; [reflexivity |].
    rewrite Qred_correct, Qred_correct. ring.
Qed.

(** The ask of a finite price. *)
Lemma computePriceWithSpread_ask (asset : Asset) (price spread : Q) :
  Asset.halfSpread asset = Finite spread ->
  exists ask : Q,
    computePriceWithSpread (Some asset) (Finite price) Ask = inr (Finite ask)
    /\ (ask == price * (1 + spread))%Q.
Proof.
  intros Hspread. unfold computePriceWithSpread, prop, rbind. rewrite Hspread.
  destruct (eq (Finite spread) _0) eqn:Hzero.
  - exists price. split; [reflexivity |].
    apply BigNumberFacts.eq_Finite in Hzero. rewrite Hzero. ring.
  - eexists. split; [reflexivity |].
    rewrite Qred_correct, Qred_correct. ring.
Qed.

(** X1. For a positive price and a half spread in [0, 1),
    [computePriceWithSpread] returns for both sides, the bid is
    [price * (1 - halfSpread)] and the ask [price * (1 + halfSpread)]: the
    bid is positive and the reference price lies between the two. *)
Theorem computePriceWithSpread_brackets_price :
  forall (asset : Asset) (price spread : Q),
    Asset.halfSpread asset = Finite spread ->
    (0 < price)%Q -> (0 <= spread)%Q -> (spread < 1)%Q ->
    exists bid ask : Q,
      computePriceWithSpread (Some asset) (Finite price) Bid = inr (Finite bid)
      /\ computePriceWithSpread (Some asset) (Finite price) Ask = inr (Finite ask)
      /\ (bid == price * (1 - spread))%Q
      /\ (ask == price * (1 + spread))%Q
      /\ (0 < bid)%Q /\ (bid <= price)%Q /\ (price <= ask)%Q.
Proof.
  intros asset price spread Hspread Hprice Hlow Hhigh.
  destruct (computePriceWithSpread_bid asset price spread Hspread Hprice Hlow Hhigh)
    as (bid & Hbid & Hbid_value).
  destruct (computePriceWithSpread_ask asset price spread Hspread) as (ask & Hask & Hask_value).
  exists bid, ask. repeat (split; [assumption |]).
  rewrite Hbid_value, Hask_value. repeat split; nra.
Qed.

(** X2. With a half spread that is not zero, the bid of a positive price
    fails with [BugError] exactly when the half spread is one or more;
    the ask never fails. *)
Theorem computePriceWithSpread_bug_iff :
  forall (asset : Asset) (price spread : Q) (spreadType : SpreadType),
    Asset.halfSpread asset = Finite spread ->
    (0 < price)%Q -> ~ (spread == 0)%Q ->
    (computePriceWithSpread (Some asset) (Finite price) spreadType
     = inl (BugError (Finite price))
     <-> spreadType = Bid /\ (1 <= spread)%Q)
    /\ (forall e, computePriceWithSpread (Some asset) (Finite price) spreadType = inl e ->
        e = BugError (Finite price)).
Proof.
  intros asset price spread spreadType Hspread Hprice Hnonzero.
  unfold computePriceWithSpread, prop, rbind. rewrite Hspread.
  assert (Hne : eq (Finite spread) _0 = false)
    by (apply BigNumberFacts.eq_Finite_false; exact Hnonzero).
  rewrite Hne.
  destruct spreadType.
  - split; [split; [discriminate | intros [H _]; discriminate H] | discriminate].
  - destruct (lte (Finite price) (times (Finite price) (Finite spread))) eqn:Hlte.
    + apply BigNumberFacts.lte_Finite in Hlte. rewrite Qred_correct in Hlte.
      split; [| intros e He; congruence].
      split; [intros _; split; [reflexivity | nra] | reflexivity].
    + apply BigNumberFacts.lte_Finite_false in Hlte. rewrite Qred_correct in Hlte.
      split; [| discriminate].
      split; [discriminate | intros [_ H]; nra].
Qed.

(** A bid that is returned is not above the price. *)
Lemma computePriceWithSpread_bid_le (asset : Asset) (price spread : Q) (x : BigNumber) :
  Asset.halfSpread asset = Finite spread -> (0 < price)%Q -> (0 <= spread)%Q ->
  computePriceWithSpread (Some asset) (Finite price) Bid = inr x ->
  exists bid : Q, x = Finite bid /\ (0 < bid)%Q /\ (bid <= price)%Q.
Proof.
  intros Hspread Hprice Hlow. unfold computePriceWithSpread, prop, rbind. rewrite Hspread.
  destruct (eq (Finite spread) _0).
  - intros H. inversion H. exists price. repeat split; lra.
  - destruct (lte (Finite price) (times (Finite price) (Finite spread))) eqn:Hlte;
      [discriminate |].
    intros H. inversion H. eexists. split; [reflexivity |].
    apply BigNumberFacts.lte_Finite_false in Hlte. rewrite Qred_correct in Hlte.
    rewrite Qred_correct, Qred_correct. split; nra.
Qed.

(** An ask is not below the price. *)
Lemma computePriceWithSpread_ask_ge (asset : Asset) (price spread : Q) (x : BigNumber) :
  Asset.halfSpread asset = Finite spread -> (0 < price)%Q -> (0 <= spread)%Q ->
  computePriceWithSpread (Some asset) (Finite price) Ask = inr x ->
  exists ask : Q, x = Finite ask /\ (price <= ask)%Q.
Proof.
  intros Hspread Hprice Hlow.
  destruct (computePriceWithSpread_ask asset price spread Hspread) as (ask & -> & Hvalue).
  intros H. inversion H. exists ask. split; [reflexivity |]. rewrite Hvalue. nra.
Qed.

Section Pricing.

Variable decodeSubAccountId : string -> Result SubAccountId.t.

(** Everything a returned trading price went through. *)
Lemma computeTradingPrice_inr assets subAccountId prices isOpenPosition p :
  computeTradingPrice decodeSubAccountId assets subAccountId prices isOpenPosition = inr p ->
  exists sid collateralAsset asset rawAssetPrice,
    decodeSubAccountId subAccountId = inr sid
    /\ assets !! SubAccountId.collateralId sid = Some collateralAsset
    /\ assets !! SubAccountId.assetId sid = Some asset
    /\ prices !! Asset.symbol collateralAsset = Some (TradingPrice.collateralPrice p)
    /\ lte (TradingPrice.collateralPrice p) _0 = false
    /\ prices !! Asset.symbol asset = Some rawAssetPrice
    /\ lte rawAssetPrice _0 = false
    /\ computePriceWithSpread (Some asset) rawAssetPrice
         (tradingSpreadType isOpenPosition (SubAccountId.isLong sid))
       = inr (TradingPrice.assetPrice p).
Proof.
  intros H. unfold computeTradingPrice, rbind in H.
  destruct (decodeSubAccountId subAccountId) as [e|sid]; [discriminate H |].
  destruct (length assets <=? SubAccountId.collateralId sid)%nat; [discriminate H |].
  destruct (length assets <=? SubAccountId.assetId sid)%nat; [discriminate H |].
  destruct (assets !! SubAccountId.collateralId sid) as [collateralAsset|] eqn:Hcollateral;
    [| discriminate H].
  destruct (assets !! SubAccountId.assetId sid) as [asset|] eqn:Hasset; [| discriminate H].
  unfold prop in H.
  destruct (prices !! Asset.symbol collateralAsset) as [collateralPrice|] eqn:Hcp;
    [| destruct (inherited _); discriminate H].
  destruct (lte collateralPrice _0) eqn:Hcp_positive; [discriminate H |].
  destruct (prices !! Asset.symbol asset) as [assetPrice|] eqn:Hap;
    [| destruct (inherited _); discriminate H].
  destruct (lte assetPrice _0) eqn:Hap_positive; [discriminate H |].
  fold (tradingSpreadType isOpenPosition (SubAccountId.isLong sid)) in H.
  destruct (computePriceWithSpread (Some asset) assetPrice _) as [e|spreadPrice] eqn:Hspread;
    [discriminate H |].
  inversion H; subst p. simpl.
  exists sid, collateralAsset, asset, assetPrice.
  repeat (split; [first [assumption | reflexivity] |]). exact Hspread.
Qed.

(** X3. A trading price that [computeTradingPrice] returns has passed
    every check: both asset indices are within the asset list, the
    collateral price is the entry of the price dictionary, unchanged and
    not zero or below, and the asset price is the dictionary entry, not
    zero or below, moved by the spread. *)
Theorem computeTradingPrice_validated :
  forall (assets : list Asset) (subAccountId : string) (prices : PriceDict)
         (isOpenPosition : bool) (p : TradingPrice.t),
    computeTradingPrice decodeSubAccountId assets subAccountId prices isOpenPosition = inr p ->
    exists sid collateralAsset asset rawAssetPrice,
      decodeSubAccountId subAccountId = inr sid
      /\ (SubAccountId.collateralId sid < length assets)%nat
      /\ (SubAccountId.assetId sid < length assets)%nat
      /\ assets !! SubAccountId.collateralId sid = Some collateralAsset
      /\ assets !! SubAccountId.assetId sid = Some asset
      /\ prices !! Asset.symbol collateralAsset = Some (TradingPrice.collateralPrice p)
      /\ lte (TradingPrice.collateralPrice p) _0 = false
      /\ prices !! Asset.symbol asset = Some rawAssetPrice
      /\ lte rawAssetPrice _0 = false
      /\ computePriceWithSpread (Some asset) rawAssetPrice
           (if isOpenPosition then (if SubAccountId.isLong sid then Ask else Bid)
            else (if SubAccountId.isLong sid then Bid else Ask))
         = inr (TradingPrice.assetPrice p).
Proof.
  intros assets subAccountId prices isOpenPosition p H.
  destruct (computeTradingPrice_inr _ _ _ _ _ H)
    as (sid & collateralAsset & asset & raw & Hid & Hcollateral & Hasset & Hcp & Hcp_positive
        & Hap & Hap_positive & Hspread).
  exists sid, collateralAsset, asset, raw.
  split; [exact Hid |].
  split; [eapply lookup_lt_Some; exact Hcollateral |].
  split; [eapply lookup_lt_Some; exact Hasset |].
  repeat (split; [assumption |]). exact Hspread.
Qed.

(** X4. The trader crosses the spread: with a finite price and a half
    spread that is not negative, a long position opens at or above the
    reference price and closes at or below it, a short position opens at
    or below and closes at or above; the collateral price is the same on
    both sides. *)
Theorem computeTradingPrice_crosses_the_spread :
  forall (assets : list Asset) (subAccountId : string) (prices : PriceDict)
         (sid : SubAccountId.t) (asset : Asset) (reference spread : Q)
         (opening closing : TradingPrice.t),
    decodeSubAccountId subAccountId = inr sid ->
    assets !! SubAccountId.assetId sid = Some asset ->
    prices !! Asset.symbol asset = Some (Finite reference) ->
    Asset.halfSpread asset = Finite spread ->
    (0 <= spread)%Q ->
    computeTradingPrice decodeSubAccountId assets subAccountId prices true = inr opening ->
    computeTradingPrice decodeSubAccountId assets subAccountId prices false = inr closing ->
    TradingPrice.collateralPrice opening = TradingPrice.collateralPrice closing
    /\ exists open close : Q,
         TradingPrice.assetPrice opening = Finite open
         /\ TradingPrice.assetPrice closing = Finite close
         /\ (0 < close)%Q /\ (0 < open)%Q
         /\ if SubAccountId.isLong sid
            then (close <= reference)%Q /\ (reference <= open)%Q
            else (open <= reference)%Q /\ (reference <= close)%Q.
Proof.
  intros assets subAccountId prices sid asset reference spread opening closing
    Hid Hasset Hprice Hspread Hlow Hopen Hclose.
  destruct (computeTradingPrice_inr _ _ _ _ _ Hopen)
    as (sid1 & collateral1 & asset1 & raw1 & Hid1 & Hcollateral1 & Hasset1 & Hcp1 & _
        & Hap1 & Hpositive & Hspread1).
  destruct (computeTradingPrice_inr _ _ _ _ _ Hclose)
    as (sid2 & collateral2 & asset2 & raw2 & Hid2 & Hcollateral2 & Hasset2 & Hcp2 & _
        & Hap2 & _ & Hspread2).
  assert (sid1 = sid) by congruence. assert (sid2 = sid) by congruence. subst sid1 sid2.
  assert (asset1 = asset) by congruence. assert (asset2 = asset) by congruence.
  subst asset1 asset2.
  assert (collateral2 = collateral1) by congruence. subst collateral2.
  assert (raw1 = Finite reference) by congruence.
  assert (raw2 = Finite reference) by congruence. subst raw1 raw2.
  apply BigNumberFacts.lte_Finite_false in Hpositive.
  split; [congruence |].
  unfold tradingSpreadType in Hspread1, Hspread2.
  destruct (SubAccountId.isLong sid).
  - destruct (computePriceWithSpread_ask_ge _ _ _ _ Hspread Hpositive Hlow Hspread1)
      as (open & Hopen_value & Hopen_ge).
    destruct (computePriceWithSpread_bid_le _ _ _ _ Hspread Hpositive Hlow Hspread2)
      as (close & Hclose_value & Hclose_positive & Hclose_le).
    exists open, close. repeat split; try assumption; lra.
  - destruct (computePriceWithSpread_bid_le _ _ _ _ Hspread Hpositive Hlow Hspread1)
      as (open & Hopen_value & Hopen_positive & Hopen_le).
    destruct (computePriceWithSpread_ask_ge _ _ _ _ Hspread Hpositive Hlow Hspread2)
      as (close & Hclose_value & Hclose_ge).
    exists open, close. repeat split; try assumption; lra.
Qed.

End Pricing.

(** X5. [computeLiquidityPrice] on a priced asset with a half spread in
    [0, 1): adding liquidity is priced at the bid and removing at the ask,
    so that [0 < add <= reference <= remove]. *)
Theorem computeLiquidityPrice_brackets_price :
  forall (assets : list Asset) (prices : PriceDict) (tokenId : nat) (asset : Asset)
         (reference spread : Q),
    assets !! tokenId = Some asset ->
    prices !! Asset.symbol asset = Some (Finite reference) ->
    Asset.halfSpread asset = Finite spread ->
    (0 < reference)%Q -> (0 <= spread)%Q -> (spread < 1)%Q ->
    exists add remove : Q,
      computeLiquidityPrice assets prices tokenId true = inr (Finite add)
      /\ computeLiquidityPrice assets prices tokenId false = inr (Finite remove)
      /\ (add == reference * (1 - spread))%Q
      /\ (remove == reference * (1 + spread))%Q
      /\ (0 < add)%Q /\ (add <= reference)%Q /\ (reference <= remove)%Q.
Proof.
  intros assets prices tokenId asset reference spread Hasset Hprice Hspread Hpositive
    Hlow Hhigh.
  destruct (computePriceWithSpread_bid asset reference spread Hspread Hpositive Hlow Hhigh)
    as (add & Hadd & Hadd_value).
  destruct (computePriceWithSpread_ask asset reference spread Hspread)
    as (remove & Hremove & Hremove_value).
  assert (Hrange : (length assets <=? tokenId)%nat = false).
  { apply Nat.leb_gt. eapply lookup_lt_Some. exact Hasset. }
  assert (Hlte : lte (Finite reference) _0 = false).
  { apply BigNumberFacts.lte_Finite_false. exact Hpositive. }
  exists add, remove.
  split; [| split].
  - unfold computeLiquidityPrice, rbind, prop.
    rewrite JsNumberFacts.gte_of_nat, Hrange, !JsNumberFacts.item_of_nat, Hasset, Hprice,
      Hlte.
    exact Hadd.
  - unfold computeLiquidityPrice, rbind, prop.
    rewrite JsNumberFacts.gte_of_nat, Hrange, !JsNumberFacts.item_of_nat, Hasset, Hprice,
      Hlte.
    exact Hremove.
  - repeat (split; [assumption |]). rewrite Hadd_value, Hremove_value.
    repeat split; nra.
Qed.



(** ** Realizing profit and loss *)

Lemma gt_Finite_false p q : gt (Finite p) (Finite q) = false <-> (p <= q)%Q.
Proof.
  unfold gt, BigNumber.comparedTo.
  destruct (Qcompare_spec p q) as [H|H|H]; split; intros H'; try congruence; lra.
Qed.

(** Rounding keeps a value that is not negative so. *)
Lemma round_nonneg (places : Z) (rm : BigNumber.RoundingMode) (q : Q) :
  0 <= places -> (0 <= q)%Q -> (0 <= BigNumber.round places rm q)%Q.
Proof.
  intros Hplaces Hq. unfold BigNumber.round. rewrite Qred_correct.
  destruct q as [n d]. unfold Qle in Hq. simpl in Hq. simpl Qnum. simpl Qden.
  assert (Hscale : 0 < 10 ^ places) by (apply Z.pow_pos_nonneg; lia).
  assert (HN : 0 <= n * 10 ^ places) by nia.
  unfold Qle. simpl. rewrite Z.mul_1_r.
  apply Z.mul_nonneg_nonneg.
  - apply Z.sgn_nonneg. exact HN.
  - destruct rm; apply Z.div_pos; lia.
Qed.

(** The quotient of a finite value by a finite value that is not zero. *)
Lemma div_Finite (p q : Q) :
  ~ (q == 0)%Q ->
  div (Finite p) (Finite q)
  = Finite (BigNumber.round BigNumber.DECIMAL_PLACES BigNumber.ROUNDING_MODE (p / q)).
Proof. intros H. unfold div. rewrite (is_zero_false q H). reflexivity. Qed.

Lemma minimum_Finite (p q : Q) :
  BigNumber.minimum (Finite p) (Finite q)
  = if gt (Finite p) (Finite q) then Finite q else Finite p.
Proof. reflexivity. Qed.

(** X7. [computeRealizeProfit] with finite amounts, a positive price
    and a spot liquidity that is not negative: the fee is deducted from
    the profit first, [deductUsd] being the smaller of the two; when the
    profit does not exceed the fee nothing is transferred; otherwise what
    is left, in units of the profit asset, is paid in full: from the spot
    liquidity alone when it covers the payout, and otherwise the whole
    spot liquidity and the rest, and no more, in debt tokens. *)
Theorem computeRealizeProfit_pays_in_full :
  forall (asset : Asset) (profit fee price liquidity : Q),
    Asset.spotLiquidity asset = Finite liquidity ->
    (0 <= liquidity)%Q -> (0 < price)%Q ->
    exists deduct transferred debt : Q,
      computeRealizeProfit (Finite profit) (Finite fee) (Some asset) (Finite price)
      = inr {| RealizeProfit.deductUsd := Finite deduct;
               RealizeProfit.profitAssetTransferred := Finite transferred;
               RealizeProfit.bitoroTokenTransferred := Finite debt |}
      /\ (deduct <= profit)%Q /\ (deduct <= fee)%Q
      /\ (0 <= transferred)%Q /\ (transferred <= liquidity)%Q /\ (0 <= debt)%Q
      /\ ((0 < debt)%Q -> (transferred == liquidity)%Q)
      /\ ((profit <= fee)%Q ->
          (deduct == profit)%Q /\ (transferred == 0)%Q /\ (debt == 0)%Q)
      /\ ((fee < profit)%Q ->
          (deduct == fee)%Q
          /\ exists payout : Q,
               div (minus (Finite profit) (Finite fee)) (Finite price) = Finite payout
               /\ (0 <= payout)%Q
               /\ ((payout <= liquidity)%Q ->
                   (transferred == payout)%Q /\ (debt == 0)%Q)
               /\ ((liquidity < payout)%Q ->
                   (transferred == liquidity)%Q /\ (debt == payout - liquidity)%Q)).
Proof.
  intros asset profit fee price liquidity Hliquidity Hnonneg Hprice.
  unfold computeRealizeProfit, prop, rbind.
  rewrite Hliquidity, minimum_Finite.
  destruct (gt (Finite profit) (Finite fee)) eqn:Hcovered.
  - (* the profit exceeds the fee *)
    apply BigNumberFacts.gt_Finite in Hcovered.
    assert (Hleft : gt (minus (Finite profit) (Finite fee)) _0 = true).
    { apply BigNumberFacts.gt_Finite. rewrite Qred_correct. lra. }
    rewrite Hleft.
    assert (Hdiv : exists payout : Q,
               div (minus (Finite profit) (Finite fee)) (Finite price) = Finite payout
               /\ (0 <= payout)%Q).
    { unfold minus. rewrite div_Finite by lra. eexists. split; [reflexivity |].
      apply round_nonneg; [discriminate |]. rewrite Qred_correct.
      apply Qle_shift_div_l; [exact Hprice | lra]. }
    destruct Hdiv as (payout & Hdiv & Hpayout). rewrite Hdiv.
    rewrite minimum_Finite.
    assert (Hpaid : exists transferred debt : Q,
               (if gt (if gt (Finite payout) (Finite liquidity) then Finite liquidity
                       else Finite payout) _0
                then if gt (Finite payout) (Finite liquidity) then Finite liquidity
                     else Finite payout
                else _0) = Finite transferred
               /\ (if gt (minus (Finite payout)
                            (if gt (Finite payout) (Finite liquidity)
                             then Finite liquidity else Finite payout)) _0
                   then minus (Finite payout)
                          (if gt (Finite payout) (Finite liquidity)
                           then Finite liquidity else Finite payout)
                   else _0) = Finite debt
               /\ ((payout <= liquidity)%Q -> (transferred == payout)%Q /\ (debt == 0)%Q)
               /\ ((liquidity < payout)%Q ->
                   (transferred == liquidity)%Q /\ (debt == payout - liquidity)%Q)).
    { destruct (gt (Finite payout) (Finite liquidity)) eqn:Hspot.
      - (* the spot liquidity falls short *)
        apply BigNumberFacts.gt_Finite in Hspot.
        assert (Hdebt : gt (minus (Finite payout) (Finite liquidity)) _0 = true).
        { apply BigNumberFacts.gt_Finite. rewrite Qred_correct. lra. }
        rewrite Hdebt.
        destruct (gt (Finite liquidity) _0) eqn:Hsome.
        + exists liquidity, (Qred (payout - liquidity)).
          split; [reflexivity |]. split; [reflexivity |].
          split; [intros; lra |]. intros _. rewrite Qred_correct. split; reflexivity.
        + apply gt_Finite_false in Hsome.
          exists 0%Q, (Qred (payout - liquidity)).
          split; [reflexivity |]. split; [reflexivity |].
          split; [intros; lra |]. intros _. rewrite Qred_correct.
          split; [lra | reflexivity].
      - (* the spot liquidity covers the payout *)
        apply gt_Finite_false in Hspot.
        assert (Hdebt : gt (minus (Finite payout) (Finite payout)) _0 = false).
        { apply gt_Finite_false. rewrite Qred_correct. lra. }
        rewrite Hdebt.
        destruct (gt (Finite payout) _0) eqn:Hsome.
        + exists payout, 0%Q.
          split; [reflexivity |]. split; [reflexivity |].
          split; [intros _; split; reflexivity | intros; lra].
        + apply gt_Finite_false in Hsome.
          exists 0%Q, 0%Q.
          split; [reflexivity |]. split; [reflexivity |].
          split; [intros _; split; [lra | reflexivity] | intros; lra]. }
    destruct Hpaid as (transferred & debt & -> & -> & Hcovers & Hshort).
    exists fee, transferred, debt. split; [reflexivity |].
    assert (Hcases : (payout <= liquidity)%Q \/ (liquidity < payout)%Q) by lra.
    assert (Hbounds : (0 <= transferred)%Q /\ (transferred <= liquidity)%Q
                      /\ (0 <= debt)%Q /\ ((0 < debt)%Q -> (transferred == liquidity)%Q)).
    { destruct Hcases as [Hcase | Hcase].
      - destruct (Hcovers Hcase) as [Ht Hd]. rewrite Ht, Hd.
        repeat split; first [lra | intros; lra].
      - destruct (Hshort Hcase) as [Ht Hd]. rewrite Ht, Hd.
        repeat split; first [lra | intros; lra | intros; reflexivity]. }
    destruct Hbounds as (Hb1 & Hb2 & Hb3 & Hb4).
    split; [lra |]. split; [lra |].
    split; [exact Hb1 |]. split; [exact Hb2 |]. split; [exact Hb3 |].
    split; [exact Hb4 |].
    split; [intros Hle; lra |].
    intros _. split; [reflexivity |].
    exists payout. repeat split; first [assumption | apply Hcovers; assumption
                                       | apply Hshort; assumption].
  - (* the fee takes the whole profit *)
    apply gt_Finite_false in Hcovered.
    assert (Hleft : gt (minus (Finite profit) (Finite profit)) _0 = false).
    { apply gt_Finite_false. rewrite Qred_correct. lra. }
    rewrite Hleft.
    exists profit, 0%Q, 0%Q. split; [reflexivity |].
    split; [lra |]. split; [lra |].
    split; [lra |]. split; [lra |]. split; [lra |].
    split; [intros Habsurd; lra |].
    split; [intros _; repeat split; reflexivity |].
    intros Hlt. lra.
Qed.

(** [x.gt(y)] is [y.lt(x)]. *)
Lemma gt_lt_swap (x y : BigNumber) : gt x y = lt y x.
Proof.
  destruct x as [| a | p], y as [| b | q]; try reflexivity.
  - destruct a, b; reflexivity.
  - destruct a; reflexivity.
  - destruct b; reflexivity.
  - unfold gt, lt. simpl. rewrite <- (Qcompare_antisym p q).
    destruct (p ?= q)%Q; reflexivity.
Qed.

(** Where the strict test passes, the lenient clamp changes nothing that
    is left after the subtraction. *)
Lemma minus_minimum (collateral owed : BigNumber) :
  lt collateral owed = false ->
  minus collateral (BigNumber.minimum owed collateral) = minus collateral owed.
Proof.
  intros Hlt. unfold BigNumber.minimum, BigNumber.min.
  rewrite gt_lt_swap, Hlt.
  destruct owed as [| b | q], collateral as [| a | p]; reflexivity.
Qed.

(** X8. The two modes of [computeRealizeLoss] differ only on a loss the
    collateral cannot cover: there the strict mode throws 'bankrupt' and
    leaves the account as it was, while the lenient mode takes the whole
    collateral; on every other loss both modes return with the same
    account. *)
Theorem computeRealizeLoss_modes :
  forall (w : World) (subAccount : ref) (account : SubAccount)
         (collateralPrice lossUsd : BigNumber),
    heap w !! subAccount = Some account ->
    let collateral := SubAccount.collateral account in
    if negb (eq lossUsd _0) && lt collateral (div lossUsd collateralPrice) then
      computeRealizeLoss subAccount collateralPrice lossUsd true w
      = (w, inl (JsError "bankrupt"))
      /\ computeRealizeLoss subAccount collateralPrice lossUsd false w
         = ({| heap := <[subAccount :=
                          SubAccount.with_collateral (minus collateral collateral) account]>
                         (heap w);
               clk := clk w |}, inr tt)
    else
      computeRealizeLoss subAccount collateralPrice lossUsd true w
      = computeRealizeLoss subAccount collateralPrice lossUsd false w
      /\ snd (computeRealizeLoss subAccount collateralPrice lossUsd true w) = inr tt.
Proof.
  intros w subAccount account collateralPrice lossUsd Hlookup collateral.
  unfold computeRealizeLoss.
  destruct (eq lossUsd _0) eqn:Hzero; simpl negb; simpl andb.
  - split; reflexivity.
  - rewrite !(bind_deref _ _ _ _ Hlookup). fold collateral.
    destruct (lt collateral (div lossUsd collateralPrice)) eqn:Hlt.
    + split; [reflexivity |].
      unfold assign. rewrite Hlookup.
      unfold BigNumber.minimum, BigNumber.min. rewrite gt_lt_swap, Hlt.
      destruct (div lossUsd collateralPrice), collateral; try discriminate; reflexivity.
    + rewrite minus_minimum by exact Hlt.
      split; [reflexivity |]. unfold assign. rewrite Hlookup. reflexivity.
Qed.

Lemma computeRealizeLoss_modes_witness :
  computeRealizeLoss 0%nat (Finite 1) (Finite 500) true (exampleWorld 0)
  = (exampleWorld 0, inl (JsError "bankrupt"))
  /\ computeRealizeLoss 0%nat (Finite 1) (Finite 500) false (exampleWorld 0)
     = ({| heap := [SubAccount.with_collateral _0 exampleAccount];
           clk := clk (exampleWorld 0) |}, inr tt).
Proof.
  exact (computeRealizeLoss_modes (exampleWorld 0) 0%nat exampleAccount (Finite 1)
           (Finite 500) eq_refl).
Defined.

Lemma assign_run (l : ref) (upd : SubAccount -> SubAccount) (w : World) (a : SubAccount) :
  heap w !! l = Some a ->
  assign l upd w = ({| heap := <[l := upd a]> (heap w); clk := clk w |}, inr tt).
Proof. intros H. unfold assign. rewrite H. reflexivity. Qed.

(** X9. A loss that is not negative, at a positive price, never raises the
    collateral and never takes it below zero, in either mode: the
    lenient mode always returns, and whenever [computeRealizeLoss]
    returns the account holds a collateral between zero and the one it
    had, every other field and the clock being as before. *)
Theorem computeRealizeLoss_collateral_range :
  forall (w : World) (subAccount : ref) (account : SubAccount)
         (c price loss : Q) (isThrowBankrupt : bool),
    heap w !! subAccount = Some account ->
    SubAccount.collateral account = Finite c ->
    (0 <= c)%Q -> (0 <= loss)%Q -> (0 < price)%Q ->
    (exists w',
        computeRealizeLoss subAccount (Finite price) (Finite loss) false w = (w', inr tt))
    /\ forall w',
         computeRealizeLoss subAccount (Finite price) (Finite loss) isThrowBankrupt w
         = (w', inr tt) ->
         exists c' : Q,
           heap w' !! subAccount = Some (SubAccount.with_collateral (Finite c') account)
           /\ (0 <= c')%Q /\ (c' <= c)%Q /\ clk w' = clk w.
Proof.
  intros w subAccount account c price loss isThrowBankrupt Hlookup Hc Hnonneg Hloss Hprice.
  assert (Hrange : (subAccount < length (heap w))%nat)
    by (eapply lookup_lt_Some; exact Hlookup).
  unfold computeRealizeLoss.
  destruct (eq (Finite loss) _0) eqn:Hzero.
  - split; [eexists; reflexivity |].
    intros w' Hrun. injection Hrun as <-. exists c.
    rewrite <- Hc, with_collateral_same. repeat split; try lra. exact Hlookup.
  - rewrite !(bind_deref _ _ _ _ Hlookup), Hc.
    rewrite div_Finite by lra.
    set (owed := BigNumber.round _ _ _).
    assert (Howed : (0 <= owed)%Q).
    { apply round_nonneg; [discriminate |].
      apply Qle_shift_div_l; [exact Hprice | lra]. }
    rewrite minimum_Finite.
    split; [rewrite (assign_run _ _ _ _ Hlookup); eexists; reflexivity |].
    intros w' Hrun.
    assert (Hkept : exists c' : Q,
               w' = {| heap := <[subAccount := SubAccount.with_collateral (Finite c') account]>
                                 (heap w);
                       clk := clk w |}
               /\ (0 <= c')%Q /\ (c' <= c)%Q).
    { destruct (gt (Finite owed) (Finite c)) eqn:Hgt.
      - apply BigNumberFacts.gt_Finite in Hgt.
        destruct isThrowBankrupt.
        + replace (lt (Finite c) (Finite owed)) with true in Hrun
            by (symmetry; apply BigNumberFacts.lt_Finite; exact Hgt).
          discriminate Hrun.
        + rewrite (assign_run _ _ _ _ Hlookup) in Hrun. injection Hrun as <-.
          eexists. split; [reflexivity |]. rewrite Qred_correct. split; lra.
      - apply gt_Finite_false in Hgt.
        replace (lt (Finite c) (Finite owed)) with false in Hrun
          by (symmetry; apply BigNumberFacts.lt_Finite_false; exact Hgt).
        assert (Hsame : assign subAccount
                          (SubAccount.with_collateral (minus (Finite c) (Finite owed))) w
                        = (w', inr tt))
          by (destruct isThrowBankrupt; exact Hrun).
        rewrite (assign_run _ _ _ _ Hlookup) in Hsame. injection Hsame as <-.
        eexists. split; [reflexivity |]. rewrite Qred_correct. split; lra. }
    destruct Hkept as (c' & -> & Hlow & Hhigh).
    exists c'. simpl. rewrite list_lookup_insert_eq by exact Hrange.
    repeat split; assumption.
Qed.

Lemma computeRealizeLoss_collateral_range_witness :
  exists c' : Q,
    [SubAccount.with_collateral (Finite 70) exampleAccount] !! 0%nat
    = Some (SubAccount.with_collateral (Finite c') exampleAccount)
    /\ (0 <= c')%Q /\ (c' <= 100)%Q.
Proof.
  assert (Hrun : computeRealizeLoss 0%nat (Finite 1) (Finite 30) true (exampleWorld 0)
                 = ({| heap := [SubAccount.with_collateral (Finite 70) exampleAccount];
                       clk := clk (exampleWorld 0) |}, inr tt))
    by (vm_compute; reflexivity).
  assert (H0 : (0 <= 100)%Q) by (vm_compute; discriminate).
  assert (H1 : (0 <= 30)%Q) by (vm_compute; discriminate).
  assert (H2 : (0 < 1)%Q) by reflexivity.
  destruct (computeRealizeLoss_collateral_range (exampleWorld 0) 0%nat exampleAccount
              100 1 30 true eq_refl eq_refl H0 H1 H2) as [_ Hrange].
  destruct (Hrange _ Hrun) as (c' & Hheap & Hlow & Hhigh & _).
  exists c'. repeat split; assumption.
Defined.

(** ** Funding rates *)

Lemma maximum_Finite (p q : Q) :
  BigNumber.maximum (Finite p) (Finite q)
  = if lt (Finite p) (Finite q) then Finite q else Finite p.
Proof. reflexivity. Qed.

Lemma computeSingleFundingRate8H_Finite (base limit utilization : Q) :
  (utilization <= 1)%Q ->
  exists rate : Q,
    computeSingleFundingRate8H (Finite base) (Finite limit) (Finite utilization)
    = inr (Finite rate)
    /\ (base <= rate)%Q /\ (utilization * limit <= rate)%Q
    /\ (rate == base \/ rate == utilization * limit)%Q.
Proof.
  intros Hu. unfold computeSingleFundingRate8H.
  replace (gt (Finite utilization) _1) with false
    by (symmetry; apply gt_Finite_false; exact Hu).
  unfold times. rewrite maximum_Finite.
  destruct (lt (Finite (Qred (utilization * limit))) (Finite base)) eqn:Hlt.
  - apply BigNumberFacts.lt_Finite in Hlt. rewrite Qred_correct in Hlt.
    exists base. split; [reflexivity |]. repeat split; first [lra | left; reflexivity].
  - apply BigNumberFacts.lt_Finite_false in Hlt. rewrite Qred_correct in Hlt.
    eexists. split; [reflexivity |]. rewrite Qred_correct.
    repeat split; first [lra | right; reflexivity].
Qed.

(** X10. The funding-rate curve of [computeSingleFundingRate8H] on finite
    values: above 100% utilization the call is rejected; up to 100% the
    rate is the larger of the base rate and [utilization * limit], so that
    with [0 <= limit] and [base <= limit] it lies between the base and
    the limit rate and reaches the limit at 100%. *)
Theorem computeSingleFundingRate8H_curve :
  forall (base limit utilization : Q),
    ((1 < utilization)%Q ->
     computeSingleFundingRate8H (Finite base) (Finite limit) (Finite utilization)
     = inl (InvalidArgumentError UtilizationAbove100))
    /\ ((utilization <= 1)%Q ->
        exists rate : Q,
          computeSingleFundingRate8H (Finite base) (Finite limit) (Finite utilization)
          = inr (Finite rate)
          /\ (base <= rate)%Q /\ (utilization * limit <= rate)%Q
          /\ (rate == base \/ rate == utilization * limit)%Q
          /\ ((0 <= limit)%Q -> (base <= limit)%Q -> (rate <= limit)%Q)
          /\ ((utilization == 1)%Q -> (base <= limit)%Q -> (rate == limit)%Q)).
Proof.
  intros base limit utilization. split.
  - intros Hu. unfold computeSingleFundingRate8H.
    replace (gt (Finite utilization) _1) with true
      by (symmetry; apply BigNumberFacts.gt_Finite; exact Hu).
    reflexivity.
  - intros Hu.
    destruct (computeSingleFundingRate8H_Finite base limit utilization Hu)
      as (rate & Hrun & Hbase & Hline & Hcase).
    exists rate. repeat split; try assumption.
    + intros Hlimit Hle. destruct Hcase as [-> | ->]; [exact Hle |]. nra.
    + intros Hone Hle. destruct Hcase as [Hcase | Hcase]; rewrite Hcase.
      * rewrite Hone in Hline. lra.
      * rewrite Hone. ring.
Qed.

(** X11. With a limit rate that is not negative, the funding rate does
    not fall when the utilization rises. *)
Theorem computeSingleFundingRate8H_monotone :
  forall (base limit lower higher : Q),
    (0 <= limit)%Q -> (lower <= higher)%Q -> (higher <= 1)%Q ->
    exists low high : Q,
      computeSingleFundingRate8H (Finite base) (Finite limit) (Finite lower)
      = inr (Finite low)
      /\ computeSingleFundingRate8H (Finite base) (Finite limit) (Finite higher)
         = inr (Finite high)
      /\ (low <= high)%Q.
Proof.
  intros base limit lower higher Hlimit Hle Hone.
  destruct (computeSingleFundingRate8H_Finite base limit lower ltac:(lra))
    as (low & Hlow & Hbase & _ & Hcase).
  destruct (computeSingleFundingRate8H_Finite base limit higher Hone)
    as (high & Hhigh & Hbase' & Hline & _).
  exists low, high. repeat split; try assumption.
  destruct Hcase as [-> | ->]; [exact Hbase' |]. nra.
Qed.

Lemma computeSingleFundingRate8H_monotone_witness :
  exists low high : Q,
    computeSingleFundingRate8H (Finite (1 # 1000)) (Finite (1 # 100)) (Finite (1 # 20))
    = inr (Finite low)
    /\ computeSingleFundingRate8H (Finite (1 # 1000)) (Finite (1 # 100)) (Finite (1 # 2))
       = inr (Finite high)
    /\ (low <= high)%Q.
Proof.
  apply (computeSingleFundingRate8H_monotone (1 # 1000) (1 # 100) (1 # 20) (1 # 2));
    vm_compute; discriminate.
Defined.

(** X12. [computeFundingRate8H] is rejected exactly when one of the two
    utilizations is above 100%, and for no other reason; when it returns,
    the short rate is the single rate of the pool's parameters at the
    stable utilization and the long rate that of the asset's parameters at
    the unstable utilization. *)
Theorem computeFundingRate8H_rejects_iff :
  forall (pool : LiquidityPool) (asset : Asset)
         (stableUtilization unstableUtilization : BigNumber),
    ((exists e, computeFundingRate8H pool asset stableUtilization unstableUtilization = inl e)
     <-> gt stableUtilization _1 = true \/ gt unstableUtilization _1 = true)
    /\ (forall e,
           computeFundingRate8H pool asset stableUtilization unstableUtilization = inl e ->
           e = InvalidArgumentError UtilizationAbove100)
    /\ (forall rates,
           computeFundingRate8H pool asset stableUtilization unstableUtilization = inr rates ->
           computeSingleFundingRate8H (LiquidityPool.shortFundingBaseRate8H pool)
             (LiquidityPool.shortFundingLimitRate8H pool) stableUtilization
           = inr (FundingRate8H.shortFundingRate8H rates)
           /\ computeSingleFundingRate8H (Asset.longFundingBaseRate8H asset)
                (Asset.longFundingLimitRate8H asset) unstableUtilization
              = inr (FundingRate8H.longFundingRate8H rates)).
Proof.
  intros pool asset stableUtilization unstableUtilization.
  unfold computeFundingRate8H, computeSingleFundingRate8H, rbind.
  destruct (gt stableUtilization _1), (gt unstableUtilization _1);
    repeat split;
    try (intros [e He]; first [discriminate He | (left; reflexivity) | (right; reflexivity)]);
    try (intros _; eexists; reflexivity);
    try (intros [H | H]; discriminate H);
    try (intros e He; first [discriminate He | (injection He as <-; reflexivity)]);
    try discriminate;
    match goal with H : inr _ = inr _ |- _ => injection H as <-; reflexivity end.
Qed.

(** ** The minimum-profit lock *)

(** X13. [computePositionPnlUsd] always returns, reads the clock at most
    once, and the minimum-profit lock hides nothing but a gain: the
    realizable pnl is the pending pnl or zero; it is the pending pnl, and
    the clock is not read, whenever the price has not moved in favour of
    the position; and it is the pending pnl once [minProfitTime] seconds
    have passed since the position was last increased. *)
Theorem computePositionPnlUsd_lock_hides_only_gains :
  forall (asset : Asset) (account : SubAccount) (isLong : bool)
         (amount assetPrice : BigNumber) (c : Clock),
    let priceDelta :=
      if isLong then minus assetPrice (SubAccount.entryPrice account)
      else minus (SubAccount.entryPrice account) assetPrice in
    exists (c' : Clock) (pnl : Pnl.t),
      computePositionPnlUsd (Some asset) account isLong amount assetPrice c = (c', inr pnl)
      /\ (Pnl.pnlUsd pnl = Pnl.pendingPnlUsd pnl \/ Pnl.pnlUsd pnl = _0)
      /\ (gt priceDelta _0 = false -> c' = c /\ Pnl.pnlUsd pnl = Pnl.pendingPnlUsd pnl)
      /\ (SubAccount.lastIncreasedTime account + Asset.minProfitTime asset
          <= ceil_seconds (readings c (reads c)) ->
          Pnl.pnlUsd pnl = Pnl.pendingPnlUsd pnl)
      /\ readings c' = readings c
      /\ (reads c' = reads c \/ reads c' = S (reads c)).
Proof.
  intros asset account isLong amount assetPrice c priceDelta.
  unfold computePositionPnlUsd. fold priceDelta.
  destruct (eq amount _0).
  { exists c. eexists. split; [reflexivity |]. simpl. tauto. }
  destruct (gt priceDelta _0).
  2: { exists c. eexists. split; [reflexivity |]. simpl. tauto. }
  unfold bind, Date_now, liftE, prop, ret.
  destruct (ceil_seconds (readings c (reads c))
            <? SubAccount.lastIncreasedTime account + Asset.minProfitTime asset)
    eqn:Hlocked.
  - apply Z.ltb_lt in Hlocked.
    destruct (lt (abs priceDelta)
                (times (Asset.minProfitRate asset) (SubAccount.entryPrice account))).
    + eexists. eexists. split; [reflexivity |]. simpl.
      repeat split; try tauto; try (intros; discriminate); try (intros; lia).
    + eexists. eexists. split; [reflexivity |]. simpl.
      repeat split; try tauto; try (intros; discriminate).
  - eexists. eexists. split; [reflexivity |]. simpl.
    repeat split; try tauto; try (intros; discriminate).
Qed.

(** X14. The lock window.  A position whose price has moved in its favour
    by less than [minProfitRate] of the entry price realizes nothing
    before [lastIncreasedTime + minProfitTime], in seconds rounded up, and
    its whole pending pnl, which is not zero, from then on. *)
Theorem computePositionPnlUsd_lock_window :
  forall (asset : Asset) (account : SubAccount) (isLong : bool)
         (amount price entry rate : Q) (c : Clock),
    SubAccount.entryPrice account = Finite entry ->
    Asset.minProfitRate asset = Finite rate ->
    ~ (amount == 0)%Q ->
    let delta := (if isLong then price - entry else entry - price)%Q in
    (0 < delta)%Q -> (delta < rate * entry)%Q ->
    let now := ceil_seconds (readings c (reads c)) in
    let unlocked := SubAccount.lastIncreasedTime account + Asset.minProfitTime asset in
    exists (c' : Clock) (pending realized : Q),
      computePositionPnlUsd (Some asset) account isLong (Finite amount) (Finite price) c
      = (c', inr {| Pnl.pendingPnlUsd := Finite pending; Pnl.pnlUsd := Finite realized |})
      /\ (pending == delta * amount)%Q
      /\ ~ (pending == 0)%Q
      /\ (now < unlocked -> (realized == 0)%Q)
      /\ (unlocked <= now -> realized = pending)
      /\ reads c' = S (reads c).
Proof.
  intros asset account isLong amount price entry rate c Hentry Hrate Hamount delta
         Hgain Hsmall now unlocked.
  unfold computePositionPnlUsd. rewrite Hentry.
  replace (eq (Finite amount) _0) with false
    by (symmetry; apply BigNumberFacts.eq_Finite_false; exact Hamount).
  assert (Hdelta : (if isLong then minus (Finite price) (Finite entry)
                    else minus (Finite entry) (Finite price))
                   = Finite (Qred delta)) by (destruct isLong; reflexivity).
  rewrite Hdelta.
  replace (gt (Finite (Qred delta)) _0) with true
    by (symmetry; apply BigNumberFacts.gt_Finite; rewrite Qred_correct; exact Hgain).
  unfold bind, Date_now, liftE, prop, ret. rewrite Hrate. fold now. fold unlocked.
  assert (Hpending : ~ (Qred (Qred delta * amount) == 0)%Q).
  { rewrite !Qred_correct. intros Hzero.
    apply Qmult_integral in Hzero. destruct Hzero as [Hzero | Hzero]; [lra | tauto]. }
  assert (Hbelow : lt (abs (Finite (Qred delta))) (times (Finite rate) (Finite entry)) = true).
  { apply BigNumberFacts.lt_Finite. rewrite !Qred_correct.
    rewrite Qabs_pos by lra. exact Hsmall. }
  rewrite Hbelow.
  destruct (now <? unlocked) eqn:Hlocked.
  - apply Z.ltb_lt in Hlocked.
    eexists. exists (Qred (Qred delta * amount)), 0%Q. split; [reflexivity |].
    repeat split; try assumption.
    + rewrite !Qred_correct. reflexivity.
    + intros Hlate. lia.
  - apply Z.ltb_ge in Hlocked.
    eexists. exists (Qred (Qred delta * amount)), (Qred (Qred delta * amount)).
    split; [reflexivity |].
    repeat split; try assumption.
    + rewrite !Qred_correct. reflexivity.
    + intros Hearly. lia.
Qed.

Lemma computePositionPnlUsd_lock_window_witness :
  exists (c' : Clock) (pending realized : Q),
    computePositionPnlUsd (Some ETH) exampleAccount true (Finite 10) (Finite (1005 # 10))
      (clk (exampleWorld 1010000))
    = (c', inr {| Pnl.pendingPnlUsd := Finite pending; Pnl.pnlUsd := Finite realized |})
    /\ (pending == 5)%Q /\ (realized == 0)%Q.
Proof.
  destruct (computePositionPnlUsd_lock_window ETH exampleAccount true 10 (1005 # 10) 100
              (1 # 100) (clk (exampleWorld 1010000)) eq_refl eq_refl)
    as (c' & pending & realized & Hrun & Hpending & _ & Hlocked & _);
    try (vm_compute; discriminate); try reflexivity.
  exists c', pending, realized. split; [exact Hrun |]. split.
  - rewrite Hpending. reflexivity.
  - apply Hlocked. reflexivity.
Defined.

(** ** Funding *)

(** X15. Funding is charged once: right after [_updateEntryFunding] has
    moved the account's funding snapshot to the asset's cumulative index,
    the funding fee of the account is zero, at any finite price. *)
Theorem funding_fee_settled_after_update :
  forall (w : World) (subAccount : ref) (account : SubAccount) (asset : Asset)
         (isLong : bool) (index size price : Q),
    heap w !! subAccount = Some account ->
    (if isLong then Asset.longCumulativeFundingRate asset
     else Asset.shortCumulativeFunding asset) = Finite index ->
    SubAccount.size account = Finite size ->
    exists (w' : World) (fee : BigNumber),
      _updateEntryFunding subAccount (Some asset) isLong w = (w', inr tt)
      /\ heap w' !! subAccount
         = Some (SubAccount.with_entryFunding (Finite index) account)
      /\ computeFundingFeeUsd (SubAccount.with_entryFunding (Finite index) account)
           (Some asset) isLong (Finite price) = inr fee
      /\ eq fee _0 = true.
Proof.
  intros w subAccount account asset isLong index size price Hlookup Hindex Hsize.
  assert (Hrange : (subAccount < length (heap w))%nat)
    by (eapply lookup_lt_Some; exact Hlookup).
  assert (Hrun : _updateEntryFunding subAccount (Some asset) isLong w
                 = ({| heap := <[subAccount := SubAccount.with_entryFunding (Finite index)
                                                 account]> (heap w);
                       clk := clk w |}, inr tt)).
  { unfold _updateEntryFunding.
    destruct isLong; rewrite bind_liftE; unfold prop; rewrite Hindex;
      apply assign_run; exact Hlookup. }
  assert (Hfee : exists fee : BigNumber,
             computeFundingFeeUsd (SubAccount.with_entryFunding (Finite index) account)
               (Some asset) isLong (Finite price) = inr fee
             /\ eq fee _0 = true).
  { unfold computeFundingFeeUsd, prop, rbind. simpl SubAccount.size.
    simpl SubAccount.entryFunding. rewrite Hsize.
    destruct (eq (Finite size) _0) eqn:Hflat.
    - exists _0. split; reflexivity.
    - destruct isLong; rewrite Hindex; eexists; (split; [reflexivity |]);
        apply BigNumberFacts.eq_Finite; rewrite !Qred_correct; ring. }
  destruct Hfee as (fee & Hfee & Hzero).
  eexists. exists fee. split; [exact Hrun |].
  split; [simpl; apply list_lookup_insert_eq; exact Hrange |].
  split; assumption.
Qed.

Lemma funding_fee_settled_after_update_witness :
  exists (w' : World) (fee : BigNumber),
    _updateEntryFunding 0%nat (Some ETH) true (exampleWorld 0) = (w', inr tt)
    /\ computeFundingFeeUsd (SubAccount.with_entryFunding (Finite 0) exampleAccount)
         (Some ETH) true (Finite 100) = inr fee
    /\ eq fee _0 = true.
Proof.
  destruct (funding_fee_settled_after_update (exampleWorld 0) 0%nat exampleAccount ETH true
              0 10 100 eq_refl eq_refl eq_refl) as (w' & fee & Hrun & _ & Hfee & Hzero).
  exists w', fee. repeat split; assumption.
Defined.

(** ** The snapshot of an account *)

(** Rounding a value that is zero gives zero. *)
Lemma round_zero (places : Z) (rm : BigNumber.RoundingMode) (q : Q) :
  (q == 0)%Q -> (BigNumber.round places rm q == 0)%Q.
Proof.
  intros Hq. unfold BigNumber.round. rewrite Qred_correct.
  destruct q as [n d]. unfold Qeq in Hq. simpl in Hq. simpl Qnum.
  assert (Hn : n = 0) by lia. subst n. reflexivity.
Qed.

Lemma min_Finite (p q : Q) :
  BigNumber.min (Finite p) (Finite q)
  = if gt (Finite p) (Finite q) then Finite q else Finite p.
Proof. reflexivity. Qed.

Lemma max_Finite (p q : Q) :
  BigNumber.max (Finite p) (Finite q)
  = if lt (Finite p) (Finite q) then Finite q else Finite p.
Proof. reflexivity. Qed.

Section Snapshot.

Variable decodeSubAccountId : string -> Result SubAccountId.t.

(** X16. The snapshot of a flat account.  For an account without a
    position, a collateral that is not negative and positive prices,
    [computeSubAccount] returns without reading the clock: funding fee,
    pnl, position value, effective leverage, withdrawable profit and
    liquidation price are zero, the margin balance is the value of the
    collateral, and the account is safe in all three senses. *)
Theorem computeSubAccount_flat :
  forall (assets : list Asset) (subAccountId : string) (subAccount : ref) (w : World)
         (sid : SubAccountId.t) (asset : Asset) (account : SubAccount)
         (size collateral collateralPrice assetPrice imr mmr : Q),
    decodeSubAccountId subAccountId = inr sid ->
    assets !! SubAccountId.assetId sid = Some asset ->
    heap w !! subAccount = Some account ->
    SubAccount.size account = Finite size -> (size == 0)%Q ->
    SubAccount.collateral account = Finite collateral -> (0 <= collateral)%Q ->
    Asset.initialMarginRate asset = Finite imr ->
    Asset.maintenanceMarginRate asset = Finite mmr ->
    (0 < collateralPrice)%Q -> (0 < assetPrice)%Q ->
    exists d : SubAccountDetails,
      computeSubAccount decodeSubAccountId assets subAccountId subAccount
        (Finite collateralPrice) (Finite assetPrice) w = (w, inr d)
      /\ SubAccountDetails.subAccount d = subAccount
      /\ SubAccountComputed.fundingFeeUsd (SubAccountDetails.computed d) = _0
      /\ SubAccountComputed.pendingPnlUsd (SubAccountDetails.computed d) = _0
      /\ SubAccountComputed.pnlUsd (SubAccountDetails.computed d) = _0
      /\ SubAccountComputed.liquidationPrice (SubAccountDetails.computed d) = _0
      /\ eq (SubAccountComputed.positionValueUsd (SubAccountDetails.computed d)) _0 = true
      /\ eq (SubAccountComputed.marginBalanceUsd (SubAccountDetails.computed d))
            (times (Finite collateral) (Finite collateralPrice)) = true
      /\ SubAccountComputed.isIMSafe (SubAccountDetails.computed d) = true
      /\ SubAccountComputed.isMMSafe (SubAccountDetails.computed d) = true
      /\ SubAccountComputed.isMarginSafe (SubAccountDetails.computed d) = true
      /\ eq (SubAccountComputed.effectiveLeverage (SubAccountDetails.computed d)) _0 = true
      /\ eq (SubAccountComputed.withdrawableProfit (SubAccountDetails.computed d)) _0 = true.
Proof.
  intros assets subAccountId subAccount w sid asset account size collateral collateralPrice
         assetPrice imr mmr Hdecode Hasset Hlookup Hsize Hflat Hcollateral Hnonneg Himr Hmmr
         Hcp Hap.
  assert (Hzero : eq (SubAccount.size account) _0 = true)
    by (rewrite Hsize; apply BigNumberFacts.eq_Finite; exact Hflat).
  destruct w as [h k].
  eexists. split.
  { unfold computeSubAccount.
    rewrite bind_liftE, Hdecode.
    rewrite (bind_deref _ _ _ _ Hlookup).
    unfold computeFundingFeeUsd, computePositionPnlUsd, _estimateLiquidationPrice.
    rewrite Hzero, Hasset.
    rewrite bind_liftE, bind_liftC. unfold ret at 1.
    rewrite !bind_liftE. unfold prop.
    reflexivity. }
  cbn [SubAccountDetails.subAccount SubAccountDetails.computed
    SubAccountComputed.fundingFeeUsd SubAccountComputed.pendingPnlUsd
    SubAccountComputed.pnlUsd SubAccountComputed.liquidationPrice
    SubAccountComputed.positionValueUsd SubAccountComputed.marginBalanceUsd
    SubAccountComputed.isIMSafe SubAccountComputed.isMMSafe SubAccountComputed.isMarginSafe
    SubAccountComputed.effectiveLeverage SubAccountComputed.withdrawableProfit Pnl.pnlUsd
    Pnl.pendingPnlUsd].
  rewrite Hsize, Hcollateral, Himr, Hmmr.
  assert (Hmargin : plus (times (Finite collateral) (Finite collateralPrice))
                      (minus _0 _0)
                    = Finite (Qred (Qred (collateral * collateralPrice) + Qred (0 - 0))))
    by reflexivity.
  rewrite Hmargin. clear Hmargin.
  set (margin := Qred (Qred (collateral * collateralPrice) + Qred (0 - 0))).
  assert (Hvalue : (margin == collateral * collateralPrice)%Q)
    by (unfold margin; rewrite !Qred_correct; ring).
  assert (Hposition : times (Finite assetPrice) (Finite size)
                      = Finite (Qred (assetPrice * size))) by reflexivity.
  rewrite Hposition. clear Hposition.
  set (position := Qred (assetPrice * size)).
  assert (Hnone : (position == 0)%Q)
    by (unfold position; rewrite Qred_correct, Hflat; ring).
  assert (Hcovered : (0 <= margin)%Q) by (rewrite Hvalue; nra).
  assert (Hprofit : exists x : Q,
             BigNumber.max _0
               (BigNumber.min
                  (minus (Finite margin)
                     (times (Finite position)
                        (BigNumber.maximum (Finite imr) (Finite (1 # 100)))))
                  (minus _0 _0)) = Finite x
             /\ (x == 0)%Q).
  { assert (Hsafe : exists safeImr : Q,
               BigNumber.maximum (Finite imr) (Finite (1 # 100)) = Finite safeImr)
      by (rewrite maximum_Finite; destruct (lt (Finite imr) (Finite (1 # 100)));
          eexists; reflexivity).
    destruct Hsafe as [safeImr ->].
    unfold minus, times, _0. rewrite min_Finite.
    destruct (gt (Finite (Qred (margin - Qred (position * safeImr))))
                (Finite (Qred (0 - 0)))) eqn:Hgt; rewrite max_Finite.
    - eexists. split; [reflexivity |]. reflexivity.
    - apply gt_Finite_false in Hgt. rewrite !Qred_correct in Hgt.
      destruct (lt (Finite 0) (Finite (Qred (margin - Qred (position * safeImr)))))
        eqn:Hlt.
      + apply BigNumberFacts.lt_Finite in Hlt. rewrite !Qred_correct in Hlt. lra.
      + eexists. split; reflexivity. }
  destruct Hprofit as (x & -> & Hx).
  repeat split.
  - apply BigNumberFacts.eq_Finite. exact Hnone.
  - apply BigNumberFacts.eq_Finite. rewrite Qred_correct. exact Hvalue.
  - apply BigNumberFacts.gte_Finite. rewrite Qred_correct, Hnone. lra.
  - apply BigNumberFacts.gte_Finite. rewrite Qred_correct, Hnone. lra.
  - apply BigNumberFacts.gte_Finite. exact Hcovered.
  - destruct (gt (Finite margin) _0) eqn:Hgt; [| reflexivity].
    apply BigNumberFacts.gt_Finite in Hgt.
    rewrite div_Finite by lra.
    apply BigNumberFacts.eq_Finite. apply round_zero. rewrite Hnone.
    unfold Qdiv. ring.
  - destruct (SubAccountId.isLong sid).
    + rewrite div_Finite by lra.
      apply BigNumberFacts.eq_Finite. apply round_zero. rewrite Hx.
      unfold Qdiv. ring.
    + apply BigNumberFacts.eq_Finite. exact Hx.
Qed.

(** X17. [computeSubAccount] does not validate the asset index: with an
    index outside the asset list it fails with a [TypeError] on the
    missing asset, whatever the account holds, and without reading the
    clock. *)
Theorem computeSubAccount_unknown_asset :
  forall (assets : list Asset) (subAccountId : string) (subAccount : ref) (w : World)
         (sid : SubAccountId.t) (account : SubAccount)
         (collateralPrice assetPrice : BigNumber),
    decodeSubAccountId subAccountId = inr sid ->
    heap w !! subAccount = Some account ->
    (length assets <= SubAccountId.assetId sid)%nat ->
    computeSubAccount decodeSubAccountId assets subAccountId subAccount collateralPrice
      assetPrice w = (w, inl TypeError).
Proof.
  intros assets subAccountId subAccount w sid account collateralPrice assetPrice
         Hdecode Hlookup Hmissing.
  apply lookup_ge_None_2 in Hmissing.
  destruct w as [h k].
  unfold computeSubAccount.
  rewrite bind_liftE, Hdecode.
  rewrite (bind_deref _ _ _ _ Hlookup).
  unfold computeFundingFeeUsd, computePositionPnlUsd.
  rewrite Hmissing.
  destruct (eq (SubAccount.size account) _0).
  - rewrite bind_liftE, bind_liftC. unfold ret at 1. rewrite bind_liftE. reflexivity.
  - rewrite bind_liftE. destruct (SubAccountId.isLong sid); reflexivity.
Qed.

Lemma computeTradingPrice_missing (assets : list Asset) (subAccountId : string)
    (prices : PriceDict) (isOpenPosition : bool) (sid : SubAccountId.t) :
  decodeSubAccountId subAccountId = inr sid ->
  (length assets <= SubAccountId.collateralId sid)%nat
  \/ (length assets <= SubAccountId.assetId sid)%nat ->
  computeTradingPrice decodeSubAccountId assets subAccountId prices isOpenPosition
  = inl (InvalidArgumentError
           (MissingAsset (if (length assets <=? SubAccountId.collateralId sid)%nat
                          then SubAccountId.collateralId sid
                          else SubAccountId.assetId sid))).
Proof.
  intros Hdecode Hmissing. unfold computeTradingPrice. rewrite Hdecode. unfold rbind.
  destruct (length assets <=? SubAccountId.collateralId sid)%nat eqn:Hcollateral;
    [reflexivity |].
  apply Nat.leb_gt in Hcollateral.
  destruct Hmissing as [Hmissing | Hmissing]; [lia |].
  apply Nat.leb_le in Hmissing. rewrite Hmissing. reflexivity.
Qed.

(** X18. The four simulations validate the asset indices before anything
    else is looked at: with a collateral or asset index outside the asset
    list each of them throws [InvalidArgumentError] for the missing
    asset, the collateral's first, whatever the prices, the amount, the
    gas fee and the profit asset are. *)
Theorem simulations_reject_missing_asset :
  forall (assets : list Asset) (subAccountId : string) (subAccount : ref) (w : World)
         (sid : SubAccountId.t) (account : SubAccount) (profitAssetId : number)
         (prices : PriceDict) (amount brokerGasFee : BigNumber),
    decodeSubAccountId subAccountId = inr sid ->
    heap w !! subAccount = Some account ->
    (length assets <= SubAccountId.collateralId sid)%nat
    \/ (length assets <= SubAccountId.assetId sid)%nat ->
    let missing :=
      InvalidArgumentError
        (MissingAsset (if (length assets <=? SubAccountId.collateralId sid)%nat
                       then SubAccountId.collateralId sid
                       else SubAccountId.assetId sid)) in
    snd (computeOpenPosition decodeSubAccountId assets subAccountId subAccount prices
           amount brokerGasFee w) = inl missing
    /\ snd (computeClosePosition decodeSubAccountId assets subAccountId subAccount
              profitAssetId prices amount brokerGasFee w) = inl missing
    /\ snd (computeWithdrawCollateral decodeSubAccountId assets subAccountId subAccount
              prices amount w) = inl missing
    /\ snd (computeWithdrawProfit decodeSubAccountId assets subAccountId subAccount
              profitAssetId prices amount w) = inl missing.
Proof.
  intros assets subAccountId subAccount w sid account profitAssetId prices amount
         brokerGasFee Hdecode Hlookup Hmissing missing.
  pose proof (computeTradingPrice_missing assets subAccountId prices true sid Hdecode
                Hmissing) as Hopen.
  pose proof (computeTradingPrice_missing assets subAccountId prices false sid Hdecode
                Hmissing) as Hclose.
  unfold computeOpenPosition, computeOpenPosition_context,
    computeClosePosition, computeClosePosition_context,
    computeWithdrawCollateral, computeWithdrawCollateral_context,
    computeWithdrawProfit, computeWithdrawProfit_context.
  unfold bind, cloneSubAccount, liftE.
  rewrite Hlookup, Hdecode, Hopen, Hclose.
  repeat split; reflexivity.
Qed.

End Snapshot.

Lemma computeSubAccount_flat_witness :
  exists d : SubAccountDetails,
    computeSubAccount exampleDecode exampleAssets "USDC-ETH-long" 0%nat (Finite 1)
      (Finite 100)
      {| heap := [SubAccount.with_size _0 exampleAccount]; clk := clk (exampleWorld 0) |}
    = ({| heap := [SubAccount.with_size _0 exampleAccount]; clk := clk (exampleWorld 0) |},
       inr d)
    /\ SubAccountComputed.isIMSafe (SubAccountDetails.computed d) = true
    /\ SubAccountComputed.liquidationPrice (SubAccountDetails.computed d) = _0.
Proof.
  assert (H0 : (0 == 0)%Q) by reflexivity.
  assert (H1 : (0 <= 100)%Q) by (vm_compute; discriminate).
  assert (H2 : (0 < 1)%Q) by reflexivity.
  assert (H3 : (0 < 100)%Q) by reflexivity.
  destruct (computeSubAccount_flat exampleDecode exampleAssets "USDC-ETH-long" 0%nat
              {| heap := [SubAccount.with_size _0 exampleAccount];
                 clk := clk (exampleWorld 0) |}
              _ ETH (SubAccount.with_size _0 exampleAccount) 0 100 1 100 (1 # 10) (5 # 100)
              eq_refl eq_refl eq_refl eq_refl H0 eq_refl H1 eq_refl eq_refl H2 H3)
    as (d & Hrun & _ & _ & _ & _ & Hliquidation & _ & _ & Hsafe & _).
  exists d. repeat split; assumption.
Defined.

Lemma computeSubAccount_unknown_asset_witness :
  computeSubAccount exampleDecode [USDC] "USDC-ETH-long" 0%nat (Finite 1) (Finite 100)
    (exampleWorld 0)
  = (exampleWorld 0, inl TypeError).
Proof.
  apply (computeSubAccount_unknown_asset exampleDecode [USDC] "USDC-ETH-long" 0%nat
           (exampleWorld 0) _ exampleAccount (Finite 1) (Finite 100) eq_refl eq_refl).
  simpl. lia.
Defined.

Lemma simulations_reject_missing_asset_witness :
  snd (computeOpenPosition exampleDecode [USDC] "USDC-ETH-long" 0%nat (examplePrices 100)
         (Finite 1) _0 (exampleWorld 0))
  = inl (InvalidArgumentError (MissingAsset 1%nat)).
Proof.
  assert (Hmissing : (length [USDC] <= 0)%nat \/ (length [USDC] <= 1)%nat)
    by (right; simpl; lia).
  exact (proj1 (simulations_reject_missing_asset exampleDecode [USDC] "USDC-ETH-long"
                  0%nat (exampleWorld 0) {| SubAccountId.collateralId := 0;
                                            SubAccountId.assetId := 1;
                                            SubAccountId.isLong := true |}
                  exampleAccount 0%nat (examplePrices 100) (Finite 1) _0 eq_refl eq_refl
                  Hmissing)).
Defined.

(** ** The liquidity fee *)

(** X19. [computeLiquidityFeeRate] throws for one reason only: a removal
    of more than the current value, which is rejected as insufficient
    liquidity before the target is looked at, a target of zero
    included. *)
Theorem computeLiquidityFeeRate_rejects_iff :
  forall (poolConfig : LiquidityPool) (currentAssetValue targetAssetValue : BigNumber)
         (isAdd : bool) (deltaValue : BigNumber),
    (isAdd = false /\ lt currentAssetValue deltaValue = true ->
     computeLiquidityFeeRate poolConfig currentAssetValue targetAssetValue isAdd deltaValue
     = inl (InsufficientLiquidityError BitoroRemoveLiquidityExceedsCurrentAsset
              deltaValue currentAssetValue))
    /\ (forall e,
           computeLiquidityFeeRate poolConfig currentAssetValue targetAssetValue isAdd
             deltaValue = inl e ->
           isAdd = false /\ lt currentAssetValue deltaValue = true).
Proof.
  intros poolConfig currentAssetValue targetAssetValue isAdd deltaValue.
  unfold computeLiquidityFeeRate, rbind. split.
  - intros [-> ->]. reflexivity.
  - intros e. destruct isAdd.
    + destruct (eq targetAssetValue _0); [discriminate |].
      destruct (lt _ _); discriminate.
    + destruct (lt currentAssetValue deltaValue); [intros _; split; reflexivity |].
      destruct (eq targetAssetValue _0); [discriminate |].
      destruct (lt _ _); discriminate.
Qed.

Lemma abs_minus_Finite (p q : Q) :
  exists d : Q, abs (minus (Finite p) (Finite q)) = Finite d
                /\ (d == Qabs (p - q))%Q /\ (0 <= d)%Q.
Proof.
  eexists. split; [reflexivity |].
  assert (H : (Qred (Qabs (Qred (p - q))) == Qabs (p - q))%Q)
    by (rewrite Qred_correct; apply Qabs_wd; apply Qred_correct).
  split; [exact H |]. rewrite H. apply Qabs_nonneg.
Qed.

(** The share [dynamicFeeRate * diff / target] to five places, rounded
    down, is not negative. *)
Lemma dynamic_share_nonneg (dynamic diff target : Q) :
  (0 <= dynamic)%Q -> (0 <= diff)%Q -> (0 < target)%Q ->
  exists share : Q,
    BigNumber.dp 5 BigNumber.ROUND_DOWN
      (div (times (Finite dynamic) (Finite diff)) (Finite target)) = Finite share
    /\ (0 <= share)%Q.
Proof.
  intros Hdynamic Hdiff Htarget. unfold times. rewrite div_Finite by lra.
  eexists. split; [reflexivity |].
  apply round_nonneg; [discriminate |].
  apply round_nonneg; [discriminate |].
  apply Qle_shift_div_l; [exact Htarget |]. rewrite Qred_correct. nra.
Qed.

(** X20. The bounds of the liquidity fee.  With a positive target and
    base and dynamic rates that are not negative, the fee rate of an
    accepted change is never negative; a change that brings the asset
    value closer to the target pays at most the base rate, and every
    other change at least the base rate. *)
Theorem computeLiquidityFeeRate_bounds :
  forall (poolConfig : LiquidityPool) (isAdd : bool)
         (base dynamic current target delta : Q),
    LiquidityPool.liquidityBaseFeeRate poolConfig = Finite base ->
    LiquidityPool.liquidityDynamicFeeRate poolConfig = Finite dynamic ->
    (0 <= base)%Q -> (0 <= dynamic)%Q -> (0 < target)%Q ->
    isAdd = true \/ (delta <= current)%Q ->
    let after := (if isAdd then current + delta else current - delta)%Q in
    exists fee : Q,
      computeLiquidityFeeRate poolConfig (Finite current) (Finite target) isAdd
        (Finite delta) = inr (Finite fee)
      /\ (0 <= fee)%Q
      /\ ((Qabs (after - target) < Qabs (current - target))%Q -> (fee <= base)%Q)
      /\ ((Qabs (current - target) <= Qabs (after - target))%Q -> (base <= fee)%Q).
Proof.
  intros poolConfig isAdd base dynamic current target delta Hbase Hdynamic Hb Hd Ht
         Haccepted after.
  unfold computeLiquidityFeeRate. rewrite Hbase, Hdynamic.
  assert (Hnew : (if isAdd return Result BigNumber
                  then inr (plus (Finite current) (Finite delta))
                  else if lt (Finite current) (Finite delta) return Result BigNumber
                       then inl (InsufficientLiquidityError
                                   BitoroRemoveLiquidityExceedsCurrentAsset
                                   (Finite delta) (Finite current))
                       else inr (minus (Finite current) (Finite delta)))
                 = inr (Finite (Qred after))).
  { destruct isAdd; [reflexivity |].
    destruct Haccepted as [Hadd | Hle]; [discriminate Hadd |].
    replace (lt (Finite current) (Finite delta)) with false
      by (symmetry; apply BigNumberFacts.lt_Finite_false; exact Hle).
    reflexivity. }
  rewrite Hnew. unfold rbind.
  destruct (abs_minus_Finite current target) as (oldDiff & -> & Hold & Hold0).
  destruct (abs_minus_Finite (Qred after) target) as (newDiff & -> & Hnew' & Hnew0).
  assert (Hafter : (newDiff == Qabs (after - target))%Q).
  { rewrite Hnew'. apply Qabs_wd. rewrite Qred_correct. reflexivity. }
  replace (eq (Finite target) _0) with false
    by (symmetry; apply BigNumberFacts.eq_Finite_false; lra).
  destruct (lt (Finite newDiff) (Finite oldDiff)) eqn:Himproves.
  - apply BigNumberFacts.lt_Finite in Himproves.
    destruct (dynamic_share_nonneg dynamic oldDiff target Hd Hold0 Ht)
      as (rebate & -> & Hrebate).
    unfold minus, _0. rewrite maximum_Finite.
    destruct (lt (Finite 0) (Finite (Qred (base - rebate)))) eqn:Hleft.
    + apply BigNumberFacts.lt_Finite in Hleft. rewrite Qred_correct in Hleft.
      eexists. split; [reflexivity |]. rewrite Qred_correct.
      repeat split; lra.
    + exists 0%Q. split; [reflexivity |].
      repeat split; lra.
  - apply BigNumberFacts.lt_Finite_false in Himproves.
    unfold plus at 2. rewrite div_Finite by lra.
    set (avgDiff := BigNumber.round _ _ _).
    assert (Havg : (0 <= avgDiff)%Q).
    { apply round_nonneg; [discriminate |].
      apply Qle_shift_div_l; [reflexivity |]. rewrite Qred_correct. lra. }
    rewrite minimum_Finite.
    assert (Hshare : exists share : Q,
               BigNumber.dp 5 BigNumber.ROUND_DOWN
                 (div (times (Finite dynamic)
                         (if gt (Finite avgDiff) (Finite target) then Finite target
                          else Finite avgDiff))
                      (Finite target)) = Finite share
               /\ (0 <= share)%Q).
    { destruct (gt (Finite avgDiff) (Finite target));
        apply dynamic_share_nonneg; lra. }
    destruct Hshare as (share & -> & Hshare).
    eexists. split; [reflexivity |]. rewrite Qred_correct.
    repeat split; lra.
Qed.

Lemma computeLiquidityFeeRate_bounds_witness :
  exists fee : Q,
    computeLiquidityFeeRate examplePool (Finite 120) (Finite 100) false (Finite 10)
    = inr (Finite fee)
    /\ (0 <= fee)%Q.
Proof.
  assert (H0 : (0 <= 2 # 10000)%Q) by (vm_compute; discriminate).
  assert (H1 : (0 <= 1 # 100)%Q) by (vm_compute; discriminate).
  assert (H2 : (0 < 100)%Q) by reflexivity.
  assert (H3 : false = true \/ (10 <= 120)%Q) by (right; vm_compute; discriminate).
  destruct (computeLiquidityFeeRate_bounds examplePool false (2 # 10000) (1 # 100) 120 100
              10 eq_refl eq_refl H0 H1 H2 H3) as (fee & Hrun & Hfee & _).
  exists fee. split; assumption.
Defined.

(** ** Opening a position *)

(** [computePositionPnlUsd] returns, reading the clock at most once. *)
Lemma computePositionPnlUsd_reads_once (asset : Asset) (account : SubAccount)
    (isLong : bool) (amount assetPrice : BigNumber) (c : Clock) :
  exists (c' : Clock) (pnl : Pnl.t),
    computePositionPnlUsd (Some asset) account isLong amount assetPrice c = (c', inr pnl)
    /\ readings c' = readings c
    /\ (reads c' = reads c \/ reads c' = S (reads c)).
Proof.
  unfold computePositionPnlUsd.
  destruct (eq amount _0); [exists c; eexists; repeat split; tauto |].
  destruct (gt _ _0); [| exists c; eexists; repeat split; tauto].
  unfold bind, Date_now, liftE, prop, ret.
  destruct (_ <? _); [destruct (lt _ _) |];
    eexists; eexists; (split; [reflexivity |]); simpl; tauto.
Qed.

Section Opening.

Variable decodeSubAccountId : string -> Result SubAccountId.t.

(** X21. Once its arguments are accepted, [computeOpenPosition] always
    returns, and the fee is charged in full: the collateral of the
    resulting account is the original one less the fee, at the collateral
    price, and the gas fee, with no test against what the account holds;
    the size grows by the amount, the funding snapshot is the asset's
    cumulative index, the entry price is the trading price or the
    size-weighted mean of the old entry price and the trading price, and
    [lastIncreasedTime] is a reading of the clock taken during the
    call. *)
Theorem computeOpenPosition_charges_in_full :
  forall (assets : list Asset) (subAccountId : string) (subAccount : ref)
         (prices : PriceDict) (amount brokerGasFee : BigNumber) (w w1 : World)
         (c : Context) (original : SubAccount),
    heap w !! subAccount = Some original ->
    computeOpenPosition_context decodeSubAccountId assets subAccountId subAccount prices
      amount brokerGasFee w = (w1, inr c) ->
    exists (asset : Asset) (feeUsd : BigNumber) (k' : Clock) (r : OpenPositionResult.t)
           (after : SubAccount),
      assets !! Context.assetId c = Some asset
      /\ _computeFeeUsd original (Some asset) (Context.isLong c) amount
           (Context.assetPrice c) = inr feeUsd
      /\ computeOpenPosition decodeSubAccountId assets subAccountId subAccount prices
           amount brokerGasFee w
         = ({| heap := heap w ++ [after]; clk := k' |}, inr r)
      /\ SubAccountDetails.subAccount (OpenPositionResult.afterTrade r) = length (heap w)
      /\ OpenPositionResult.feeUsd r = feeUsd
      /\ OpenPositionResult.isTradeSafe r
         = SubAccountComputed.isIMSafe
             (SubAccountDetails.computed (OpenPositionResult.afterTrade r))
      /\ SubAccount.collateral after
         = minus (SubAccount.collateral original)
             (plus (div feeUsd (Context.collateralPrice c)) brokerGasFee)
      /\ SubAccount.size after = plus (SubAccount.size original) amount
      /\ SubAccount.entryFunding after
         = (if Context.isLong c then Asset.longCumulativeFundingRate asset
            else Asset.shortCumulativeFunding asset)
      /\ (SubAccount.entryPrice after = Context.assetPrice c
          \/ SubAccount.entryPrice after
             = div (plus (times (SubAccount.entryPrice original)
                            (SubAccount.size original))
                         (times (Context.assetPrice c) amount))
                   (plus (SubAccount.size original) amount))
      /\ (SubAccount.lastIncreasedTime after
          = ceil_seconds (readings (clk w) (reads (clk w)))
          \/ SubAccount.lastIncreasedTime after
             = ceil_seconds (readings (clk w) (S (reads (clk w))))).
Proof.
  intros assets subAccountId l prices amount gas w w1 c original Hl Hctx.
  destruct (computeOpenPosition_context_inr _ _ _ _ _ _ _ _ _ _ Hctx)
    as (a & sid & price & asset & collateralAsset & Hl' & -> & Hid & Hprice & ->
        & Hamount & _ & Hasset & _ & _).
  assert (a = original) by congruence. subst a.
  destruct (computeFundingFeeUsd_defined original asset (SubAccountId.isLong sid)
              (TradingPrice.assetPrice price)) as [fundingFeeUsd Hfunding].
  destruct (_computeFeeUsd_defined original asset (SubAccountId.isLong sid) amount
              (TradingPrice.assetPrice price)) as [feeUsd Hfee].
  set (funded := SubAccount.with_entryFunding
                   (if SubAccountId.isLong sid then Asset.longCumulativeFundingRate asset
                    else Asset.shortCumulativeFunding asset) original).
  set (charged := SubAccount.with_collateral
                    (minus (SubAccount.collateral funded)
                       (plus (div feeUsd (TradingPrice.collateralPrice price)) gas))
                    funded).
  destruct (computePositionPnlUsd_reads_once asset charged (SubAccountId.isLong sid) amount
              (TradingPrice.assetPrice price) (clk w))
    as (k' & pnl & Hpnl & Hreadings & Hreads).
  set (after :=
         SubAccount.with_lastIncreasedTime (ceil_seconds (readings k' (reads k')))
           (SubAccount.with_size (plus (SubAccount.size charged) amount)
              (SubAccount.with_entryPrice
                 (if eq (Pnl.pnlUsd pnl) _0 then TradingPrice.assetPrice price
                  else div (plus (times (SubAccount.entryPrice charged)
                                    (SubAccount.size charged))
                                 (times (TradingPrice.assetPrice price) amount))
                           (plus (SubAccount.size charged) amount))
                 charged))).
  destruct (computeSubAccount_defined decodeSubAccountId assets subAccountId
              (length (heap w)) (TradingPrice.collateralPrice price)
              (TradingPrice.assetPrice price)
              {| heap := heap w ++ [after];
                 clk := {| readings := readings k'; reads := S (reads k') |} |}
              sid asset after Hid Hasset (lookup_last _ _)) as (k'' & details & Hrun & Hsub).
  exists asset, feeUsd, k''. eexists. exists after.
  split; [exact Hasset |]. split; [exact Hfee |].
  split.
  { unfold computeOpenPosition. unfold bind at 1. rewrite Hctx. simpl.
    rewrite Hasset.
    rewrite bind_deref_last, bind_liftE, Hfunding, bind_liftE, Hfee.
    rewrite bind_updateEntryFunding_last, bind_deref_last, bind_assign_last.
    fold funded. fold charged.
    rewrite bind_deref_last, bind_liftC, Hpnl.
    match goal with
    | |- context [bind (if ?b then assign ?rf ?u1 else assign ?rf ?u2) ?k] =>
        replace (bind (if b then assign rf u1 else assign rf u2) k)
          with (bind (assign rf (if b then u1 else u2)) k) by (destruct b; reflexivity)
    end.
    rewrite bind_assign_last, bind_assign_last, bind_liftC.
    unfold Date_now. cbv beta iota. rewrite bind_assign_last.
    replace (SubAccount.with_lastIncreasedTime _ _) with after
      by (subst after; destruct (eq (Pnl.pnlUsd pnl) _0); reflexivity).
    unfold bind at 1. rewrite Hrun. reflexivity. }
  simpl.
  split; [exact Hsub |].
  repeat (split; [reflexivity |]).
  split.
  - destruct (eq (Pnl.pnlUsd pnl) _0); [left | right]; reflexivity.
  - rewrite Hreadings. destruct Hreads as [-> | ->]; [left | right]; reflexivity.
Qed.

End Opening.

Lemma computeOpenPosition_charges_in_full_witness :
  exists (k' : Clock) (r : OpenPositionResult.t) (after : SubAccount),
    computeOpenPosition exampleDecode exampleAssets "USDC-ETH-long" 0%nat
      (examplePrices 100) (Finite 1) (Finite 200) (exampleWorld 5000000)
    = ({| heap := heap (exampleWorld 5000000) ++ [after]; clk := k' |}, inr r)
    /\ lt (SubAccount.collateral after) _0 = true
    /\ SubAccount.size after = Finite 11.
Proof.
  destruct (computeOpenPosition_charges_in_full exampleDecode exampleAssets
              "USDC-ETH-long" 0%nat (examplePrices 100) (Finite 1) (Finite 200)
              (exampleWorld 5000000) (clonedWorld 5000000) (exampleContext 100)
              exampleAccount eq_refl eq_refl)
    as (asset & feeUsd & k' & r & after & Hasset & Hfee & Hrun & _ & _ & _ & Hcollateral
        & Hsize & _).
  vm_compute in Hasset. inversion Hasset; subst asset.
  vm_compute in Hfee. inversion Hfee; subst feeUsd.
  exists k', r, after. split; [exact Hrun |]. split.
  - rewrite Hcollateral. vm_compute. reflexivity.
  - rewrite Hsize. vm_compute. reflexivity.
Defined.

(** ** Closing a part of a position *)

Section Closing.

Variable decodeSubAccountId : string -> Result SubAccountId.t.

(** X22. A close that leaves a position keeps its entry price and its
    [lastIncreasedTime]: the size is reduced by the amount, the funding
    snapshot moves to the asset's cumulative index, and the trade is
    judged by [isMarginSafe] of the resulting account. *)
Theorem computeClosePosition_partial_keeps_entry :
  forall (assets : list Asset) (subAccountId : string) (subAccount : ref)
         (profitAssetId : number) (prices : PriceDict) (amount brokerGasFee : BigNumber)
         (w w' : World) (r : ClosePositionResult.t) (original : SubAccount),
    heap w !! subAccount = Some original ->
    computeClosePosition decodeSubAccountId assets subAccountId subAccount profitAssetId
      prices amount brokerGasFee w = (w', inr r) ->
    eq (minus (SubAccount.size original) amount) _0 = false ->
    exists (sid : SubAccountId.t) (asset : Asset) (after : SubAccount),
      decodeSubAccountId subAccountId = inr sid
      /\ assets !! SubAccountId.assetId sid = Some asset
      /\ heap w' !! SubAccountDetails.subAccount (ClosePositionResult.afterTrade r)
         = Some after
      /\ SubAccount.size after = minus (SubAccount.size original) amount
      /\ SubAccount.entryPrice after = SubAccount.entryPrice original
      /\ SubAccount.lastIncreasedTime after = SubAccount.lastIncreasedTime original
      /\ SubAccount.entryFunding after
         = (if SubAccountId.isLong sid then Asset.longCumulativeFundingRate asset
            else Asset.shortCumulativeFunding asset)
      /\ ClosePositionResult.isTradeSafe r
         = SubAccountComputed.isMarginSafe
             (SubAccountDetails.computed (ClosePositionResult.afterTrade r)).
Proof.
  intros assets subAccountId l profitAssetId prices amount gas w w' r original Hl H
         Hpartial.
  assert (Hctx : exists w1 cp,
             computeClosePosition_context decodeSubAccountId assets subAccountId l
               profitAssetId prices amount gas w = (w1, inr cp)).
  { unfold computeClosePosition in H. apply bind_inr in H.
    destruct H as (w1 & cp & Hctx & _). eauto. }
  destruct Hctx as (w1 & [c profit] & Hctx).
  destruct (computeClosePosition_context_inr _ _ _ _ _ _ _ _ _ _ _ Hctx)
    as (a & sid & price & asset & collateralAsset & Hl' & -> & Hid & Hprice & Hprofit
        & Hc & Hamount & Hsize & _ & Hasset & _ & _).
  simpl in Hprofit, Hc. subst c.
  assert (a = original) by congruence. subst a.
  destruct (resolveProfitAsset_defined _ _ _ _ _ _ _ _ Hprofit Hasset)
    as [profitAsset HprofitAsset].
  destruct (computeClosePosition_realize_run assets (heap w) original (clk w) sid price
              profit amount asset profitAsset Hasset HprofitAsset)
    as (totalFeeUsd & k' & pnl & _ & _ & Hrealize).
  cbv zeta in Hrealize.
  unfold computeClosePosition in H. unfold bind at 1 in H. rewrite Hctx in H.
  simpl fst in H. simpl snd in H. unfold bind at 1 in H.
  set (funded := SubAccount.with_entryFunding
                   (if SubAccountId.isLong sid then Asset.longCumulativeFundingRate asset
                    else Asset.shortCumulativeFunding asset) original) in *.
  assert (Hdone : exists collateral realized,
             computeClosePosition_realize assets (contextOf (length (heap w)) sid price)
               profit amount {| heap := heap w ++ [original]; clk := clk w |}
             = ({| heap := heap w ++
                     [reduceSize amount (SubAccount.with_collateral collateral funded)];
                   clk := k' |}, inr realized)).
  { rewrite Hrealize in *.
    destruct (gt (Pnl.pnlUsd pnl) _0).
    - destruct (computeRealizeProfit _ _ _ _); [discriminate H |].
      exists (SubAccount.collateral funded). eexists.
      rewrite with_collateral_same. reflexivity.
    - destruct (lt (Pnl.pnlUsd pnl) _0).
      + destruct (lt (SubAccount.collateral original) _); [discriminate H |].
        eexists _, _. reflexivity.
      + exists (SubAccount.collateral funded). eexists.
        rewrite with_collateral_same. reflexivity. }
  destruct Hdone as (collateral & realized & Hdone).
  rewrite Hdone in H. simpl Context.working in H. simpl Context.collateralPrice in H.
  destruct (computeClosePosition_fees_last (heap w)
              (reduceSize amount (SubAccount.with_collateral collateral funded)) k'
              (TradingPrice.collateralPrice price) gas
              (Realized.totalFeeUsd realized) (Realized.paidFeeUsd realized))
    as (collateral' & paid' & Hfees).
  unfold bind at 1 in H. rewrite Hfees in H.
  match type of H with
  | context [bind (computeSubAccount ?d ?as_ ?i ?rf ?cp ?ap) ?k ?w0] =>
      destruct (computeSubAccount_reads d as_ i rf cp ap w0) as (k'' & rs & Hrun & Hsub)
  end.
  unfold bind in H. rewrite Hrun in H. destruct rs as [e|details]; [discriminate H |].
  unfold ret in H. inversion H; subst w' r. simpl.
  exists sid, asset. eexists.
  split; [exact Hid |]. split; [exact Hasset |].
  rewrite (Hsub details eq_refl), lookup_last.
  split; [reflexivity |].
  unfold reduceSize. simpl. rewrite Hpartial. simpl.
  repeat split; reflexivity.
Qed.

End Closing.

Lemma computeClosePosition_partial_keeps_entry_witness :
  exists w' r after,
    computeClosePosition exampleDecode exampleAssets "USDC-ETH-long" 0%nat 0%nat
      (examplePrices 95) (Finite 4) (Finite 1) (exampleWorld 5000000) = (w', inr r)
    /\ heap w' !! SubAccountDetails.subAccount (ClosePositionResult.afterTrade r)
       = Some after
    /\ SubAccount.size after = Finite 6
    /\ SubAccount.entryPrice after = Finite 100
    /\ SubAccount.lastIncreasedTime after = 1000.
Proof.
  destruct (computeClosePosition exampleDecode exampleAssets "USDC-ETH-long" 0%nat 0%nat
              (examplePrices 95) (Finite 4) (Finite 1) (exampleWorld 5000000))
    as [w' [e|r]] eqn:Hrun.
  - vm_compute in Hrun. discriminate Hrun.
  - destruct (computeClosePosition_partial_keeps_entry exampleDecode exampleAssets
                "USDC-ETH-long" 0%nat 0%nat (examplePrices 95) (Finite 4) (Finite 1)
                (exampleWorld 5000000) w' r exampleAccount eq_refl Hrun eq_refl)
      as (sid & asset & after & _ & _ & Hlookup & Hsize & Hentry & Htime & _).
    exists w', r, after. split; [reflexivity |]. split; [exact Hlookup |].
    repeat split; assumption.
Defined.

(** ** The liquidation price *)

(** The larger of zero and anything is not below zero. *)
Lemma max_zero_not_negative (x : BigNumber) : lt (BigNumber.max _0 x) _0 = false.
Proof.
  destruct x as [| a | q]; [reflexivity | destruct a; reflexivity |].
  unfold _0. rewrite max_Finite.
  destruct (lt (Finite 0) (Finite q)) eqn:Hlt.
  - apply BigNumberFacts.lt_Finite in Hlt. apply BigNumberFacts.lt_Finite_false. lra.
  - reflexivity.
Qed.

Lemma is_negative_false (q : Q) : (0 <= q)%Q -> BigNumber.is_negative q = false.
Proof.
  intros H. unfold BigNumber.is_negative. apply Z.ltb_ge.
  destruct q as [n d]. unfold Qle in H. simpl in *. lia.
Qed.

(** Dividing by a positive finite value keeps a value that is not below
    zero so. *)
Lemma div_not_negative (x : BigNumber) (d : Q) :
  lt x _0 = false -> (0 < d)%Q -> lt (div x (Finite d)) _0 = false.
Proof.
  intros Hx Hd. destruct x as [| a | q].
  - reflexivity.
  - destruct a; [discriminate Hx |].
    unfold div. rewrite is_negative_false by lra. reflexivity.
  - apply BigNumberFacts.lt_Finite_false in Hx.
    rewrite div_Finite by lra. apply BigNumberFacts.lt_Finite_false.
    apply round_nonneg; [discriminate |].
    apply Qle_shift_div_l; [exact Hd | lra].
Qed.

(** X23. With a half spread in [0, 1), [_estimateLiquidationPrice] returns
    for every account, price and fee, and its estimate is never below
    zero. *)
Theorem estimateLiquidationPrice_never_negative :
  forall (assets : list Asset) (collateralId assetId : nat) (isLong : bool)
         (subAccount : SubAccount) (collateralPrice fundingFeeUsd : BigNumber)
         (asset : Asset) (spread : Q),
    assets !! assetId = Some asset ->
    Asset.halfSpread asset = Finite spread ->
    (0 <= spread)%Q -> (spread < 1)%Q ->
    exists p : BigNumber,
      _estimateLiquidationPrice assets collateralId assetId isLong subAccount
        collateralPrice fundingFeeUsd = inr p
      /\ lt p _0 = false.
Proof.
  intros assets collateralId assetId isLong subAccount collateralPrice fundingFeeUsd
         asset spread Hasset Hspread Hlow Hhigh.
  unfold _estimateLiquidationPrice. rewrite Hasset. unfold prop, rbind. rewrite Hspread.
  destruct (eq (SubAccount.size subAccount) _0); [exists _0; split; reflexivity |].
  destruct (collateralId =? assetId)%nat, isLong;
    (eexists; split; [reflexivity |]);
    (apply div_not_negative; [apply max_zero_not_negative | rewrite Qred_correct; lra]).
Qed.

Lemma estimateLiquidationPrice_never_negative_witness :
  exists p : BigNumber,
    _estimateLiquidationPrice exampleAssets 0 1 true exampleAccount (Finite 1) _0 = inr p
    /\ lt p _0 = false.
Proof.
  assert (H0 : (0 <= 0)%Q) by (vm_compute; discriminate).
  assert (H1 : (0 < 1)%Q) by reflexivity.
  exact (estimateLiquidationPrice_never_negative exampleAssets 0 1 true exampleAccount
           (Finite 1) _0 ETH 0 eq_refl eq_refl H0 H1).
Defined.

(** ** The profit asset *)

Section ProfitAssets.

Variable decodeSubAccountId : string -> Result SubAccountId.t.

(** The profit of a long position that does not ask for a stable token is
    paid in the asset of the position, at its trading price. *)
Lemma resolveProfitAsset_long (assets : list Asset) (prices : PriceDict) (assetId : nat)
    (assetPrice : BigNumber) (profitAssetId : number) (asset : Asset) :
  assets !! assetId = Some asset ->
  Asset.useStableTokenForProfit asset = false ->
  resolveProfitAsset assets prices assetId true assetPrice profitAssetId
  = inr {| ProfitAsset.profitAssetId := assetId;
           ProfitAsset.profitAssetPrice := assetPrice |}.
Proof.
  intros Hasset Hstable. unfold resolveProfitAsset, prop, rbind.
  rewrite Hasset, Hstable. reflexivity.
Qed.

(** X24. A long position whose asset does not use a stable token for
    profit ignores the [profitAssetId] argument: [computeClosePosition] and
    [computeWithdrawProfit] give the same outcome for any two of its
    values. *)
Theorem long_position_ignores_profitAssetId :
  forall (assets : list Asset) (subAccountId : string) (subAccount : ref)
         (prices : PriceDict) (amount brokerGasFee : BigNumber) (w : World)
         (sid : SubAccountId.t) (asset : Asset) (profitAssetId profitAssetId' : number),
    decodeSubAccountId subAccountId = inr sid ->
    SubAccountId.isLong sid = true ->
    assets !! SubAccountId.assetId sid = Some asset ->
    Asset.useStableTokenForProfit asset = false ->
    computeClosePosition decodeSubAccountId assets subAccountId subAccount profitAssetId
      prices amount brokerGasFee w
    = computeClosePosition decodeSubAccountId assets subAccountId subAccount profitAssetId'
        prices amount brokerGasFee w
    /\ computeWithdrawProfit decodeSubAccountId assets subAccountId subAccount profitAssetId
         prices amount w
       = computeWithdrawProfit decodeSubAccountId assets subAccountId subAccount
           profitAssetId' prices amount w.
Proof.
  intros assets subAccountId subAccount prices amount brokerGasFee w sid asset
         profitAssetId profitAssetId' Hdecode Hlong Hasset Hstable.
  assert (Hclose :
    computeClosePosition_context decodeSubAccountId assets subAccountId subAccount
      profitAssetId prices amount brokerGasFee w
    = computeClosePosition_context decodeSubAccountId assets subAccountId subAccount
        profitAssetId' prices amount brokerGasFee w).
  { unfold computeClosePosition_context, bind, liftE. rewrite Hdecode, Hlong.
    destruct (cloneSubAccount subAccount w) as [w1 [e | working]]; [reflexivity |].
    destruct (computeTradingPrice _ _ _ _ _) as [e | price]; [reflexivity |].
    rewrite !(resolveProfitAsset_long _ _ _ _ _ asset Hasset Hstable). reflexivity. }
  assert (Hwithdraw :
    computeWithdrawProfit_context decodeSubAccountId assets subAccountId subAccount
      profitAssetId prices amount w
    = computeWithdrawProfit_context decodeSubAccountId assets subAccountId subAccount
        profitAssetId' prices amount w).
  { unfold computeWithdrawProfit_context, bind, liftE. rewrite Hdecode, Hlong.
    destruct (cloneSubAccount subAccount w) as [w1 [e | working]]; [reflexivity |].
    destruct (computeTradingPrice _ _ _ _ _) as [e | price]; [reflexivity |].
    rewrite !(resolveProfitAsset_long _ _ _ _ _ asset Hasset Hstable). reflexivity. }
  unfold computeClosePosition, computeWithdrawProfit.
  split; unfold bind at 1; [rewrite Hclose | rewrite Hwithdraw]; reflexivity.
Qed.


End ProfitAssets.

Lemma long_position_ignores_profitAssetId_witness :
  computeClosePosition exampleDecode exampleAssets "USDC-ETH-long" 0%nat 0%nat
    (examplePrices 95) (Finite 4) (Finite 1) (exampleWorld 5000000)
  = computeClosePosition exampleDecode exampleAssets "USDC-ETH-long" 0%nat 7%nat
      (examplePrices 95) (Finite 4) (Finite 1) (exampleWorld 5000000).
Proof.
  exact (proj1 (long_position_ignores_profitAssetId exampleDecode exampleAssets
                  "USDC-ETH-long" 0%nat (examplePrices 95) (Finite 4) (Finite 1)
                  (exampleWorld 5000000)
                  {| SubAccountId.collateralId := 0; SubAccountId.assetId := 1;
                     SubAccountId.isLong := true |}
                  ETH 0%nat 7%nat eq_refl eq_refl eq_refl eq_refl)).
Defined.


(** ** The further properties on the example market *)

Lemma computePriceWithSpread_brackets_price_witness :
  exists bid ask : Q,
    computePriceWithSpread (Some quotedETH) (Finite 100) Bid = inr (Finite bid)
    /\ computePriceWithSpread (Some quotedETH) (Finite 100) Ask = inr (Finite ask)
    /\ (bid == 100 * (1 - (1 # 100)))%Q
    /\ (ask == 100 * (1 + (1 # 100)))%Q
    /\ (0 < bid)%Q /\ (bid <= 100)%Q /\ (100 <= ask)%Q.
Proof.
  apply (computePriceWithSpread_brackets_price quotedETH 100 (1 # 100));
    [reflexivity | reflexivity | vm_compute; discriminate | reflexivity].
Defined.

Lemma computePriceWithSpread_bug_iff_witness :
  computePriceWithSpread (Some quotedETH) (Finite 100) Bid = inl (BugError (Finite 100))
  <-> Bid = Bid /\ (1 <= 1 # 100)%Q.
Proof.
  apply (computePriceWithSpread_bug_iff quotedETH 100 (1 # 100) Bid);
    [reflexivity | reflexivity | vm_compute; discriminate].
Defined.

Lemma computeTradingPrice_validated_witness :
  exists rawAssetPrice : BigNumber,
    examplePrices 100 !! "ETH" = Some rawAssetPrice
    /\ lte rawAssetPrice _0 = false.
Proof.
  assert (Hrun : computeTradingPrice exampleDecode quotedAssets "USDC-ETH-long"
                   (examplePrices 100) true
                 = inr {| TradingPrice.assetPrice := Finite 101;
                          TradingPrice.collateralPrice := Finite 1 |})
    by (vm_compute; reflexivity).
  destruct (computeTradingPrice_validated exampleDecode quotedAssets "USDC-ETH-long"
              (examplePrices 100) true _ Hrun)
    as (sid & collateralAsset & asset & raw & Hdecode & _ & _ & _ & Hasset & _ & _ & Hraw
        & Hpositive & _).
  vm_compute in Hdecode. inversion Hdecode; subst sid.
  vm_compute in Hasset. inversion Hasset; subst asset.
  exists raw. split; [exact Hraw | exact Hpositive].
Defined.

Lemma computeTradingPrice_crosses_the_spread_witness :
  exists open close : Q,
    Finite 101 = Finite open /\ Finite 99 = Finite close
    /\ (close <= 100)%Q /\ (100 <= open)%Q.
Proof.
  assert (Hopen : computeTradingPrice exampleDecode quotedAssets "USDC-ETH-long"
                    (examplePrices 100) true
                  = inr {| TradingPrice.assetPrice := Finite 101;
                           TradingPrice.collateralPrice := Finite 1 |})
    by (vm_compute; reflexivity).
  assert (Hclose : computeTradingPrice exampleDecode quotedAssets "USDC-ETH-long"
                     (examplePrices 100) false
                   = inr {| TradingPrice.assetPrice := Finite 99;
                            TradingPrice.collateralPrice := Finite 1 |})
    by (vm_compute; reflexivity).
  assert (Hspread : (0 <= 1 # 100)%Q) by (vm_compute; discriminate).
  destruct (computeTradingPrice_crosses_the_spread exampleDecode quotedAssets
              "USDC-ETH-long" (examplePrices 100)
              {| SubAccountId.collateralId := 0; SubAccountId.assetId := 1;
                 SubAccountId.isLong := true |}
              quotedETH 100 (1 # 100) _ _ eq_refl eq_refl eq_refl eq_refl Hspread
              Hopen Hclose)
    as (_ & open & close & Ho & Hc & _ & _ & Hside).
  exists open, close. simpl in Ho, Hc, Hside.
  split; [exact Ho |]. split; [exact Hc |]. exact Hside.
Defined.

Lemma computeLiquidityPrice_brackets_price_witness :
  exists add remove : Q,
    computeLiquidityPrice quotedAssets (examplePrices 100) 1%nat true = inr (Finite add)
    /\ computeLiquidityPrice quotedAssets (examplePrices 100) 1%nat false
       = inr (Finite remove)
    /\ (add == 100 * (1 - (1 # 100)))%Q
    /\ (remove == 100 * (1 + (1 # 100)))%Q
    /\ (0 < add)%Q /\ (add <= 100)%Q /\ (100 <= remove)%Q.
Proof.
  apply (computeLiquidityPrice_brackets_price quotedAssets (examplePrices 100) 1%nat
           quotedETH 100 (1 # 100));
    [reflexivity | reflexivity | reflexivity | reflexivity | vm_compute; discriminate
    | reflexivity].
Defined.

Lemma computeRealizeProfit_pays_in_full_witness :
  exists deduct transferred debt : Q,
    computeRealizeProfit (Finite 50) (Finite 10) (Some ETH) (Finite 100)
    = inr {| RealizeProfit.deductUsd := Finite deduct;
             RealizeProfit.profitAssetTransferred := Finite transferred;
             RealizeProfit.bitoroTokenTransferred := Finite debt |}
    /\ (deduct == 10)%Q /\ (transferred == 4 # 10)%Q /\ (debt == 0)%Q.
Proof.
  assert (H0 : (0 <= 1000)%Q) by (vm_compute; discriminate).
  assert (H1 : (0 < 100)%Q) by reflexivity.
  assert (H2 : (10 < 50)%Q) by reflexivity.
  destruct (computeRealizeProfit_pays_in_full ETH 50 10 100 1000 eq_refl H0 H1)
    as (deduct & transferred & debt & Hrun & _ & _ & _ & _ & _ & _ & _ & Hgain).
  destruct (Hgain H2) as (Hdeduct & payout & Hdiv & _ & Hcovers & _).
  vm_compute in Hdiv. inversion Hdiv; subst payout. clear Hdiv.
  assert (H3 : (2 # 5 <= 1000)%Q) by (vm_compute; discriminate).
  destruct (Hcovers H3) as [Htransferred Hdebt].
  exists deduct, transferred, debt. split; [exact Hrun |]. split; [exact Hdeduct |].
  split; [rewrite Htransferred; reflexivity | exact Hdebt].
Defined.

(** ** Margin safety and what can be withdrawn *)

(** A value at or above a finite bound is at or above every smaller
    one. *)
Lemma gte_weaken (x : BigNumber) (p q : Q) :
  gte x (Finite p) = true -> (q <= p)%Q -> gte x (Finite q) = true.
Proof.
  destruct x as [| a | r]; intros H Hle.
  - discriminate H.
  - destruct a; [discriminate H | reflexivity].
  - apply BigNumberFacts.gte_Finite in H. apply BigNumberFacts.gte_Finite. lra.
Qed.

Section Margin.

Variable decodeSubAccountId : string -> Result SubAccountId.t.

(** The margin fields of the snapshot of an account whose asset exists. *)
Lemma computeSubAccount_margin assets subAccountId l collateralPrice assetPrice w
    sid asset a :
  decodeSubAccountId subAccountId = inr sid ->
  assets !! SubAccountId.assetId sid = Some asset ->
  heap w !! l = Some a ->
  exists (c' : Clock) (d : SubAccountDetails) (margin free profit : BigNumber),
    computeSubAccount decodeSubAccountId assets subAccountId l collateralPrice assetPrice w
    = ({| heap := heap w; clk := c' |}, inr d)
    /\ SubAccountComputed.isIMSafe (SubAccountDetails.computed d)
       = gte margin (times (times assetPrice (SubAccount.size a))
                       (Asset.initialMarginRate asset))
    /\ SubAccountComputed.isMMSafe (SubAccountDetails.computed d)
       = gte margin (times (times assetPrice (SubAccount.size a))
                       (Asset.maintenanceMarginRate asset))
    /\ SubAccountComputed.isMarginSafe (SubAccountDetails.computed d) = gte margin _0
    /\ SubAccountComputed.withdrawableCollateral (SubAccountDetails.computed d)
       = div (BigNumber.max _0 free) collateralPrice
    /\ SubAccountComputed.withdrawableProfit (SubAccountDetails.computed d)
       = (if SubAccountId.isLong sid then div (BigNumber.max _0 profit) assetPrice
          else BigNumber.max _0 profit).
Proof.
  intros Hid Hasset Hl. unfold computeSubAccount.
  rewrite bind_liftE, Hid. rewrite (bind_deref _ _ _ _ Hl).
  rewrite Hasset.
  destruct (computeFundingFeeUsd_defined a asset (SubAccountId.isLong sid) assetPrice)
    as [fee Hfee].
  rewrite bind_liftE, Hfee.
  destruct w as [h c]. rewrite bind_liftC.
  destruct (computePositionPnlUsd_defined asset a (SubAccountId.isLong sid)
              (SubAccount.size a) assetPrice c) as (c' & pnl & Hpnl).
  rewrite Hpnl.
  rewrite bind_liftE. simpl prop. cbv iota.
  rewrite bind_liftE. simpl prop. cbv iota.
  destruct (_estimateLiquidationPrice_defined assets (SubAccountId.collateralId sid)
              (SubAccountId.assetId sid) (SubAccountId.isLong sid) a collateralPrice fee
              asset Hasset) as [p Hp].
  rewrite bind_liftE, Hp. unfold ret.
  eexists c', _, _, _, _. split; [reflexivity |].
  cbn [SubAccountDetails.computed SubAccountComputed.isIMSafe SubAccountComputed.isMMSafe
       SubAccountComputed.isMarginSafe SubAccountComputed.withdrawableCollateral
       SubAccountComputed.withdrawableProfit].
  repeat split; reflexivity.
Qed.

(** X26. The three safety flags of a snapshot are ordered.  For a position
    of a size and at a price that are not negative, with
    [0 <= maintenanceMarginRate <= initialMarginRate], an account that is
    safe for the initial margin is safe for the maintenance margin, and
    one that is safe for the maintenance margin has a margin balance that
    is not negative. *)
Theorem computeSubAccount_safety_is_ordered :
  forall (assets : list Asset) (subAccountId : string) (subAccount : ref) (w : World)
         (sid : SubAccountId.t) (asset : Asset) (account : SubAccount)
         (collateralPrice : BigNumber) (size price imr mmr : Q),
    decodeSubAccountId subAccountId = inr sid ->
    assets !! SubAccountId.assetId sid = Some asset ->
    heap w !! subAccount = Some account ->
    SubAccount.size account = Finite size ->
    Asset.initialMarginRate asset = Finite imr ->
    Asset.maintenanceMarginRate asset = Finite mmr ->
    (0 <= size)%Q -> (0 <= price)%Q -> (0 <= mmr)%Q -> (mmr <= imr)%Q ->
    exists (c' : Clock) (d : SubAccountDetails),
      computeSubAccount decodeSubAccountId assets subAccountId subAccount collateralPrice
        (Finite price) w = ({| heap := heap w; clk := c' |}, inr d)
      /\ (SubAccountComputed.isIMSafe (SubAccountDetails.computed d) = true ->
          SubAccountComputed.isMMSafe (SubAccountDetails.computed d) = true)
      /\ (SubAccountComputed.isMMSafe (SubAccountDetails.computed d) = true ->
          SubAccountComputed.isMarginSafe (SubAccountDetails.computed d) = true).
Proof.
  intros assets subAccountId subAccount w sid asset account collateralPrice size price
         imr mmr Hid Hasset Hl Hsize Himr Hmmr Hs Hp Hm Hle.
  destruct (computeSubAccount_margin assets subAccountId subAccount collateralPrice
              (Finite price) w sid asset account Hid Hasset Hl)
    as (c' & d & margin & free & profit & Hrun & Hinitial & Hmaintenance & Hmargin & _).
  exists c', d. split; [exact Hrun |].
  rewrite Hinitial, Hmaintenance, Hmargin, Hsize, Himr, Hmmr. unfold times.
  assert (Hvalue : (0 <= price * size)%Q) by nra.
  split; intros Hsafe.
  - apply (gte_weaken _ _ _ Hsafe). rewrite !Qred_correct.
    generalize dependent (price * size)%Q. intros value Hvalue. nra.
  - apply (gte_weaken _ _ _ Hsafe). rewrite !Qred_correct.
    generalize dependent (price * size)%Q. intros value Hvalue. nra.
Qed.

(** X27. With positive prices, what a snapshot reports as withdrawable,
    collateral or profit, is never below zero. *)
Theorem computeSubAccount_withdrawable_never_negative :
  forall (assets : list Asset) (subAccountId : string) (subAccount : ref) (w : World)
         (sid : SubAccountId.t) (asset : Asset) (account : SubAccount)
         (collateralPrice assetPrice : Q),
    decodeSubAccountId subAccountId = inr sid ->
    assets !! SubAccountId.assetId sid = Some asset ->
    heap w !! subAccount = Some account ->
    (0 < collateralPrice)%Q -> (0 < assetPrice)%Q ->
    exists (c' : Clock) (d : SubAccountDetails),
      computeSubAccount decodeSubAccountId assets subAccountId subAccount
        (Finite collateralPrice) (Finite assetPrice) w
      = ({| heap := heap w; clk := c' |}, inr d)
      /\ lt (SubAccountComputed.withdrawableCollateral (SubAccountDetails.computed d)) _0
         = false
      /\ lt (SubAccountComputed.withdrawableProfit (SubAccountDetails.computed d)) _0
         = false.
Proof.
  intros assets subAccountId subAccount w sid asset account collateralPrice assetPrice
         Hid Hasset Hl Hcp Hap.
  destruct (computeSubAccount_margin assets subAccountId subAccount
              (Finite collateralPrice) (Finite assetPrice) w sid asset account Hid Hasset
              Hl)
    as (c' & d & margin & free & profit & Hrun & _ & _ & _ & Hcollateral & Hprofit).
  exists c', d. split; [exact Hrun |]. rewrite Hcollateral, Hprofit. split.
  - apply div_not_negative; [apply max_zero_not_negative | exact Hcp].
  - destruct (SubAccountId.isLong sid).
    + apply div_not_negative; [apply max_zero_not_negative | exact Hap].
    + apply max_zero_not_negative.
Qed.

End Margin.

Lemma computeSubAccount_safety_is_ordered_witness :
  exists (c' : Clock) (d : SubAccountDetails),
    computeSubAccount exampleDecode exampleAssets "USDC-ETH-long" 0%nat (Finite 1)
      (Finite 100) (exampleWorld 5000000)
    = ({| heap := heap (exampleWorld 5000000); clk := c' |}, inr d)
    /\ (SubAccountComputed.isMMSafe (SubAccountDetails.computed d) = true ->
        SubAccountComputed.isMarginSafe (SubAccountDetails.computed d) = true).
Proof.
  assert (H0 : (0 <= 10)%Q) by (vm_compute; discriminate).
  assert (H1 : (0 <= 100)%Q) by (vm_compute; discriminate).
  assert (H2 : (0 <= 5 # 100)%Q) by (vm_compute; discriminate).
  assert (H3 : (5 # 100 <= 1 # 10)%Q) by (vm_compute; discriminate).
  destruct (computeSubAccount_safety_is_ordered exampleDecode exampleAssets
              "USDC-ETH-long" 0%nat (exampleWorld 5000000) _ ETH exampleAccount (Finite 1)
              10 100 (1 # 10) (5 # 100) eq_refl eq_refl eq_refl eq_refl eq_refl eq_refl
              H0 H1 H2 H3) as (c' & d & Hrun & _ & Hordered).
  exists c', d. split; assumption.
Defined.

Lemma computeSubAccount_withdrawable_never_negative_witness :
  exists (c' : Clock) (d : SubAccountDetails),
    computeSubAccount exampleDecode exampleAssets "USDC-ETH-long" 0%nat (Finite 1)
      (Finite 100) (exampleWorld 5000000)
    = ({| heap := heap (exampleWorld 5000000); clk := c' |}, inr d)
    /\ lt (SubAccountComputed.withdrawableCollateral (SubAccountDetails.computed d)) _0
       = false.
Proof.
  assert (H0 : (0 < 1)%Q) by reflexivity.
  assert (H1 : (0 < 100)%Q) by reflexivity.
  destruct (computeSubAccount_withdrawable_never_negative exampleDecode exampleAssets
              "USDC-ETH-long" 0%nat (exampleWorld 5000000) _ ETH exampleAccount 1 100
              eq_refl eq_refl eq_refl H0 H1) as (c' & d & Hrun & Hcollateral & _).
  exists c', d. split; assumption.
Defined.

(** ** What a profit withdrawal transfers *)

Section Transfers.

Variable decodeSubAccountId : string -> Result SubAccountId.t.

(** The transfers of an accepted profit withdrawal are those of
    [computeRealizeProfit] on the realizable pnl of the whole position and
    the funding fee. *)
Lemma computeWithdrawProfit_transfers assets subAccountId l profitAssetId prices amount
    w w' r original :
  heap w !! l = Some original ->
  computeWithdrawProfit decodeSubAccountId assets subAccountId l profitAssetId
    prices amount w = (w', inr r) ->
  exists sid price profit asset fee k' pnl realized,
    decodeSubAccountId subAccountId = inr sid
    /\ computeTradingPrice decodeSubAccountId assets subAccountId prices false = inr price
    /\ resolveProfitAsset assets prices (SubAccountId.assetId sid)
         (SubAccountId.isLong sid) (TradingPrice.assetPrice price) profitAssetId
       = inr profit
    /\ assets !! SubAccountId.assetId sid = Some asset
    /\ computeFundingFeeUsd original (Some asset) (SubAccountId.isLong sid)
         (TradingPrice.assetPrice price) = inr fee
    /\ computePositionPnlUsd (Some asset) original (SubAccountId.isLong sid)
         (SubAccount.size original) (TradingPrice.assetPrice price) (clk w)
       = (k', inr pnl)
    /\ computeRealizeProfit (Pnl.pnlUsd pnl) fee
         (JsNumber.item assets (ProfitAsset.profitAssetId profit))
         (ProfitAsset.profitAssetPrice profit) = inr realized
    /\ WithdrawProfitResult.feeUsd r = fee
    /\ WithdrawProfitResult.profitAssetTransferred r
       = RealizeProfit.profitAssetTransferred realized
    /\ WithdrawProfitResult.bitoroTokenTransferred r
       = RealizeProfit.bitoroTokenTransferred realized.
Proof.
  intros Hl H.
  assert (Hctx : exists w1 cp,
             computeWithdrawProfit_context decodeSubAccountId assets subAccountId l
               profitAssetId prices amount w = (w1, inr cp)).
  { unfold computeWithdrawProfit in H. apply bind_inr in H.
    destruct H as (w1 & cp & Hctx & _). eauto. }
  destruct Hctx as (w1 & [c profit] & Hctx).
  destruct (computeWithdrawProfit_context_inr _ _ _ _ _ _ _ _ _ _ Hctx)
    as (a & sid & price & asset & collateralAsset & Hl' & -> & Hid & Hprice & Hprofit
        & Hc & Hamount & Hasset & Hcollateral & Htradable & Hsize).
  simpl in Hprofit, Hc. subst c.
  assert (a = original) by congruence. subst a.
  destruct (resolveProfitAsset_defined _ _ _ _ _ _ _ _ Hprofit Hasset)
    as [profitAsset HprofitAsset].
  destruct (computeFundingFeeUsd_defined original asset (SubAccountId.isLong sid)
              (TradingPrice.assetPrice price)) as [fee Hfee].
  destruct (computePositionPnlUsd_defined asset original (SubAccountId.isLong sid)
              (SubAccount.size original) (TradingPrice.assetPrice price) (clk w))
    as (k' & pnl & Hpnl).
  destruct (computeRealizeProfit_defined (Pnl.pnlUsd pnl) fee profitAsset
              (ProfitAsset.profitAssetPrice profit)) as [realized Hrealized].
  exists sid, price, profit, asset, fee, k', pnl, realized.
  rewrite HprofitAsset.
  repeat (split; [assumption |]).
  eassert (Heval :
    computeWithdrawProfit decodeSubAccountId assets subAccountId l profitAssetId
      prices amount w = _).
  { unfold computeWithdrawProfit. unfold bind at 1. rewrite Hctx. simpl.
    rewrite Hasset, HprofitAsset.
    rewrite bind_deref_last, bind_liftE, Hfee.
    rewrite bind_updateEntryFunding_last, bind_deref_last, bind_liftC.
    change (computePositionPnlUsd (Some asset) (SubAccount.with_entryFunding ?x original))
      with (computePositionPnlUsd (Some asset) original).
    simpl SubAccount.size. rewrite Hpnl. reflexivity. }
  rewrite Heval in H. clear Heval.
  destruct (lt (Pnl.pnlUsd pnl) _); [discriminate H |].
  rewrite bind_liftE, Hrealized in H.
  rewrite bind_deref_last in H.
  match type of H with
  | context [bind (if ?b then assign ?rf ?u1 else assign ?rf ?u2) ?k] =>
      replace (bind (if b then assign rf u1 else assign rf u2) k)
        with (bind (assign rf (if b then u1 else u2)) k) in H by (destruct b; reflexivity)
  end.
  rewrite bind_assign_last in H.
  match type of H with
  | context [bind (computeSubAccount ?d ?as_ ?i ?rf ?cp ?ap) ?k ?w0] =>
      destruct (computeSubAccount_reads d as_ i rf cp ap w0) as (k'' & rs & Hrun & Hsub)
  end.
  unfold bind in H. rewrite Hrun in H. destruct rs as [e|details]; [discriminate H |].
  unfold ret in H. inversion H; subst w' r. simpl.
  repeat split; reflexivity.
Qed.

(** X28. What [computeWithdrawProfit] transfers does not depend on the
    amount asked for: two accepted withdrawals from the same account at
    the same prices report the same fee and transfer the same amounts, in
    the profit asset and in debt tokens, which are those of the whole
    realizable profit; the amount only moves the entry price. *)
Theorem computeWithdrawProfit_transfer_ignores_amount :
  forall (assets : list Asset) (subAccountId : string) (subAccount : ref)
         (profitAssetId : number) (prices : PriceDict) (amount amount' : BigNumber)
         (w w1 w2 : World) (r1 r2 : WithdrawProfitResult.t) (original : SubAccount),
    heap w !! subAccount = Some original ->
    computeWithdrawProfit decodeSubAccountId assets subAccountId subAccount profitAssetId
      prices amount w = (w1, inr r1) ->
    computeWithdrawProfit decodeSubAccountId assets subAccountId subAccount profitAssetId
      prices amount' w = (w2, inr r2) ->
    WithdrawProfitResult.feeUsd r1 = WithdrawProfitResult.feeUsd r2
    /\ WithdrawProfitResult.profitAssetTransferred r1
       = WithdrawProfitResult.profitAssetTransferred r2
    /\ WithdrawProfitResult.bitoroTokenTransferred r1
       = WithdrawProfitResult.bitoroTokenTransferred r2.
Proof.
  intros assets subAccountId subAccount profitAssetId prices amount amount' w w1 w2 r1 r2
         original Hl Hfirst Hsecond.
  destruct (computeWithdrawProfit_transfers _ _ _ _ _ _ _ _ _ _ Hl Hfirst)
    as (sid & price & profit & asset & fee & k' & pnl & realized & Hid & Hprice & Hprofit
        & Hasset & Hfee & Hpnl & Hrealized & -> & -> & ->).
  destruct (computeWithdrawProfit_transfers _ _ _ _ _ _ _ _ _ _ Hl Hsecond)
    as (sid' & price' & profit' & asset' & fee' & k'' & pnl' & realized' & Hid' & Hprice'
        & Hprofit' & Hasset' & Hfee' & Hpnl' & Hrealized' & -> & -> & ->).
  assert (sid' = sid) by congruence. subst sid'.
  assert (price' = price) by congruence. subst price'.
  assert (profit' = profit) by congruence. subst profit'.
  assert (asset' = asset) by congruence. subst asset'.
  assert (fee' = fee) by congruence. subst fee'.
  assert (pnl' = pnl) by congruence. subst pnl'.
  assert (realized' = realized) by congruence. subst realized'.
  repeat split; reflexivity.
Qed.

End Transfers.

Lemma computeWithdrawProfit_transfer_ignores_amount_witness :
  exists w1 w2 r1 r2,
    computeWithdrawProfit exampleDecode exampleAssets "USDC-ETH-long" 0%nat 0%nat
      (examplePrices 110) (Finite (1 # 2)) (exampleWorld 5000000) = (w1, inr r1)
    /\ computeWithdrawProfit exampleDecode exampleAssets "USDC-ETH-long" 0%nat 0%nat
         (examplePrices 110) (Finite (1 # 4)) (exampleWorld 5000000) = (w2, inr r2)
    /\ WithdrawProfitResult.profitAssetTransferred r1
       = WithdrawProfitResult.profitAssetTransferred r2.
Proof.
  destruct (computeWithdrawProfit exampleDecode exampleAssets "USDC-ETH-long" 0%nat 0%nat
              (examplePrices 110) (Finite (1 # 2)) (exampleWorld 5000000))
    as [w1 [e|r1]] eqn:Hfirst; [vm_compute in Hfirst; discriminate Hfirst |].
  destruct (computeWithdrawProfit exampleDecode exampleAssets "USDC-ETH-long" 0%nat 0%nat
              (examplePrices 110) (Finite (1 # 4)) (exampleWorld 5000000))
    as [w2 [e|r2]] eqn:Hsecond; [vm_compute in Hsecond; discriminate Hsecond |].
  destruct (computeWithdrawProfit_transfer_ignores_amount exampleDecode exampleAssets
              "USDC-ETH-long" 0%nat 0%nat (examplePrices 110) (Finite (1 # 2))
              (Finite (1 # 4)) (exampleWorld 5000000) w1 w2 r1 r2 exampleAccount eq_refl
              Hfirst Hsecond) as (_ & Hsame & _).
  exists w1, w2, r1, r2. repeat split; assumption.
Defined.

